(** * grid-backend: the allocation server and the mask script

    A shallow embedding of [src/scripts/applyMask.js] (the mask projection
    script followed by the Express server) and of [src/middileware.js].

    The handlers are written as programs over the SQL statements they send
    ([Prog], a free monad with exceptions), one constructor per [await
    client.query(...)] of the source.  The statements are given a meaning
    over two tables ([cells] and [usernames]) and the state of one
    connection ([Session]); the same programs are run either alone
    ([run], with an optional injected statement failure) or interleaved
    with a second connection ([run2]). *)

From Stdlib Require Import String Ascii ZArith Bool Lia Arith List Permutation.
Import ListNotations.
Open Scope Z_scope.

(** ** JavaScript strings

    Strings are sequences of code units below 256 (Latin-1), on which
    [String.prototype.trim] and [String.prototype.toLowerCase] are as
    below (ECMAScript WhiteSpace and LineTerminator below 256: TAB, LF, VT,
    FF, CR, SP and NBSP; the upper-case letters below 256 are A-Z, and
    U+00C0-U+00DE without the multiplication sign U+00D7). *)
Module Js.

Definition isWhiteSpace (c : ascii) : bool :=
  let n := N_of_ascii c in
  (((9 <=? n) && (n <=? 13)) || (n =? 32) || (n =? 160))%N.

Fixpoint trimStart (s : string) : string :=
  match s with
  | EmptyString => EmptyString
  | String c s' => if isWhiteSpace c then trimStart s' else s
  end.

Fixpoint trimEnd (s : string) : string :=
  match s with
  | EmptyString => EmptyString
  | String c s' =>
      match trimEnd s' with
      | EmptyString => if isWhiteSpace c then EmptyString else String c EmptyString
      | t => String c t
      end
  end.

Definition trim (s : string) : string := trimEnd (trimStart s).

Definition lowerChar (c : ascii) : ascii :=
  let n := N_of_ascii c in
  if (((65 <=? n) && (n <=? 90))
      || ((192 <=? n) && (n <=? 222) && negb (n =? 215)))%N
  then ascii_of_N (n + 32) else c.

Fixpoint toLowerCase (s : string) : string :=
  match s with
  | EmptyString => EmptyString
  | String c s' => String (lowerChar c) (toLowerCase s')
  end.

(** [!s] for a string: the empty string is the only falsy one. *)
Definition falsy (s : string) : bool :=
  match s with EmptyString => true | _ => false end.

(** An element of a JSON array: a string, or anything else (a number,
    [null], an object ...), on which [.trim()] is a [TypeError]. *)
Inductive value : Type :=
| Str (s : string)
| NotStr.

(** [Array.from(new Set(...))] after [add] in list order: the first
    occurrence of each element, in insertion order. *)
Fixpoint set_add (s : string) (acc : list string) : list string :=
  match acc with
  | [] => [s]
  | t :: acc' => if String.eqb t s then acc else t :: set_add s acc'
  end.

Definition includes (l : list string) (s : string) : bool :=
  existsb (String.eqb s) l.

End Js.

(** ** The two tables *)

Record Cell : Type := mkCell
  { cell_id : Z; col_x : Z; col_y : Z; filled : bool; is_mask : bool }.

Record UsernameRow : Type := mkRow
  { username : string; row_cell_id : Z }.

Record DB : Type := mkDB
  { cells : list Cell; usernames : list UsernameRow }.

(** The row changes the statements of the source make. *)
Inductive Write : Type :=
| WInsert (u : string) (c : Z)   (* INSERT INTO usernames (username, cell_id)  *)
| WFill (c : Z)                  (* UPDATE cells SET filled = TRUE WHERE cell_id = c *)
| WMask (px py : Z).             (* UPDATE cells SET is_mask = TRUE WHERE x = px AND y = py *)

Definition fill_cell (c : Z) (r : Cell) : Cell :=
  if cell_id r =? c
  then mkCell (cell_id r) (col_x r) (col_y r) true (is_mask r)
  else r.

Definition mask_cell (px py : Z) (r : Cell) : Cell :=
  if (col_x r =? px) && (col_y r =? py)
  then mkCell (cell_id r) (col_x r) (col_y r) (filled r) true
  else r.

Definition apply_write (w : Write) (db : DB) : DB :=
  match w with
  | WInsert u c => mkDB (cells db) (usernames db ++ [mkRow u c])
  | WFill c => mkDB (map (fill_cell c) (cells db)) (usernames db)
  | WMask px py => mkDB (map (mask_cell px py) (cells db)) (usernames db)
  end.

Definition apply_writes (ws : list Write) (db : DB) : DB :=
  fold_left (fun d w => apply_write w d) ws db.

Definition has_username (u : string) (db : DB) : bool :=
  existsb (fun r => String.eqb (username r) u) (usernames db).

(** ** SQL statements, indexed by what the source reads from the result *)

Inductive Sql : Type -> Type :=
| SelectCount : Sql Z
    (* SELECT COUNT( * ) FROM usernames; parseInt(rows[0].count, 10) *)
| SelectExists (u : string) : Sql Z
    (* SELECT 1 FROM usernames WHERE username = u; rowCount / rows.length *)
| SelectFreeCell : Sql (list Z)
    (* SELECT cell_id FROM cells WHERE filled = FALSE
       FOR UPDATE SKIP LOCKED LIMIT 1; the cell_id of each row *)
| InsertUsername (u : string) (c : Z) : Sql unit
| InsertUsernameOnConflictDoNothing (u : string) (c : Z) : Sql unit
| UpdateFilled (c : Z) : Sql unit
| UpdateMask (px py : Z) : Sql unit
| SelectUsernamesAny (l : list string) : Sql (list string)
    (* SELECT username FROM usernames WHERE username = ANY(l) *)
| Begin : Sql unit
| Commit : Sql unit
| Rollback : Sql unit.

(** ** Programs: a sequence of statements, each of which may be rejected *)

Inductive Prog (A : Type) : Type :=
| Ret (a : A)
| Throw
| Query {R : Type} (q : Sql R) (k : option R -> Prog A).

Arguments Ret {A} a.
Arguments Throw {A}.
Arguments Query {A R} q k.

Fixpoint bind {A B : Type} (p : Prog A) (f : A -> Prog B) : Prog B :=
  match p with
  | Ret a => f a
  | Throw => Throw
  | Query q k => Query q (fun r => bind (k r) f)
  end.

(** [await client.query(q)]: the result, or the rejection thrown. *)
Definition query {R : Type} (q : Sql R) : Prog R :=
  Query q (fun r => match r with Some v => Ret v | None => Throw end).

(** [try { p } catch (e) { h }]. *)
Fixpoint try_catch {A : Type} (p : Prog A) (h : Prog A) : Prog A :=
  match p with
  | Ret a => Ret a
  | Throw => h
  | Query q k => Query q (fun r => try_catch (k r) h)
  end.

Declare Scope prog_scope.
Delimit Scope prog_scope with prog.
Notation "x <- p ;; k" := (bind p (fun x => k))
  (at level 61, p at next level, right associativity) : prog_scope.
Notation "p ;; k" := (bind p (fun _ => k))
  (at level 61, right associativity) : prog_scope.
Open Scope prog_scope.

(** [for (let x of l) { body }] with [continue] ([Next]) and [break]:
    the loop variables are threaded as [s]; the result says whether the
    loop ran to the end of [l] ([Next]) or was left by [break]. *)
Inductive Ctl : Type := Next | Break.

Fixpoint for_of {X S : Type} (l : list X) (body : X -> S -> Prog (Ctl * S))
  (s : S) : Prog (Ctl * S) :=
  match l with
  | [] => Ret (Next, s)
  | x :: l' =>
      r <- body x s ;;
      match fst r with
      | Next => for_of l' body (snd r)
      | Break => Ret (Break, snd r)
      end
  end.

(** ** The server: constants, requests and responses *)

Definition GRID_SIZE : Z := 256.
Definition THRESHOLD : Z := 128.
Definition SEASON_1_LIMIT : Z := 12000.

(** What the handlers read from a request: the [x-admin-secret] header
    ([None]: absent), [req.body.usernames] of a parsed body ([None]: not
    an array; for a request without a parsed body see [on_body]), and
    [req.file] as the rows csv-parser emits, each row given by its
    [Object.values] ([None]: no file uploaded). *)
Record Request : Type := mkRequest
  { x_admin_secret : option string;
    body_usernames : option (list Js.value);
    file_rows : option (list (list string)) }.

Inductive Response : Type :=
| Unauthorized                         (* 401 { success: false, message: "Unauthorized" } *)
| BadRequest                           (* 400 { success: false, message } *)
| ServerError                          (* 500 { success: false } *)
| Allocated (added skipped : Z)        (* 200 { success: true, added, skipped } *)
| PreviewEmpty                         (* 200 { success: true, total: 0 } *)
| Preview (total_in_file already_exists ready_to_insert : Z)
          (new_usernames : list string).

Definition status (r : Response) : Z :=
  match r with
  | Unauthorized => 401
  | BadRequest => 400
  | ServerError => 500
  | _ => 200
  end.

(** [adminAuth(req, res, next)]; [env] is [process.env.ADMIN_SECRET]. *)
Definition adminAuth (env : option string) (req : Request)
  (next : Prog Response) : Prog Response :=
  match x_admin_secret req with
  | None => Ret Unauthorized                              (* !undefined *)
  | Some secret =>
      if Js.falsy secret then Ret Unauthorized            (* !"" *)
      else match env with
           | None => Ret Unauthorized                     (* secret !== undefined *)
           | Some expected =>
               if String.eqb secret expected then next else Ret Unauthorized
           end
  end.

Definition normalize (raw : string) : string := Js.toLowerCase (Js.trim raw).

(** The loop variables of [processUsernamesUpload]. *)
Record Tally : Type := mkTally { added : Z; skipped : Z; currentCount : Z }.

Definition processUsernamesUpload_body (raw : Js.value) (t : Tally)
  : Prog (Ctl * Tally) :=
  if SEASON_1_LIMIT <=? currentCount t then Ret (Break, t)
  else
    match raw with
    | Js.NotStr => Throw
    | Js.Str raw =>
        let username := normalize raw in
        if Js.falsy username
        then Ret (Next, mkTally (added t) (skipped t + 1) (currentCount t))
        else
          exists_ <- query (SelectExists username) ;;
          if 0 <? exists_
          then Ret (Next, mkTally (added t) (skipped t + 1) (currentCount t))
          else
            cellResult <- query SelectFreeCell ;;
            match cellResult with
            | [] => Ret (Break, t)
            | cellId :: _ =>
                query (InsertUsername username cellId) ;;
                query (UpdateFilled cellId) ;;
                Ret (Next, mkTally (added t + 1) (skipped t) (currentCount t + 1))
            end
    end.

Definition processUsernamesUpload (usernames : list Js.value) : Prog (Z * Z) :=
  currentCount <- query SelectCount ;;
  r <- for_of usernames processUsernamesUpload_body (mkTally 0 0 currentCount) ;;
  Ret (added (snd r), skipped (snd r)).

(** The loop of the [/admin/upload] handler; its variables are [added] and
    [skipped]. *)
Definition upload_body (name : Js.value) (t : Z * Z) : Prog (Ctl * (Z * Z)) :=
  match name with
  | Js.NotStr => Throw
  | Js.Str name =>
      let username := normalize name in
      if Js.falsy username then Ret (Next, (fst t, snd t + 1))
      else
        exists_ <- query (SelectExists username) ;;
        if 0 <? exists_ then Ret (Next, (fst t, snd t + 1))
        else
          freeCell <- query SelectFreeCell ;;
          match freeCell with
          | [] => Ret (Break, t)
          | cellId :: _ =>
              query Begin ;;
              query (InsertUsernameOnConflictDoNothing username cellId) ;;
              query (UpdateFilled cellId) ;;
              query Commit ;;
              Ret (Next, (fst t + 1, snd t))
          end
  end.

(** The two allocating handlers, from the check of [usernames] on (for
    the line before it, which reads [req.body], see [on_body]); the
    statements are those sent on [client].  ([pool.connect()] and
    [client.release()] send none.) *)
Definition upload_handler (req : Request) : Prog Response :=
  match body_usernames req with
  | None | Some [] => Ret BadRequest
  | Some usernames =>
      try_catch
        (r <- for_of usernames upload_body (0, 0) ;;
         Ret (Allocated (fst (snd r)) (snd (snd r))))
        (query Rollback ;; Ret ServerError)
  end.

Definition upload_confirm_handler (req : Request) : Prog Response :=
  match body_usernames req with
  | None | Some [] => Ret BadRequest
  | Some usernames =>
      try_catch
        (query Begin ;;
         result <- processUsernamesUpload usernames ;;
         query Commit ;;
         Ret (Allocated (fst result) (snd result)))
        (query Rollback ;; Ret ServerError)
  end.

(** [const { usernames } = req.body], the first line of both allocating
    handlers, stands before their [try]: on a request whose body was not
    parsed [req.body] is undefined and the line throws.  [parsed] tells
    whether [req.body] is an object; [body_usernames] is then what its
    [usernames] field holds. *)
Definition on_body (parsed : bool) (h : Request -> Prog Response) (req : Request)
  : Prog Response :=
  if parsed then h req else Throw.

(** The [usernames] set of the preview handler after the last [data]
    event. *)
Definition preview_add (acc : list string) (row : list string) : list string :=
  match row with
  | [] => acc                                  (* Object.values(row)[0] undefined *)
  | name :: _ => if Js.falsy name then acc else Js.set_add (normalize name) acc
  end.

Definition preview_list (rows : list (list string)) : list string :=
  fold_left preview_add rows [].

Definition upload_preview_handler (req : Request) : Prog Response :=
  match file_rows req with
  | None => Ret BadRequest
  | Some rows =>
      let names := preview_list rows in                  (* [list] in the source *)
      match names with
      | [] => Ret PreviewEmpty
      | _ =>
          existing <- query (SelectUsernamesAny names) ;;
          let newOnes := filter (fun u => negb (Js.includes existing u)) names in
          Ret (Preview (Z.of_nat (length names)) (Z.of_nat (length existing))
                       (Z.of_nat (length newOnes)) newOnes)
      end
  end.

Inductive Route : Type := AdminUpload | AdminUploadPreview | AdminUploadConfirm.

Definition handler (r : Route) : Request -> Prog Response :=
  match r with
  | AdminUpload => upload_handler
  | AdminUploadPreview => upload_preview_handler
  | AdminUploadConfirm => upload_confirm_handler
  end.

(** [app.post(path, adminAuth, ..., handler)]. *)
Definition route (env : option string) (r : Route) (req : Request) : Prog Response :=
  adminAuth env req (handler r req).

(** ** The mask script *)

Fixpoint range_from (start : Z) (n : nat) : list Z :=
  match n with
  | O => []
  | S n' => start :: range_from (start + 1) n'
  end.

(** The values [0, 1, ..., n - 1] of [for (let i = 0; i < n; i++)]. *)
Definition range (n : Z) : list Z := range_from 0 (Z.to_nat n).

(** [data[idx] < THRESHOLD]; a read past the end is [undefined], and
    [undefined < 128] is false. *)
Definition dark (data : list Z) (idx : Z) : bool :=
  match nth_error data (Z.to_nat idx) with
  | Some brightness => brightness <? THRESHOLD
  | None => false
  end.

Definition applyMask_pixel (data : list Z) (py px : Z) (count : Z)
  : Prog (Ctl * Z) :=
  let idx := py * GRID_SIZE + px in
  if dark data idx
  then query (UpdateMask (px + 1) (GRID_SIZE - py)) ;; Ret (Next, count + 1)
  else Ret (Next, count).

Definition applyMask_row (data : list Z) (py : Z) (count : Z) : Prog (Ctl * Z) :=
  for_of (range GRID_SIZE) (applyMask_pixel data py) count.

(** [applyMask()], given the raw grayscale buffer [data] that sharp
    returns for the image; the result is [count]. *)
Definition applyMask (data : list Z) : Prog Z :=
  r <- for_of (range GRID_SIZE) (applyMask_row data) 0 ;;
  Ret (snd r).

(** ** The meaning of the statements

    One connection is in autocommit mode or inside a transaction opened by
    [BEGIN]; inside, its row changes are kept in [writes] until [COMMIT]
    and it holds the row locks [locks] (on [cells] rows, by [cell_id]).
    Every statement reads the committed tables with the connection's own
    pending changes applied (READ COMMITTED).  The state "transaction
    aborted" that follows a rejected statement is not represented: the
    handlers answer every rejection by [ROLLBACK], which ends it. *)

Record Session : Type := mkSession
  { in_txn : bool; writes : list Write; locks : list Z }.

Definition idle : Session := mkSession false [] [].

Definition view (db : DB) (s : Session) : DB := apply_writes (writes s) db.

Definition do_write (w : Write) (db : DB) (s : Session) : DB * Session :=
  if in_txn s
  then (db, mkSession true (writes s ++ [w]) (locks s))
  else (apply_write w db, s).

Definition lock_row (c : Z) (s : Session) : Session :=
  if in_txn s then mkSession true (writes s) (c :: locks s) else s.

(** [LIMIT 1] without [ORDER BY] returns some row among those that match:
    which one is the server's choice. *)
Class Picker : Type := mkPicker
  { pick : list Cell -> option Cell;
    pick_In : forall l c, pick l = Some c -> In c l;
    pick_nil : forall l, pick l = None -> l = [] }.

(** Modelled from the spec: the table declarations are not among the
    sources.  [usernames.username] is unique ("a claim table (username
    unique, cell_id)"; the [ON CONFLICT] clause of the source relies on
    it), and the tables have no other constraint: an insert of [u]
    conflicts exactly when a row for [u] is there. *)
Definition violates_unique (u : string) (db : DB) : bool := has_username u db.

Definition free_unlocked (held : list Z) (c : Cell) : bool :=
  negb (filled c) && negb (existsb (Z.eqb (cell_id c)) held).

(** The state of a run on one connection: the failure still to come
    (see [run]), the committed tables and the connection. *)
Record World : Type := mkWorld
  { fault : option nat; database : DB; session : Session }.

Inductive Outcome (A : Type) : Type :=
| Returned (a : A)
| Thrown.
Arguments Returned {A} a.
Arguments Thrown {A}.

(** The state of a run on two connections (see [run2]). *)
Record Pair (A B : Type) : Type := mkPair
  { left_prog : Prog A; right_prog : Prog B;
    shared : DB; left_session : Session; right_session : Session }.
Arguments mkPair {A B}.
Arguments left_prog {A B}.
Arguments right_prog {A B}.
Arguments shared {A B}.
Arguments left_session {A B}.
Arguments right_session {A B}.

(** A call of one of the two allocating endpoints. *)
Record Call : Type := mkCall
  { call_confirm : bool;                (* /admin/upload-confirm or /admin/upload *)
    call_usernames : option (list Js.value);
    call_fault : option nat }.

Definition call_request (c : Call) : Request :=
  mkRequest None (call_usernames c) None.

Section Statements.

Context {P : Picker}.

(** The effect of statement [q] on connection [s]; [held] are the row
    locks of the other connections.  The result is [None] when the
    statement is rejected. *)
Definition exec {R : Type} (q : Sql R) (held : list Z) (db : DB) (s : Session)
  : option R * DB * Session :=
  match q in Sql R return option R * DB * Session with
  | SelectCount =>
      (Some (Z.of_nat (length (usernames (view db s)))), db, s)
  | SelectExists u =>
      (Some (Z.of_nat (length (filter (fun r => String.eqb (username r) u)
                                 (usernames (view db s))))), db, s)
  | SelectFreeCell =>
      match pick (filter (free_unlocked held) (cells (view db s))) with
      | None => (Some [], db, s)
      | Some c => (Some [cell_id c], db, lock_row (cell_id c) s)
      end
  | InsertUsername u c =>
      if violates_unique u (view db s) then (None, db, s)
      else let '(db', s') := do_write (WInsert u c) db s in (Some tt, db', s')
  | InsertUsernameOnConflictDoNothing u c =>
      if violates_unique u (view db s) then (Some tt, db, s)
      else let '(db', s') := do_write (WInsert u c) db s in (Some tt, db', s')
  | UpdateFilled c =>
      let '(db', s') := do_write (WFill c) db s in (Some tt, db', lock_row c s')
  | UpdateMask px py =>
      let '(db', s') := do_write (WMask px py) db s in (Some tt, db', s')
  | SelectUsernamesAny l =>
      (Some (filter (Js.includes l) (map username (usernames (view db s)))), db, s)
  | Begin => (Some tt, db, mkSession true (writes s) (locks s))
  | Commit => (Some tt, view db s, idle)
  | Rollback => (Some tt, db, idle)
  end.

(** *** One connection, with at most one injected failure

    [fault = Some n]: the statement sent after [n] others is rejected
    without effect (a lost connection, a timeout); [None]: no failure. *)
Fixpoint run {A : Type} (p : Prog A) (w : World) : Outcome A * World :=
  match p with
  | Ret a => (Returned a, w)
  | Throw => (Thrown, w)
  | Query q k =>
      match fault w with
      | Some O => run (k None) (mkWorld None (database w) (session w))
      | f =>
          let '(r, db', s') := exec q [] (database w) (session w) in
          run (k r) (mkWorld (option_map Nat.pred f) db' s')
      end
  end.

(** One request on a connection taken from the pool: the response (if the
    handler did not throw) and the committed tables afterwards. *)
Definition serve (p : Prog Response) (f : option nat) (db : DB)
  : Outcome Response * DB :=
  let '(o, w) := run p (mkWorld f db idle) in (o, database w).

(** Calls served one after the other: each call runs alone, from the
    tables the call before it has left, and has ended (answered or
    thrown) before the next one starts.  Requests that overlap are served
    by [run2] below, statement by statement. *)
Definition serve_call (db : DB) (c : Call) : DB :=
  snd (serve (handler (if call_confirm c then AdminUploadConfirm else AdminUpload)
                      (call_request c))
             (call_fault c) db).

Definition serve_calls (calls : list Call) (db : DB) : DB :=
  fold_left serve_call calls db.

(** *** Two connections, interleaved statement by statement

    A statement waits (the step leaves everything as it is) while it needs
    a row locked by the other connection's open transaction, or inserts a
    username that the other connection has inserted and not yet
    committed. *)
Definition inserts (u : string) (w : Write) : bool :=
  match w with
  | WInsert u' _ => String.eqb u' u
  | _ => false
  end.

Definition waits {R : Type} (q : Sql R) (db : DB) (other : Session) : bool :=
  match q with
  | InsertUsername u _ | InsertUsernameOnConflictDoNothing u _ =>
      existsb (inserts u) (writes other)
  | UpdateFilled c => existsb (Z.eqb c) (locks other)
  | UpdateMask px py =>
      existsb (fun r => (col_x r =? px) && (col_y r =? py)
                        && existsb (Z.eqb (cell_id r)) (locks other))
              (cells db)
  | _ => false
  end.

Definition step {A : Type} (p : Prog A) (db : DB) (s other : Session)
  : Prog A * DB * Session :=
  match p with
  | Query q k =>
      if waits q db other then (p, db, s)
      else let '(r, db', s') := exec q (locks other) db s in (k r, db', s')
  | _ => (p, db, s)
  end.

(** [sched]: which connection's next statement the server executes
    ([true]: the left one). *)
Fixpoint run2 {A B : Type} (sched : list bool) (c : Pair A B) : Pair A B :=
  match sched with
  | [] => c
  | true :: sched' =>
      let '(p, db, s) :=
        step (left_prog c) (shared c) (left_session c) (right_session c) in
      run2 sched' (mkPair p (right_prog c) db s (right_session c))
  | false :: sched' =>
      let '(p, db, s) :=
        step (right_prog c) (shared c) (right_session c) (left_session c) in
      run2 sched' (mkPair (left_prog c) p db (left_session c) s)
  end.

End Statements.

(** The choice "first matching row in table order". *)
#[refine] Instance first_row : Picker := {| pick := @hd_error Cell |}.
Proof.
  - intros [|a l] c H; simpl in H; [discriminate|].
    injection H as ->. now left.
  - intros [|a l] H; [reflexivity|discriminate].
Defined.

(** * Vocabulary of the statements

    The notions the lemmas and theorems below are stated with; none of
    them is part of the program. *)

(** An authorised request: the header is present, non-empty, and equal to
    the configured secret. *)
Definition authorised (env : option string) (req : Request) : bool :=
  match x_admin_secret req, env with
  | Some secret, Some expected => negb (Js.falsy secret) && String.eqb secret expected
  | _, _ => false
  end.

(** Setting [is_mask] on the rows whose coordinates satisfy [hit]. *)
Definition mask_where (hit : Z -> Z -> bool) (c : Cell) : Cell :=
  if hit (col_x c) (col_y c)
  then mkCell (cell_id c) (col_x c) (col_y c) (filled c) true
  else c.

Definition mask_db (hit : Z -> Z -> bool) (db : DB) : DB :=
  mkDB (map (mask_where hit) (cells db)) (usernames db).

(** The cell lies on the grid and the pixel that the script maps to it is
    dark: pixel [(px, py)] goes to cell [(px + 1, GRID_SIZE - py)]. *)
Definition in_grid (cx cy : Z) : bool :=
  (1 <=? cx) && (cx <=? GRID_SIZE) && (1 <=? cy) && (cy <=? GRID_SIZE).

Definition masked_by (data : list Z) (cx cy : Z) : bool :=
  in_grid cx cy && dark data ((GRID_SIZE - cy) * GRID_SIZE + (cx - 1)).

Definition pixel_hits (data : list Z) (py px cx cy : Z) : bool :=
  dark data (py * GRID_SIZE + px) && ((cx =? px + 1) && (cy =? GRID_SIZE - py)).

Definition row_hits (data : list Z) (xs : list Z) (py cx cy : Z) : bool :=
  existsb (fun px => pixel_hits data py px cx cy) xs.

(** The image in terms of its pixels: the pixel [(px, py)] of the
    [GRID_SIZE] x [GRID_SIZE] bitmap is the value at [py * GRID_SIZE + px]
    of the raw buffer, and it is dark when that value is below
    [THRESHOLD]. *)
Definition dark_pixel (data : list Z) (px py : Z) : Prop :=
  exists brightness,
    nth_error data (Z.to_nat (py * GRID_SIZE + px)) = Some brightness
    /\ brightness < THRESHOLD.

(** The cell [(cx, cy)] is the image of a dark pixel: the pixel [(px, py)]
    goes to the cell [(px + 1, GRID_SIZE - py)]. *)
Definition projected (data : list Z) (cx cy : Z) : Prop :=
  exists px py,
    0 <= px < GRID_SIZE /\ 0 <= py < GRID_SIZE
    /\ cx = px + 1 /\ cy = GRID_SIZE - py /\ dark_pixel data px py.

(** A cell before and after the projection of the image. *)
Definition cell_projected (data : list Z) (c c' : Cell) : Prop :=
  cell_id c' = cell_id c /\ col_x c' = col_x c /\ col_y c' = col_y c
  /\ filled c' = filled c
  /\ (is_mask c' = true <-> is_mask c = true \/ projected data (col_x c) (col_y c)).

(** A claim for [u] on the cell [c], as the two writes of one candidate. *)
Definition allocate (u : string) (c : Z) (db : DB) : DB :=
  apply_write (WFill c) (apply_write (WInsert u c) db).

Definition no_free (db : DB) : Prop :=
  forall c, In c (cells db) -> filled c = true.

(** What one iteration does to the tables [v] the connection sees. *)
Inductive Fate : Type := Skipped | GridFull | Claimed.

Definition fate (k : Fate) (x : Js.value) (v v' : DB) : Prop :=
  match k with
  | Skipped =>
      v' = v /\ exists s, x = Js.Str s
        /\ (normalize s = EmptyString \/ has_username (normalize s) v = true)
  | GridFull =>
      v' = v /\ no_free v /\ exists s, x = Js.Str s
        /\ normalize s <> EmptyString /\ has_username (normalize s) v = false
  | Claimed =>
      exists s cell, x = Js.Str s
        /\ normalize s <> EmptyString /\ has_username (normalize s) v = false
        /\ In cell (cells v) /\ filled cell = false
        /\ v' = allocate (normalize s) (cell_id cell) v
  end.

(** [grows db db']: [db'] is [db] after some candidates were given a free
    cell each, one after the other. *)
Inductive grows (db : DB) : DB -> Prop :=
| grows_refl : grows db db
| grows_step (db' : DB) (u : string) (cell : Cell) :
    grows db db' ->
    has_username u db' = false -> In cell (cells db') -> filled cell = false ->
    grows db (allocate u (cell_id cell) db').

(** The key constraints and the pairing of filled cells with claims. *)
Record Consistent (db : DB) : Prop := mkConsistent
  { cell_ids_unique : NoDup (map cell_id (cells db));
    usernames_unique : NoDup (map username (usernames db));
    claimed_cells_unique : NoDup (map row_cell_id (usernames db));
    claims_on_filled : forall r, In r (usernames db) ->
      exists c, In c (cells db) /\ cell_id c = row_cell_id r /\ filled c = true;
    filled_are_claimed : forall c, In c (cells db) -> filled c = true ->
      In (cell_id c) (map row_cell_id (usernames db)) }.

Definition claims_on (db : DB) (id : Z) : list UsernameRow :=
  filter (fun r => row_cell_id r =? id) (usernames db).

Definition cells_with (db : DB) (id : Z) : list Cell :=
  filter (fun c => cell_id c =? id) (cells db).

(** A cell is filled iff exactly one claim references it, and every claim
    references exactly one cell, which no other claim references. *)
Definition Bijection (db : DB) : Prop :=
  (forall c, In c (cells db) ->
     (filled c = true <-> length (claims_on db (cell_id c)) = 1%nat))
  /\ (forall r, In r (usernames db) ->
        length (cells_with db (row_cell_id r)) = 1%nat
        /\ length (claims_on db (row_cell_id r)) = 1%nat).

Definition allocating_request (l : list Js.value) : Request :=
  mkRequest None (Some l) None.

Definition free_count (db : DB) : nat :=
  length (filter (fun c => negb (filled c)) (cells db)).

(** The candidates normalise to distinct non-empty identifiers, none of
    them in the ledger. *)
Definition Eligible (l : list string) (db : DB) : Prop :=
  NoDup (map normalize l)
  /\ forall u, In u l ->
       normalize u <> EmptyString /\ has_username (normalize u) db = false.

(** How many more claims the cap admits, seen from the loop's counter. *)
Definition room (count : Z) : nat := Z.to_nat (SEASON_1_LIMIT - count).

Definition claim_count (db : DB) : Z := Z.of_nat (length (usernames db)).

(** ** Sample tables, requests and schedules *)

Section SampleData.

Local Open Scope string_scope.

(** Three cells, nothing filled, no claim. *)
Definition sample_grid : DB :=
  mkDB [mkCell 1 1 1 false false; mkCell 2 2 1 false false; mkCell 3 3 1 false false] [].

(** Two cells, the first one claimed. *)
Definition one_free : DB :=
  mkDB [mkCell 1 1 1 true false; mkCell 2 2 1 false false] [mkRow "zed" 1].

(** One cell, claimed: a full grid. *)
Definition full_grid : DB :=
  mkDB [mkCell 1 1 1 true false] [mkRow "zed" 1].

Definition batch (l : list string) : Request := allocating_request (map Js.Str l).

(** A ledger of [n] claims, on the cells [1 ... n], and [extra] free cells
    after them; the identifiers are [u] followed by binary digits. *)
Fixpoint bits (p : positive) : string :=
  match p with
  | xH => "1"
  | xO p' => String "0" (bits p')
  | xI p' => String "1" (bits p')
  end.

Definition season_cell (taken : bool) (i : nat) : Cell :=
  mkCell (Z.of_nat (S i)) (Z.of_nat i mod GRID_SIZE + 1) (Z.of_nat i / GRID_SIZE + 1)
         taken false.

Definition season_row (i : nat) : UsernameRow :=
  mkRow (String "u" (bits (Pos.of_succ_nat i))) (Z.of_nat (S i)).

Definition season_db (n extra : nat) : DB :=
  mkDB (map (season_cell true) (seq 0 n) ++ map (season_cell false) (seq n extra))
       (map season_row (seq 0 n)).

(** The ledger at the cap, and one free cell left. *)
Definition season_full : DB := season_db (Z.to_nat SEASON_1_LIMIT) 1.

(** Which connection the server serves next. *)
Definition L : bool := true.
Definition R : bool := false.

(** Two [/admin/upload] calls for ["bob"]: the right one has checked that
    the name is free; the left one then runs from start to end; the right
    one goes on with its free-cell query and its transaction. *)
Definition race_upload_after_check : Pair Response Response :=
  run2 [R; L; L; L; L; L; L; R; R; R; R; R]
       (mkPair (upload_handler (batch ["bob"])) (upload_handler (batch ["bob"]))
               sample_grid idle idle).

(** An [/admin/upload] call for ["bob"] while an [/admin/upload-confirm]
    call for ["bob"; "carol"] is between its check and its insert. *)
Definition race_confirm_after_check : Pair Response Response :=
  run2 [R; R; R; L; L; L; L; L; L; R; R; R]
       (mkPair (upload_handler (batch ["bob"]))
               (upload_confirm_handler (batch ["bob"; "carol"]))
               sample_grid idle idle).

(** Both connections check first, then each runs its allocation. *)
Definition race_two_uploads : Pair Response Response :=
  run2 [L; R; L; L; L; L; L; R; R; R; R; R]
       (mkPair (upload_handler (batch ["bob"])) (upload_handler (batch ["bob"]))
               sample_grid idle idle).

(** Two confirm calls; the right one waits on its insert until the left
    one has committed. *)
Definition race_two_confirms : Pair Response Response :=
  run2 [L; L; L; R; R; R; L; R; L; L; R; L; R; R; R]
       (mkPair (upload_confirm_handler (batch ["bob"]))
               (upload_confirm_handler (batch ["bob"; "carol"]))
               sample_grid idle idle).

Definition crowd_cell (taken : bool) (i : Z) : Cell :=
  mkCell i ((i - 1) mod GRID_SIZE + 1) ((i - 1) / GRID_SIZE + 1) taken false.

Definition crowd_row (i : Z) : UsernameRow :=
  mkRow (String "u" (bits (Z.to_pos i))) i.

(** A ledger of [k] claims, on the cells [1 ... k], and [extra] free cells
    after them. *)
Definition crowd (k extra : Z) : DB :=
  mkDB (map (crowd_cell true) (range_from 1 (Z.to_nat k))
        ++ map (crowd_cell false) (range_from (k + 1) (Z.to_nat extra)))
       (map crowd_row (range_from 1 (Z.to_nat k))).

(** Two [/admin/upload-confirm] calls on a ledger one claim below the
    cap: both read the count before either inserts. *)
Definition race_confirms_below_cap : Pair Response Response :=
  run2 [L; L; R; R; L; L; L; L; L; R; R; R; R; R]
       (mkPair (upload_confirm_handler (batch ["amy"]))
               (upload_confirm_handler (batch ["bob"]))
               (crowd (SEASON_1_LIMIT - 1) 2) idle idle).

(** A buffer of three pixels (the rest of the image is not there), and
    cells of the two top rows of the grid. *)
Definition three_pixels : list Z := [127; 128; 0].

Definition top_cells : DB :=
  mkDB [mkCell 1 1 256 false false; mkCell 2 2 256 false false;
        mkCell 3 3 256 false false; mkCell 4 1 255 false false] [].

Definition sample_calls : list Call :=
  [ mkCall false (Some [Js.Str " Ann"; Js.Str "bob"; Js.NotStr]) None;
    mkCall true (Some [Js.Str "ANN "; Js.Str "cy"; Js.Str "dee"]) (Some 5%nat);
    mkCall true (Some [Js.Str "cy"]) None ].

Definition sample_rows : list (list string) :=
  [["  Zed "; "x"]; [" amy"]; [""]; []; ["AMY"; "y"]; ["bo"]].

End SampleData.

(** * The read-only routes

    [GET /test-db], [/season], [/grid], [/search/:username] and
    [/progress] send one [SELECT] each through [pool.query], outside any
    transaction: they read the committed tables. *)

Module JsNumber.

(** The value of a digit of [parseInt]: [0-9], then [a-z] or [A-Z]. *)
Definition digit_value (c : ascii) : option N :=
  let n := N_of_ascii c in
  if ((48 <=? n) && (n <=? 57))%N then Some (n - 48)%N
  else if ((97 <=? n) && (n <=? 122))%N then Some (n - 87)%N
  else if ((65 <=? n) && (n <=? 90))%N then Some (n - 55)%N
  else None.

(** The longest prefix of [s] made of digits of the radix. *)
Fixpoint digits_prefix (radix : N) (s : string) : list N :=
  match s with
  | EmptyString => []
  | String c s' =>
      match digit_value c with
      | Some d => if (d <? radix)%N then d :: digits_prefix radix s' else []
      | None => []
      end
  end.

Definition number_of (radix : N) (ds : list N) : Z :=
  fold_left (fun acc d => acc * Z.of_N radix + Z.of_N d) ds 0.

(** [parseInt(s)] without a radix argument: leading white space, a sign,
    an optional [0x]/[0X] prefix, then the digits; [None] is [NaN].  The
    result is the mathematical integer, which is the JavaScript number as
    long as its magnitude is at most 2^53. *)
Definition parseInt (s : string) : option Z :=
  let s1 := Js.trimStart s in
  let '(sign, s2) :=
    match s1 with
    | String "-"%char r => (-1, r)
    | String "+"%char r => (1, r)
    | _ => (1, s1)
    end in
  let '(radix, s3) :=
    match s2 with
    | String "0"%char (String c r) =>
        if Ascii.eqb c "x"%char || Ascii.eqb c "X"%char then (16%N, r) else (10%N, s2)
    | _ => (10%N, s2)
    end in
  match digits_prefix radix s3 with
  | [] => None
  | ds => Some (sign * number_of radix ds)
  end.

(** [Number.MAX_SAFE_INTEGER]: up to it every integer is a JavaScript
    number. *)
Definition max_safe_integer : Z := 9007199254740991.

(** [v || d] for a query parameter [v]: [undefined] and the empty string
    are falsy. *)
Definition or_default (v : option string) (d : string) : string :=
  match v with
  | None => d
  | Some s => if Js.falsy s then d else s
  end.

End JsNumber.

(** One row of the [/grid] query. *)
Record GridRow : Type := mkGridRow
  { g_cell_id : Z; g_x : Z; g_y : Z; g_is_mask : bool; g_username : option string }.

Inductive Select : Type -> Type :=
| CountCells : Select Z
    (* SELECT COUNT( * ) FROM cells *)
| CountUsernames : Select Z
    (* SELECT COUNT( * ) FROM usernames *)
| CellOfUsername (u : string) : Select (list Z)
    (* SELECT cell_id FROM usernames WHERE username = u *)
| GridPage (limit offset : option Z) : Select (list GridRow).
    (* SELECT c.cell_id, c.x, c.y, c.is_mask, u.username
       FROM cells c LEFT JOIN usernames u ON c.cell_id = u.cell_id
       ORDER BY c.cell_id LIMIT limit OFFSET offset *)

(** [ORDER BY c.cell_id]: insertion before the first row that is not
    smaller.  Rows with equal [cell_id] come in an order the server
    chooses (here, the order of the table): what is stated about the
    order of the listing is stated for tables in which no two cells share
    a [cell_id] and no two claims share a cell, where the order is
    determined. *)
Fixpoint insert_by_id (c : Cell) (l : list Cell) : list Cell :=
  match l with
  | [] => [c]
  | d :: l' => if cell_id c <=? cell_id d then c :: l else d :: insert_by_id c l'
  end.

Definition order_by_id (l : list Cell) : list Cell := fold_right insert_by_id [] l.

Definition grid_row (c : Cell) (u : option string) : GridRow :=
  mkGridRow (cell_id c) (col_x c) (col_y c) (is_mask c) u.

(** [LEFT JOIN]: one row per matching claim, or one row with a null
    username when there is none. *)
Definition join_cell (us : list UsernameRow) (c : Cell) : list GridRow :=
  match filter (fun r => row_cell_id r =? cell_id c) us with
  | [] => [grid_row c None]
  | ms => map (fun r => grid_row c (Some (username r))) ms
  end.

Definition grid_rows (db : DB) : list GridRow :=
  flat_map (join_cell (usernames db)) (order_by_id (cells db)).

Definition max_bigint : Z := 9223372036854775807.

(** A [LIMIT] or [OFFSET] parameter the server accepts: a [bigint] that
    is not negative ([NaN] is not a [bigint]). *)
Definition page_bound (v : option Z) : option nat :=
  match v with
  | Some z => if (0 <=? z) && (z <=? max_bigint) then Some (Z.to_nat z) else None
  | None => None
  end.

(** The result of a statement on the committed tables; [None]: the
    server rejects it. *)
Definition select {R : Type} (q : Select R) (db : DB) : option R :=
  match q in Select R return option R with
  | CountCells => Some (Z.of_nat (length (cells db)))
  | CountUsernames => Some (Z.of_nat (length (usernames db)))
  | CellOfUsername u =>
      Some (map row_cell_id
                (filter (fun r => String.eqb (username r) u) (usernames db)))
  | GridPage limit offset =>
      match page_bound limit, page_bound offset with
      | Some l, Some o => Some (firstn l (skipn o (grid_rows db)))
      | _, _ => None
      end
  end.

(** [await pool.query(q)]; [up = false]: the statement fails whatever it
    is (the server cannot be reached). *)
Definition pool_query {R : Type} (up : bool) (q : Select R) (db : DB) : option R :=
  if up then select q db else None.

Inductive Reply : Type :=
| Running                                  (* "Backend is running" *)
| TestDb (total_cells : Z)                 (* { success: true, total_cells }: the
                                              count, sent as the decimal string pg
                                              returns for a bigint *)
| TestDbError                              (* 500 { success: false } *)
| Season (season limit : Z)                (* { season, limit } *)
| Grid (data : list GridRow)               (* { data } *)
| Found (cell : Z) (name : string)         (* { found: true, cell_id, username } *)
| NotFound                                 (* { found: false } *)
| SearchError                              (* 500 { found: false } *)
| Progress (filled_count : Z).             (* { filled } *)

Definition root_handler : Outcome Reply := Returned Running.

Definition test_db_handler (up : bool) (db : DB) : Outcome Reply :=
  match pool_query up CountCells db with
  | Some count => Returned (TestDb count)
  | None => Returned TestDbError                       (* catch *)
  end.

Definition season_handler : Outcome Reply := Returned (Season 1 SEASON_1_LIMIT).

(** [req.query.offset] and [req.query.limit], each given once or not at
    all.  The handler has no [try]: a rejected statement is thrown. *)
Definition grid_handler (q_offset q_limit : option string) (up : bool) (db : DB)
  : Outcome Reply :=
  let offset := JsNumber.parseInt (JsNumber.or_default q_offset "0") in
  let limit := JsNumber.parseInt (JsNumber.or_default q_limit "5000") in
  match pool_query up (GridPage limit offset) db with
  | Some rows => Returned (Grid rows)
  | None => Thrown
  end.

Definition search_handler (param : string) (up : bool) (db : DB) : Outcome Reply :=
  let username := Js.toLowerCase param in
  match pool_query up (CellOfUsername username) db with
  | Some [] => Returned NotFound
  | Some (cell :: _) => Returned (Found cell username)
  | None => Returned SearchError                       (* catch *)
  end.

Definition progress_handler (up : bool) (db : DB) : Outcome Reply :=
  match pool_query up CountUsernames db with
  | Some count => Returned (Progress count)             (* parseInt(count) *)
  | None => Thrown
  end.

(** ** Vocabulary of the further properties *)

From Stdlib Require Import Sorted.

(** A cell of the table before and after: only [filled] may differ, and
    only from false to true. *)
Definition cell_kept (c c' : Cell) : Prop :=
  cell_id c' = cell_id c /\ col_x c' = col_x c /\ col_y c' = col_y c
  /\ is_mask c' = is_mask c /\ (filled c = true -> filled c' = true).

(** A cell before and after the script: only [is_mask] may differ, only
    from false to true, and only where [hit] holds. *)
Definition mask_kept (hit : Z -> Z -> bool) (c c' : Cell) : Prop :=
  cell_id c' = cell_id c /\ col_x c' = col_x c /\ col_y c' = col_y c
  /\ filled c' = filled c
  /\ (is_mask c = true -> is_mask c' = true)
  /\ (is_mask c' = true -> is_mask c = true \/ hit (col_x c) (col_y c) = true).

(** The indices of the buffer, in the order the script reads them. *)
Definition pixel_indices : list Z :=
  flat_map (fun py => map (fun px => py * GRID_SIZE + px) (range GRID_SIZE))
           (range GRID_SIZE).

(** Every identifier of the ledger is non-empty and in normal form: it has
    no white space at either end and no upper-case letter. *)
Definition ledger_normal (db : DB) : Prop :=
  forall r, In r (usernames db) ->
    username r <> EmptyString /\ normalize (username r) = username r.

(** The claimant of the cell [id], if any. *)
Definition owner (db : DB) (id : Z) : option string :=
  option_map username (find (fun r => row_cell_id r =? id) (usernames db)).

(** The names of a list that are not the empty string. *)
Definition named (l : list string) : list string :=
  filter (fun u => negb (Js.falsy u)) l.

(** Distinct identifiers in normal form, none of them in the ledger. *)
Definition Ready (l : list string) (db : DB) : Prop :=
  NoDup l /\ forall u, In u l -> normalize u = u /\ has_username u db = false.

(** The tables after the candidates [l] have been processed on tables
    [v], one after the other, when no statement fails; [capped]: with the
    season check of [processUsernamesUpload]. *)
Fixpoint settle {P : Picker} (capped : bool) (l : list string) (v : DB) : DB :=
  match l with
  | [] => v
  | x :: l' =>
      if capped && (SEASON_1_LIMIT <=? claim_count v) then v
      else if Js.falsy (normalize x) || has_username (normalize x) v
      then settle capped l' v
      else match pick (filter (free_unlocked []) (cells v)) with
           | None => v
           | Some c => settle capped l' (allocate (normalize x) (cell_id c) v)
           end
  end.

(** A row of the [/grid] listing after the mask script has set the flag
    where [hit] holds. *)
Definition mask_row (hit : Z -> Z -> bool) (r : GridRow) : GridRow :=
  mkGridRow (g_cell_id r) (g_x r) (g_y r) (g_is_mask r || hit (g_x r) (g_y r))
            (g_username r).

(** A row of the [/grid] listing before and after the projection of the
    image. *)
Definition row_projected (data : list Z) (r r' : GridRow) : Prop :=
  g_cell_id r' = g_cell_id r /\ g_x r' = g_x r /\ g_y r' = g_y r
  /\ g_username r' = g_username r
  /\ (g_is_mask r' = true <-> g_is_mask r = true \/ projected data (g_x r) (g_y r)).

(** * Facts about the model *)

Section RunFacts.

Context {P : Picker}.

Lemma run_bind {A B : Type} (p : Prog A) (f : A -> Prog B) (w : World) :
  run (bind p f) w =
  match run p w with
  | (Returned a, w') => run (f a) w'
  | (Thrown, w') => (Thrown, w')
  end.
Proof.
  revert w. induction p as [a| |R q k IH]; intros w; simpl; try reflexivity.
  destruct (fault w) as [[|n]|].
  - apply IH.
  - destruct (exec q [] (database w) (session w)) as [[r db'] s']. apply IH.
  - destruct (exec q [] (database w) (session w)) as [[r db'] s']. apply IH.
Qed.

Lemma run_try_catch {A : Type} (p h : Prog A) (w : World) :
  run (try_catch p h) w =
  match run p w with
  | (Returned a, w') => (Returned a, w')
  | (Thrown, w') => run h w'
  end.
Proof.
  revert w. induction p as [a| |R q k IH]; intros w; simpl; try reflexivity.
  destruct (fault w) as [[|n]|].
  - apply IH.
  - destruct (exec q [] (database w) (session w)) as [[r db'] s']. apply IH.
  - destruct (exec q [] (database w) (session w)) as [[r db'] s']. apply IH.
Qed.

Lemma run_query {R : Type} (q : Sql R) (w : World) :
  run (query q) w =
  match fault w with
  | Some O => (Thrown, mkWorld None (database w) (session w))
  | f =>
      let '(r, db', s') := exec q [] (database w) (session w) in
      match r with
      | Some v => (Returned v, mkWorld (option_map Nat.pred f) db' s')
      | None => (Thrown, mkWorld (option_map Nat.pred f) db' s')
      end
  end.
Proof.
  unfold query; simpl.
  destruct (fault w) as [[|n]|]; try reflexivity;
    destruct (exec q [] (database w) (session w)) as [[[v|] db'] s']; reflexivity.
Qed.

Lemma for_of_app {X S : Type} (l1 l2 : list X) (body : X -> S -> Prog (Ctl * S))
  (s : S) (w : World) :
  run (for_of (l1 ++ l2) body s) w =
  match run (for_of l1 body s) w with
  | (Returned (Next, s'), w') => run (for_of l2 body s') w'
  | other => other
  end.
Proof.
  revert s w. induction l1 as [|x l1 IH]; intros s w; simpl.
  - reflexivity.
  - rewrite !run_bind.
    destruct (run (body x s) w) as [[[c s']|] w']; simpl; try reflexivity.
    destruct c; simpl; [apply IH | reflexivity].
Qed.

End RunFacts.

(** * The claims *)

(** ** C10: the admin gate *)

Lemma falsy_spec (s : string) : Js.falsy s = true <-> s = EmptyString.
Proof. destruct s; simpl; split; congruence. Qed.

(** C10. On each of the three admin routes the handler runs exactly when
    the [x-admin-secret] header is present, non-empty and equal to
    [ADMIN_SECRET]; every other request is answered 401 by a program that
    sends no statement (the tables and the connection are untouched), and
    with [ADMIN_SECRET] unset every request is rejected. *)
Theorem adminAuth_gate (P : Picker) (env : option string) (r : Route)
  (req : Request) (w : World) :
  route env r req = (if authorised env req then handler r req else Ret Unauthorized)
  /\ (authorised env req = true <->
      exists secret, x_admin_secret req = Some secret
                     /\ secret <> EmptyString /\ env = Some secret)
  /\ (if authorised env req then True
      else run (route env r req) w = (Returned Unauthorized, w)
           /\ status Unauthorized = 401)
  /\ route None r req = Ret Unauthorized.
Proof.
  assert (E : route env r req =
              if authorised env req then handler r req else Ret Unauthorized).
  { unfold route, adminAuth, authorised.
    destruct (x_admin_secret req) as [secret|]; [|reflexivity].
    destruct (Js.falsy secret); simpl; [destruct env; reflexivity|].
    destruct env as [expected|]; [|reflexivity].
    destruct (String.eqb secret expected); reflexivity. }
  split; [exact E|]. split; [|split].
  - unfold authorised. destruct (x_admin_secret req) as [secret|].
    + destruct env as [expected|].
      * rewrite andb_true_iff, negb_true_iff, String.eqb_eq. split.
        -- intros [Hf He]. exists secret. subst expected.
           repeat split; trivial. intros Hs. now rewrite Hs in Hf.
        -- intros (s & Hs & Hne & He). injection Hs as Hs. injection He as He.
           subst. split; [|reflexivity]. destruct s; [congruence|reflexivity].
      * split; [discriminate|]. intros (s & _ & _ & He). discriminate.
    + split; [discriminate|]. intros (s & Hs & _). discriminate.
  - rewrite E. destruct (authorised env req); [exact I|]. split; reflexivity.
  - unfold route, adminAuth. destruct (x_admin_secret req) as [secret|];
      [destruct (Js.falsy secret)|]; reflexivity.
Qed.

(** ** C7: the preview *)

Lemma includes_spec (l : list string) (s : string) :
  Js.includes l s = true <-> In s l.
Proof.
  unfold Js.includes. rewrite existsb_exists. split.
  - intros (t & Ht & E). apply String.eqb_eq in E. now subst.
  - intros H. exists s. split; [exact H|apply String.eqb_refl].
Qed.

Lemma has_username_spec (u : string) (db : DB) :
  has_username u db = true <-> In u (map username (usernames db)).
Proof.
  unfold has_username. rewrite existsb_exists, in_map_iff. split.
  - intros (r & Hr & E). apply String.eqb_eq in E. now exists r.
  - intros (r & E & Hr). exists r. split; [exact Hr|]. now apply String.eqb_eq.
Qed.

Lemma set_add_In (s : string) (acc : list string) (u : string) :
  In u (Js.set_add s acc) <-> u = s \/ In u acc.
Proof.
  induction acc as [|t acc IH]; simpl.
  - intuition congruence.
  - destruct (String.eqb_spec t s) as [->|Hne]; simpl.
    + intuition congruence.
    + rewrite IH. intuition congruence.
Qed.

Lemma set_add_NoDup (s : string) (acc : list string) :
  NoDup acc -> NoDup (Js.set_add s acc).
Proof.
  induction acc as [|t acc IH]; simpl; intros H.
  - constructor; [intros []|constructor].
  - destruct (String.eqb_spec t s) as [->|Hne]; [exact H|].
    inversion H as [|? ? Hnin Hnd]; subst. constructor; [|now apply IH].
    rewrite set_add_In. intros [E|Hin]; [now subst|contradiction].
Qed.

Lemma preview_fold_NoDup (rows : list (list string)) (acc : list string) :
  NoDup acc -> NoDup (fold_left preview_add rows acc).
Proof.
  revert acc. induction rows as [|row rows IH]; intros acc H; simpl; [exact H|].
  apply IH. destruct row as [|name rest]; simpl; [exact H|].
  destruct (Js.falsy name); [exact H|now apply set_add_NoDup].
Qed.

Lemma preview_fold_In (rows : list (list string)) (acc : list string) (u : string) :
  In u (fold_left preview_add rows acc) <->
  In u acc \/ exists name rest, In (name :: rest) rows
                                /\ name <> EmptyString /\ u = normalize name.
Proof.
  revert acc. induction rows as [|row rows IH]; intros acc; simpl.
  - split; [now left|]. intros [H|(n & r & [] & _)]. exact H.
  - rewrite IH. destruct row as [|name rest]; simpl.
    + split; (intros [H|(n & r & H & Hr)]; [now left|right; exists n, r]).
      * split; [now right|exact Hr].
      * destruct H as [H|H]; [discriminate|]. now split.
    + destruct (Js.falsy name) eqn:Hf.
      * apply falsy_spec in Hf. subst name.
        split; (intros [H|(n & r & H & Hne & Hr)]; [now left|right; exists n, r]).
        -- repeat split; trivial. now right.
        -- destruct H as [H|H]; [injection H as <- <-; congruence|].
           repeat split; trivial.
      * rewrite set_add_In. split.
        -- intros [[->|H]|(n & r & H & Hr)].
           ++ right. exists name, rest. repeat split; [now left|].
              intros ->. discriminate.
           ++ now left.
           ++ right. exists n, r. split; [now right|exact Hr].
        -- intros [H|(n & r & [H|H] & Hne & Hr)].
           ++ left. now right.
           ++ injection H as <- <-. left. now left.
           ++ right. exists n, r. repeat split; trivial.
Qed.

(** Two duplicate-free lists meet in as many elements seen from either
    side. *)
Lemma meet_length (l1 l2 : list string) :
  NoDup l1 -> NoDup l2 ->
  length (filter (Js.includes l2) l1) = length (filter (Js.includes l1) l2).
Proof.
  intros H1 H2. apply Permutation_length.
  apply NoDup_Permutation; try now apply NoDup_filter.
  intros u. rewrite !filter_In, !includes_spec. tauto.
Qed.

(** C7. The preview sends the single [SELECT username ... = ANY] statement
    (none when no identifier is left), so it changes neither table and
    takes no row lock; its list is the set of the normalised non-empty
    first columns, without duplicates, and it is split by membership in
    the ledger: [already_exists] counts the identifiers of the list that
    the ledger holds, [ready_to_insert] and [usernames] are those it does
    not hold. *)
Theorem preview_reads_and_partitions (P : Picker) (hdr : option string)
  (body : option (list Js.value)) (rows : list (list string))
  (f : option nat) (db : DB) :
  NoDup (map username (usernames db)) ->
  let names := preview_list rows in
  let known := filter (fun u => has_username u db) names in
  let fresh := filter (fun u => negb (has_username u db)) names in
  let '(o, w) := run (upload_preview_handler (mkRequest hdr body (Some rows)))
                     (mkWorld f db idle) in
  database w = db /\ session w = idle
  /\ o = match names, f with
         | [], _ => Returned PreviewEmpty
         | _, Some O => Thrown
         | _, _ => Returned (Preview (Z.of_nat (length names))
                                     (Z.of_nat (length known))
                                     (Z.of_nat (length fresh)) fresh)
         end
  /\ NoDup names
  /\ (forall u, In u names <->
                exists name rest, In (name :: rest) rows
                                  /\ name <> EmptyString /\ u = normalize name)
  /\ (forall u, In u names -> (In u known <-> In u (map username (usernames db)))
                              /\ (In u fresh <-> ~ In u (map username (usernames db))))
  /\ (length names = length known + length fresh)%nat.
Proof.
  intros Hnd. cbv zeta. unfold upload_preview_handler. cbn [file_rows].
  assert (Hnames : NoDup (preview_list rows))
    by (apply preview_fold_NoDup; constructor).
  assert (Hin : forall u, In u (preview_list rows) <->
                exists name rest, In (name :: rest) rows
                                  /\ name <> EmptyString /\ u = normalize name).
  { intros u. unfold preview_list. rewrite preview_fold_In. simpl. tauto. }
  remember (preview_list rows) as names eqn:En. clear En.
  set (known := filter (fun u => has_username u db) names).
  set (fresh := filter (fun u => negb (has_username u db)) names).
  assert (Hpart : forall u, In u names ->
             (In u known <-> In u (map username (usernames db)))
             /\ (In u fresh <-> ~ In u (map username (usernames db)))).
  { intros u Hu. unfold known, fresh. rewrite !filter_In, negb_true_iff.
    rewrite <- has_username_spec. destruct (has_username u db); intuition congruence. }
  assert (Hlen : (length names = length known + length fresh)%nat).
  { unfold known, fresh. clear. induction names as [|u l IH]; simpl; [reflexivity|].
    destruct (has_username u db); simpl; lia. }
  assert (Efresh : filter (fun u => negb (Js.includes
             (filter (Js.includes names) (map username (usernames db))) u)) names
           = fresh).
  { unfold fresh. apply filter_ext_in. intros u Hu. f_equal.
    apply eq_true_iff_eq. rewrite includes_spec, filter_In, includes_spec,
      has_username_spec. tauto. }
  assert (Eknown : length (filter (Js.includes names) (map username (usernames db)))
                   = length known).
  { rewrite <- meet_length by assumption. unfold known. f_equal.
    apply filter_ext. intros u. apply eq_true_iff_eq.
    now rewrite includes_spec, has_username_spec. }
  destruct names as [|n0 names0].
  - simpl. repeat split; trivial; apply Hin || apply Hpart; trivial.
  - cbv iota. set (names := n0 :: names0) in *.
    rewrite run_bind, run_query. cbn [fault database session exec].
    change (view db idle) with db.
    destruct f as [[|k]|]; cbn [run option_map database session];
      rewrite ?Efresh, ?Eknown;
      repeat split; trivial; apply Hin || apply Hpart; trivial.
Qed.

(** ** C8: the mask projection *)

Lemma mask_where_compose (h1 h2 : Z -> Z -> bool) (c : Cell) :
  mask_where h2 (mask_where h1 c) = mask_where (fun a b => h1 a b || h2 a b) c.
Proof.
  unfold mask_where.
  destruct (h1 (col_x c) (col_y c)) eqn:E1; simpl;
    destruct (h2 (col_x c) (col_y c)) eqn:E2; simpl; rewrite ?E1; reflexivity.
Qed.

Lemma mask_db_compose (h1 h2 : Z -> Z -> bool) (db : DB) :
  mask_db h2 (mask_db h1 db) = mask_db (fun a b => h1 a b || h2 a b) db.
Proof.
  unfold mask_db; simpl. f_equal. rewrite map_map.
  apply map_ext. intros c. apply mask_where_compose.
Qed.

Lemma mask_db_ext (h1 h2 : Z -> Z -> bool) (db : DB) :
  (forall a b, h1 a b = h2 a b) -> mask_db h1 db = mask_db h2 db.
Proof.
  intros H. unfold mask_db. f_equal. apply map_ext. intros c.
  unfold mask_where. now rewrite H.
Qed.

Lemma mask_db_none (db : DB) : mask_db (fun _ _ => false) db = db.
Proof.
  destruct db as [cs us]. unfold mask_db; simpl. f_equal.
  rewrite <- (map_id cs) at 2. apply map_ext. reflexivity.
Qed.

Lemma mask_cell_where (px py : Z) (c : Cell) :
  mask_cell px py c = mask_where (fun a b => (a =? px) && (b =? py)) c.
Proof. reflexivity. Qed.

Lemma range_from_In (start : Z) (n : nat) (z : Z) :
  In z (range_from start n) <-> start <= z < start + Z.of_nat n.
Proof.
  revert start. induction n as [|n IH]; intros start; simpl range_from.
  - simpl. lia.
  - simpl In. rewrite IH. lia.
Qed.

Lemma range_In (n z : Z) : In z (range n) <-> 0 <= z < n.
Proof. unfold range. rewrite range_from_In. lia. Qed.

Section MaskFacts.

Context {P : Picker}.
Variable data : list Z.

Lemma run_pixels (py : Z) (xs : list Z) (count : Z) (db : DB) :
  exists count',
    run (for_of xs (applyMask_pixel data py) count) (mkWorld None db idle)
    = (Returned (Next, count'),
       mkWorld None (mask_db (row_hits data xs py) db) idle).
Proof.
  revert count db. induction xs as [|px xs IH]; intros count db.
  - exists count. simpl. now rewrite mask_db_none.
  - cbn [for_of]. rewrite run_bind. unfold applyMask_pixel at 1.
    destruct (dark data (py * GRID_SIZE + px)) eqn:Ed.
    + rewrite run_bind, run_query. cbn [fault database session exec do_write idle in_txn].
      cbn [run fst snd option_map].
      destruct (IH (count + 1)
                  (apply_write (WMask (px + 1) (GRID_SIZE - py)) db)) as [c' E].
      exists c'. rewrite E. do 2 f_equal.
      change (apply_write (WMask (px + 1) (GRID_SIZE - py)) db)
        with (mask_db (fun a b => (a =? px + 1) && (b =? GRID_SIZE - py)) db).
      rewrite mask_db_compose. apply mask_db_ext. intros a b.
      unfold row_hits. cbn [existsb]. unfold pixel_hits. rewrite Ed.
      reflexivity.
    + cbn [run fst snd]. destruct (IH count db) as [c' E].
      exists c'. rewrite E. do 2 f_equal. apply mask_db_ext. intros a b.
      unfold row_hits. cbn [existsb]. unfold pixel_hits. now rewrite Ed.
Qed.

Lemma run_rows (ys : list Z) (count : Z) (db : DB) :
  exists count',
    run (for_of ys (applyMask_row data) count) (mkWorld None db idle)
    = (Returned (Next, count'),
       mkWorld None
         (mask_db (fun a b => existsb (fun py => row_hits data (range GRID_SIZE) py a b) ys)
                  db) idle).
Proof.
  revert count db. induction ys as [|py ys IH]; intros count db.
  - exists count. simpl. now rewrite mask_db_none.
  - cbn [for_of]. rewrite run_bind. unfold applyMask_row at 1.
    destruct (run_pixels py (range GRID_SIZE) count db) as [c1 E1].
    rewrite E1. cbn [fst snd].
    destruct (IH c1 (mask_db (row_hits data (range GRID_SIZE) py) db)) as [c' E].
    exists c'. rewrite E. do 2 f_equal.
    rewrite mask_db_compose. apply mask_db_ext. reflexivity.
Qed.

Lemma grid_hits (a b : Z) :
  existsb (fun py => row_hits data (range GRID_SIZE) py a b) (range GRID_SIZE)
  = masked_by data a b.
Proof.
  apply eq_true_iff_eq. unfold masked_by, in_grid, row_hits, pixel_hits.
  rewrite existsb_exists. split.
  - intros (py & Hy & H). apply existsb_exists in H. destruct H as (px & Hx & H).
    apply range_In in Hy, Hx.
    rewrite !andb_true_iff, !Z.eqb_eq in H. destruct H as (Hd & -> & ->).
    rewrite !andb_true_iff, !Z.leb_le.
    replace (GRID_SIZE - (GRID_SIZE - py)) with py by lia.
    replace (px + 1 - 1) with px by lia.
    repeat split; trivial; lia.
  - rewrite !andb_true_iff, !Z.leb_le. intros ((((H1 & H2) & H3) & H4) & Hd).
    exists (GRID_SIZE - b). split; [apply range_In; lia|].
    apply existsb_exists. exists (a - 1). split; [apply range_In; lia|].
    rewrite Hd. cbn [andb]. rewrite andb_true_iff, !Z.eqb_eq. lia.
Qed.

End MaskFacts.

Lemma dark_spec (data : list Z) (idx : Z) :
  dark data idx = true
  <-> exists brightness,
        nth_error data (Z.to_nat idx) = Some brightness /\ brightness < THRESHOLD.
Proof.
  unfold dark. destruct (nth_error data (Z.to_nat idx)) as [b|].
  - rewrite Z.ltb_lt. split.
    + intros H. now exists b.
    + intros (b' & E & H). now injection E as ->.
  - split; [discriminate|]. intros (b' & E & _). discriminate.
Qed.

Lemma masked_by_spec (data : list Z) (cx cy : Z) :
  masked_by data cx cy = true <-> projected data cx cy.
Proof.
  unfold masked_by, in_grid, projected, dark_pixel.
  rewrite !andb_true_iff, !Z.leb_le, dark_spec. split.
  - intros ((((H1 & H2) & H3) & H4) & Hd).
    exists (cx - 1), (GRID_SIZE - cy). repeat split; trivial; lia.
  - intros (px & py & Hx & Hy & -> & -> & Hd).
    replace (GRID_SIZE - (GRID_SIZE - py)) with py by lia.
    replace (px + 1 - 1) with px by lia.
    repeat split; trivial; lia.
Qed.

Lemma mask_db_projected (data : list Z) (db : DB) :
  Forall2 (cell_projected data) (cells db) (cells (mask_db (masked_by data) db)).
Proof.
  unfold mask_db. cbn [cells]. induction (cells db) as [|c l IH]; constructor; trivial.
  unfold cell_projected, mask_where. rewrite <- masked_by_spec.
  destruct (masked_by data (col_x c) (col_y c)); cbn [cell_id col_x col_y filled is_mask];
    repeat split; trivial; try tauto.
  intros [H|H]; [exact H|discriminate].
Qed.

Lemma all_dark (data : list Z) (idx : Z) :
  GRID_SIZE * GRID_SIZE <= Z.of_nat (length data) ->
  (forall b, In b data -> b < THRESHOLD) ->
  0 <= idx < GRID_SIZE * GRID_SIZE -> dark data idx = true.
Proof.
  intros Hlen Hb Hidx. apply dark_spec.
  destruct (nth_error data (Z.to_nat idx)) as [b|] eqn:E.
  - exists b. split; [reflexivity|]. apply Hb. eapply nth_error_In, E.
  - apply nth_error_None in E. lia.
Qed.

Lemma none_dark (data : list Z) (idx : Z) :
  (forall b, In b data -> THRESHOLD <= b) -> dark data idx = false.
Proof.
  intros Hb. destruct (dark data idx) eqn:E; [|reflexivity].
  apply dark_spec in E. destruct E as (b & E & Hlt).
  apply nth_error_In in E. apply Hb in E. lia.
Qed.

(** C8. A run of the script to its end sets [is_mask] on exactly the cells
    [(px + 1, GRID_SIZE - py)] of the pixels [(px, py)] whose brightness,
    the value of the buffer at [py * GRID_SIZE + px], is below
    [THRESHOLD]; every cell keeps its id, its coordinates and [filled], a
    flag that was set stays set, and the claims are untouched.  So a
    bitmap that is dark everywhere masks every cell of the grid, and a
    bitmap with no value below the threshold changes no row. *)
Theorem applyMask_projection (P : Picker) (data : list Z) (db : DB) :
  let '(o, w) := run (applyMask data) (mkWorld None db idle) in
  (exists count, o = Returned count)
  /\ session w = idle
  /\ usernames (database w) = usernames db
  /\ Forall2 (cell_projected data) (cells db) (cells (database w))
  /\ (GRID_SIZE * GRID_SIZE <= Z.of_nat (length data) ->
      (forall b, In b data -> b < THRESHOLD) ->
      forall c, In c (cells (database w)) ->
                1 <= col_x c <= GRID_SIZE -> 1 <= col_y c <= GRID_SIZE ->
                is_mask c = true)
  /\ ((forall b, In b data -> THRESHOLD <= b) -> database w = db).
Proof.
  unfold applyMask. rewrite run_bind.
  destruct (run_rows data (range GRID_SIZE) 0 db) as [count E]. rewrite E.
  cbn [run snd session database].
  assert (Edb : mask_db (fun a b => existsb
                  (fun py => row_hits data (range GRID_SIZE) py a b) (range GRID_SIZE)) db
                = mask_db (masked_by data) db)
    by (apply mask_db_ext; intros a b; apply grid_hits).
  rewrite Edb. split; [now exists count|]. split; [reflexivity|].
  split; [reflexivity|]. split; [apply mask_db_projected|]. split.
  - intros Hlen Hblack c Hc Hx Hy. unfold mask_db in Hc. cbn [cells] in Hc.
    apply in_map_iff in Hc. destruct Hc as (c0 & <- & Hc0).
    unfold mask_where in *.
    destruct (masked_by data (col_x c0) (col_y c0)) eqn:Em; [reflexivity|].
    exfalso. cbn [col_x col_y] in Hx, Hy. unfold masked_by, in_grid in Em.
    rewrite (all_dark data _ Hlen Hblack) in Em by (unfold GRID_SIZE in *; lia).
    rewrite andb_true_r, !andb_false_iff, !Z.leb_gt in Em. lia.
  - intros Hwhite. rewrite <- (mask_db_none db) at 2. apply mask_db_ext.
    intros a b. unfold masked_by. now rewrite (none_dark data _ Hwhite), andb_false_r.
Qed.

(** ** The allocation loops, one candidate at a time *)

Section LoopFacts.

Context {P : Picker}.

Lemma run_query_cases {R : Type} (q : Sql R) (f : option nat) (db : DB) (s : Session) :
  (f = Some O /\ run (query q) (mkWorld f db s) = (Thrown, mkWorld None db s))
  \/ (f <> Some O
      /\ run (query q) (mkWorld f db s)
         = (match fst (fst (exec q [] db s)) with
            | Some v => Returned v
            | None => Thrown
            end,
            mkWorld (option_map Nat.pred f) (snd (fst (exec q [] db s)))
                    (snd (exec q [] db s)))).
Proof.
  rewrite run_query. cbn [fault database session].
  destruct f as [[|n]|].
  - left. split; reflexivity.
  - right. split; [discriminate|].
    destruct (exec q [] db s) as [[[v|] db'] s']; reflexivity.
  - right. split; [discriminate|].
    destruct (exec q [] db s) as [[[v|] db'] s']; reflexivity.
Qed.

Lemma exists_positive (u : string) (db : DB) :
  (0 <? Z.of_nat (length (filter (fun r => String.eqb (username r) u) (usernames db))))
  = has_username u db.
Proof.
  unfold has_username. induction (usernames db) as [|r l IH]; simpl; [reflexivity|].
  destruct (String.eqb (username r) u); simpl; [|exact IH].
  apply Z.ltb_lt. lia.
Qed.

Lemma pick_free_some (cs : list Cell) (c : Cell) :
  pick (filter (free_unlocked []) cs) = Some c -> In c cs /\ filled c = false.
Proof.
  intros H. apply pick_In in H. apply filter_In in H. destruct H as [Hin Hf].
  split; [exact Hin|]. unfold free_unlocked in Hf. simpl in Hf.
  destruct (filled c); [discriminate|reflexivity].
Qed.

Lemma pick_free_none (db : DB) :
  pick (filter (free_unlocked []) (cells db)) = None -> no_free db.
Proof.
  intros H c Hc. apply pick_nil in H.
  destruct (filled c) eqn:Ef; [reflexivity|].
  assert (Hin : In c (filter (free_unlocked []) (cells db))).
  { apply filter_In. split; [exact Hc|]. unfold free_unlocked. now rewrite Ef. }
  rewrite H in Hin. destruct Hin.
Qed.

Lemma view_snoc (db : DB) (ws : list Write) (w : Write) (b : bool) (l l' : list Z) :
  view db (mkSession b (ws ++ [w]) l) = apply_write w (view db (mkSession b ws l')).
Proof. unfold view, apply_writes; simpl. now rewrite fold_left_app. Qed.

Ltac ask Hf :=
  rewrite run_bind;
  match goal with
  | |- context [run (query ?q) (mkWorld ?f ?db ?s)] =>
      let E := fresh "E" in
      destruct (run_query_cases q f db s) as [[Hf E]|[Hf E]]; rewrite E; clear E;
      [ cbv beta iota
      | cbn [exec fst snd view apply_writes fold_left writes in_txn locks idle
             lock_row do_write violates_unique] ]
  end.

(* the failure still to come, after one more statement *)
Ltac age f0 H Hnew fnew :=
  match goal with
  | |- context [mkWorld (option_map Nat.pred ?f) _ _] =>
      assert (Hnew : f0 = None -> option_map Nat.pred f = None)
        by (let E := fresh in intros E; now rewrite ?(H E), ?E);
      revert Hnew; generalize (option_map Nat.pred f) as fnew; intros fnew Hnew
  end.

Lemma upload_body_spec (x : Js.value) (t : Z * Z) (f : option nat) (db : DB) :
  let '(o, w') := run (upload_body x t) (mkWorld f db idle) in
  (match o with
   | Thrown => database w' = db
   | Returned (c, t') =>
       session w' = idle /\
       ((c = Next /\ t' = (fst t, snd t + 1) /\ fate Skipped x db (database w'))
        \/ (c = Break /\ t' = t /\ fate GridFull x db (database w'))
        \/ (c = Next /\ t' = (fst t + 1, snd t) /\ fate Claimed x db (database w')))
   end)
  /\ (f = None -> fault w' = None /\ (o = Thrown -> x = Js.NotStr)).
Proof.
  unfold upload_body. destruct x as [s|].
  2:{ cbn. split; [reflexivity|]. intros ->. split; reflexivity. }
  cbv zeta. destruct (Js.falsy (normalize s)) eqn:Ef.
  { apply falsy_spec in Ef. cbn [run database session fault]. split.
    - split; [reflexivity|]. left. repeat split. exists s. split; [reflexivity|now left].
    - intros ->. split; [reflexivity|discriminate]. }
  assert (Hne : normalize s <> EmptyString).
  { intros E. rewrite E in Ef. discriminate. }
  ask Hf.
  { cbn. split; [reflexivity|]. intros ->. discriminate. }
  rewrite exists_positive.
  destruct (has_username (normalize s) db) eqn:Hex.
  { cbn [run database session fault]. split.
    - split; [reflexivity|]. left. repeat split. exists s. split; [reflexivity|now right].
    - intros ->. split; [reflexivity|discriminate]. }
  assert (H0 : f = None -> f = None) by trivial.
  age f H0 H1 f1. ask Hf1.
  { cbn. split; [reflexivity|]. intros E. rewrite (H1 E) in Hf1. discriminate. }
  destruct (pick (filter (free_unlocked []) (cells db))) as [cell|] eqn:Ep.
  2:{ apply pick_free_none in Ep. cbn [run fst snd database session fault]. split.
      - split; [reflexivity|]. right. left. repeat split; trivial.
        exists s. repeat split; trivial.
      - intros E. rewrite (H1 E). split; [reflexivity|discriminate]. }
  apply pick_free_some in Ep. destruct Ep as [Hin Hfree].
  cbn [fst snd].
  age f H1 H2 f2. ask Hf2.
  { cbn. split; [reflexivity|]. intros E. rewrite (H2 E) in Hf2. discriminate. }
  age f H2 H3 f3. ask Hf3.
  { cbn. split; [reflexivity|]. intros E. rewrite (H3 E) in Hf3. discriminate. }
  unfold violates_unique. rewrite Hex. cbn [fst snd in_txn writes locks].
  age f H3 H4 f4. ask Hf4.
  { cbn. split; [reflexivity|]. intros E. rewrite (H4 E) in Hf4. discriminate. }
  age f H4 H5 f5. ask Hf5.
  { cbn. split; [reflexivity|]. intros E. rewrite (H5 E) in Hf5. discriminate. }
  cbn [run database session fault]. split.
  - split; [reflexivity|]. right. right. repeat split.
    exists s, cell. repeat split; trivial.
  - intros E. rewrite (H5 E). split; [reflexivity|discriminate].
Qed.

Lemma apply_writes_alloc (ws : list Write) (u : string) (c : Z) (db : DB) :
  apply_writes ((ws ++ [WInsert u c]) ++ [WFill c]) db = allocate u c (apply_writes ws db).
Proof. unfold apply_writes, allocate. now rewrite !fold_left_app. Qed.

Ltac ask' Hf :=
  rewrite run_bind;
  match goal with
  | |- context [run (query ?q) (mkWorld ?f ?db ?s)] =>
      let E := fresh "E" in
      destruct (run_query_cases q f db s) as [[Hf E]|[Hf E]]; rewrite E; clear E;
      [ cbv beta iota
      | cbn [exec fst snd writes in_txn locks lock_row do_write violates_unique] ]
  end.

Lemma confirm_body_spec (x : Js.value) (t : Tally) (f : option nat) (db : DB)
  (s : Session) :
  in_txn s = true ->
  let '(o, w') := run (processUsernamesUpload_body x t) (mkWorld f db s) in
  database w' = db
  /\ (match o with
      | Thrown => True
      | Returned (c, t') =>
          in_txn (session w') = true /\
          ((c = Break /\ t' = t /\ SEASON_1_LIMIT <= currentCount t
            /\ view db (session w') = view db s)
           \/ (currentCount t < SEASON_1_LIMIT /\
               ((c = Next
                 /\ t' = mkTally (added t) (skipped t + 1) (currentCount t)
                 /\ fate Skipped x (view db s) (view db (session w')))
                \/ (c = Break /\ t' = t
                    /\ fate GridFull x (view db s) (view db (session w')))
                \/ (c = Next
                    /\ t' = mkTally (added t + 1) (skipped t) (currentCount t + 1)
                    /\ fate Claimed x (view db s) (view db (session w'))))))
      end)
  /\ (f = None -> fault w' = None
                  /\ (o = Thrown -> x = Js.NotStr /\ currentCount t < SEASON_1_LIMIT)).
Proof.
  intros Ht. destruct s as [b ws lk]. cbn in Ht. subst b.
  unfold processUsernamesUpload_body.
  destruct (SEASON_1_LIMIT <=? currentCount t) eqn:El.
  { apply Z.leb_le in El. cbn [run database session fault in_txn].
    split; [reflexivity|]. split.
    - split; [reflexivity|]. left. repeat split; trivial.
    - intros ->. split; [reflexivity|discriminate]. }
  apply Z.leb_gt in El.
  destruct x as [s|].
  2:{ cbn. split; [reflexivity|]. split; [exact I|]. intros ->. repeat split; trivial. }
  cbv zeta. destruct (Js.falsy (normalize s)) eqn:Ef.
  { apply falsy_spec in Ef. cbn [run database session fault in_txn].
    split; [reflexivity|]. split.
    - split; [reflexivity|]. right. split; [exact El|]. left. repeat split.
      exists s. split; [reflexivity|now left].
    - intros ->. split; [reflexivity|discriminate]. }
  assert (Hne : normalize s <> EmptyString).
  { intros E. rewrite E in Ef. discriminate. }
  ask' Hf.
  { cbn. split; [reflexivity|]. split; [exact I|]. intros E. rewrite E in Hf. discriminate. }
  rewrite exists_positive.
  set (v := view db {| in_txn := true; writes := ws; locks := lk |}).
  destruct (has_username (normalize s) v) eqn:Hex.
  { cbn [run database session fault in_txn]. split; [reflexivity|]. split.
    - split; [reflexivity|]. right. split; [exact El|]. left. repeat split.
      exists s. split; [reflexivity|now right].
    - intros ->. split; [reflexivity|discriminate]. }
  assert (H0 : f = None -> f = None) by trivial.
  age f H0 H1 f1. ask' Hf1.
  { cbn. split; [reflexivity|]. split; [exact I|]. intros E. rewrite (H1 E) in Hf1. discriminate. }
  fold v.
  destruct (pick (filter (free_unlocked []) (cells v))) as [cell|] eqn:Ep.
  2:{ apply pick_free_none in Ep. cbn [run fst snd database session fault in_txn].
      split; [reflexivity|]. split.
      - split; [reflexivity|]. right. split; [exact El|]. right. left.
        repeat split; trivial. exists s. repeat split; trivial.
      - intros E. rewrite (H1 E). split; [reflexivity|discriminate]. }
  apply pick_free_some in Ep. destruct Ep as [Hin Hfree].
  cbn [fst snd].
  age f H1 H2 f2. ask' Hf2.
  { cbn. split; [reflexivity|]. split; [exact I|]. intros E. rewrite (H2 E) in Hf2. discriminate. }
  change (view db {| in_txn := true; writes := ws; locks := cell_id cell :: lk |})
    with v.
  unfold violates_unique. rewrite Hex. cbn [fst snd in_txn writes locks].
  age f H2 H3 f3. ask' Hf3.
  { cbn. split; [reflexivity|]. split; [exact I|]. intros E. rewrite (H3 E) in Hf3. discriminate. }
  cbn [run database session fault in_txn]. split; [reflexivity|]. split.
  - split; [reflexivity|]. right. split; [exact El|]. right. right. repeat split.
    exists s, cell. repeat split; trivial.
    unfold view; cbn [writes]. apply apply_writes_alloc.
  - intros E. rewrite (H3 E). split; [reflexivity|discriminate].
Qed.

End LoopFacts.

(** ** Tables reachable by allocations *)

Lemma grows_trans (a b c : DB) : grows a b -> grows b c -> grows a c.
Proof.
  intros Hab Hbc. induction Hbc as [|c u cell Hbc IH Hu Hin Hf]; [exact Hab|].
  now apply grows_step.
Qed.

Lemma fate_grows (k : Fate) (x : Js.value) (v v' : DB) :
  fate k x v v' -> grows v v'.
Proof.
  destruct k; simpl.
  - intros [-> _]. constructor.
  - intros [-> _]. constructor.
  - intros (s & cell & _ & _ & Hu & Hin & Hf & ->).
    apply grows_step; trivial. constructor.
Qed.

Lemma fill_cell_id (c : Z) (r : Cell) : cell_id (fill_cell c r) = cell_id r.
Proof. unfold fill_cell. destruct (cell_id r =? c); reflexivity. Qed.

Lemma allocate_cells (u : string) (c : Z) (db : DB) :
  cells (allocate u c db) = map (fill_cell c) (cells db).
Proof. reflexivity. Qed.

Lemma allocate_usernames (u : string) (c : Z) (db : DB) :
  usernames (allocate u c db) = usernames db ++ [mkRow u c].
Proof. reflexivity. Qed.

Lemma allocate_cell_ids (u : string) (c : Z) (db : DB) :
  map cell_id (cells (allocate u c db)) = map cell_id (cells db).
Proof.
  rewrite allocate_cells, map_map. apply map_ext. intros r. apply fill_cell_id.
Qed.

Lemma NoDup_snoc {A : Type} (l : list A) (a : A) :
  NoDup l -> ~ In a l -> NoDup (l ++ [a]).
Proof.
  intros Hl Ha. apply NoDup_app; trivial.
  - constructor; [intros []|constructor].
  - intros x Hx [<-|[]]. contradiction.
Qed.

Lemma unique_cell (db : DB) (c1 c2 : Cell) :
  NoDup (map cell_id (cells db)) ->
  In c1 (cells db) -> In c2 (cells db) -> cell_id c1 = cell_id c2 -> c1 = c2.
Proof.
  induction (cells db) as [|c l IH]; simpl; intros Hnd H1 H2 E; [contradiction|].
  inversion Hnd as [|? ? Hnin Hnd']; subst.
  destruct H1 as [<-|H1], H2 as [<-|H2]; trivial.
  - exfalso. apply Hnin. rewrite E. now apply in_map.
  - exfalso. apply Hnin. rewrite <- E. now apply in_map.
  - now apply IH.
Qed.

Lemma allocate_consistent (u : string) (cell : Cell) (db : DB) :
  Consistent db -> has_username u db = false ->
  In cell (cells db) -> filled cell = false ->
  Consistent (allocate u (cell_id cell) db).
Proof.
  intros [Hc Hu Hr Hcf Hfc] Hfresh Hin Hfree.
  assert (Hunclaimed : ~ In (cell_id cell) (map row_cell_id (usernames db))).
  { intros H. apply in_map_iff in H. destruct H as (r & E & Hr').
    destruct (Hcf r Hr') as (c & Hcin & Hid & Hfilled).
    assert (c = cell) by (apply (unique_cell db); congruence).
    subst c. congruence. }
  constructor.
  - now rewrite allocate_cell_ids.
  - rewrite allocate_usernames, map_app. apply NoDup_snoc; trivial.
    simpl. rewrite <- has_username_spec. congruence.
  - rewrite allocate_usernames, map_app. now apply NoDup_snoc.
  - intros r Hr'. rewrite allocate_usernames in Hr'. rewrite allocate_cells.
    apply in_app_iff in Hr'. destruct Hr' as [Hr'|[<-|[]]].
    + destruct (Hcf r Hr') as (c & Hcin & Hid & Hfilled).
      exists (fill_cell (cell_id cell) c). split; [now apply in_map|].
      rewrite fill_cell_id. split; [exact Hid|].
      unfold fill_cell. destruct (cell_id c =? cell_id cell); trivial.
    + exists (fill_cell (cell_id cell) cell). split; [now apply in_map|].
      rewrite fill_cell_id. split; [reflexivity|].
      unfold fill_cell. now rewrite Z.eqb_refl.
  - intros c Hcin Hfilled. rewrite allocate_cells in Hcin.
    apply in_map_iff in Hcin. destruct Hcin as (c0 & <- & Hc0).
    rewrite fill_cell_id, allocate_usernames, map_app, in_app_iff.
    unfold fill_cell in Hfilled.
    destruct (Z.eqb_spec (cell_id c0) (cell_id cell)) as [E|E].
    + right. simpl. left. congruence.
    + left. now apply Hfc.
Qed.

Lemma grows_consistent (db db' : DB) :
  Consistent db -> grows db db' -> Consistent db'.
Proof.
  intros H Hg. induction Hg as [|db' u cell Hg IH Hu Hin Hf]; [exact H|].
  now apply allocate_consistent.
Qed.

(** Allocations only add claims, at the end, and only fill cells. *)
Lemma grows_usernames (db db' : DB) :
  grows db db' -> exists rows, usernames db' = usernames db ++ rows.
Proof.
  intros Hg. induction Hg as [|db' u cell Hg [rows E] Hu Hin Hf].
  - exists []. now rewrite app_nil_r.
  - exists (rows ++ [mkRow u (cell_id cell)]).
    now rewrite allocate_usernames, E, app_assoc.
Qed.

Lemma grows_filled (db db' : DB) (c : Cell) :
  grows db db' -> In c (cells db) -> filled c = true ->
  exists c', In c' (cells db') /\ cell_id c' = cell_id c /\ filled c' = true.
Proof.
  intros Hg Hc Hf. induction Hg as [|db' u cell Hg (c' & Hin' & Hid & Hf') Hu Hin Hfree].
  - now exists c.
  - exists (fill_cell (cell_id cell) c'). rewrite allocate_cells.
    split; [now apply in_map|]. rewrite fill_cell_id. split; [exact Hid|].
    unfold fill_cell. destruct (cell_id c' =? cell_id cell); trivial.
Qed.

Section HandlerFacts.

Context {P : Picker}.

Lemma upload_loop_grows (l : list Js.value) (t : Z * Z) (f : option nat) (db : DB) :
  let '(o, w') := run (for_of l upload_body t) (mkWorld f db idle) in
  grows db (database w')
  /\ (forall r, o = Returned r -> session w' = idle)
  /\ (f = None -> fault w' = None).
Proof.
  revert t f db. induction l as [|x l IH]; intros t f db.
  - cbn. repeat split; trivial. constructor.
  - cbn [for_of]. rewrite run_bind.
    pose proof (upload_body_spec x t f db) as Hb.
    destruct (run (upload_body x t) (mkWorld f db idle)) as [[[c t']|] w'].
    + destruct Hb as [[Hs Hcases] Hf]. destruct w' as [f' db' s']. cbn in Hs. subst s'.
      cbn [database fault] in *.
      assert (Hg : grows db db').
      { destruct Hcases as [(_ & _ & H)|[(_ & _ & H)|(_ & _ & H)]];
          now apply fate_grows in H. }
      cbn [fst snd]. destruct c.
      * specialize (IH t' f' db').
        destruct (run (for_of l upload_body t') (mkWorld f' db' idle)) as [o w''].
        destruct IH as (Hg' & Hs' & Hf'). repeat split; trivial.
        -- eapply grows_trans; eassumption.
        -- intros E. apply Hf'. now apply Hf.
      * cbn. repeat split; trivial. intros E. now apply Hf.
    + destruct Hb as [Hdb Hf]. rewrite Hdb. repeat split.
      * constructor.
      * discriminate.
      * intros E. now apply Hf.
Qed.

(** After a rejection the handlers send [ROLLBACK]: the committed tables
    stay as they were at that point. *)
Lemma run_rollback (w : World) :
  database (snd (run (query Rollback ;; Ret ServerError) w)) = database w.
Proof.
  rewrite run_bind. destruct w as [f db s].
  destruct (run_query_cases Rollback f db s) as [[_ E]|[_ E]]; rewrite E; reflexivity.
Qed.

Lemma upload_handler_grows (req : Request) (f : option nat) (db : DB) :
  grows db (snd (serve (upload_handler req) f db)).
Proof.
  unfold serve, upload_handler.
  destruct (body_usernames req) as [[|x l]|]; try (cbn; constructor).
  rewrite run_try_catch, run_bind.
  pose proof (upload_loop_grows (x :: l) (0, 0) f db) as H.
  destruct (run (for_of (x :: l) upload_body (0, 0)) (mkWorld f db idle)) as [[r|] w'];
    destruct H as (Hg & _ & _).
  - cbn. exact Hg.
  - pose proof (run_rollback w') as E.
    destruct (run (query Rollback;; Ret ServerError) w') as [o w'']. cbn in *.
    now rewrite E.
Qed.

Lemma confirm_loop_grows (l : list Js.value) (t : Tally) (f : option nat) (db : DB)
  (s : Session) :
  in_txn s = true ->
  let '(o, w') := run (for_of l processUsernamesUpload_body t) (mkWorld f db s) in
  database w' = db
  /\ (forall r, o = Returned r ->
        in_txn (session w') = true /\ grows (view db s) (view db (session w')))
  /\ (f = None -> fault w' = None).
Proof.
  revert t f s. induction l as [|x l IH]; intros t f s Ht.
  - cbn. repeat split; trivial. constructor.
  - cbn [for_of]. rewrite run_bind.
    pose proof (confirm_body_spec x t f db s Ht) as Hb.
    destruct (run (processUsernamesUpload_body x t) (mkWorld f db s)) as [[[c t']|] w'].
    + destruct Hb as (Hdb & [Hs Hcases] & Hf). destruct w' as [f' db' s'].
      cbn [database fault session] in *. subst db'.
      assert (Hg : grows (view db s) (view db s')).
      { destruct Hcases as [(_ & _ & _ & ->)|(_ & [(_ & _ & H)|[(_ & _ & H)|(_ & _ & H)]])];
          [constructor|now apply fate_grows in H..]. }
      cbn [fst snd]. destruct c.
      * specialize (IH t' f' s' Hs).
        destruct (run (for_of l processUsernamesUpload_body t') (mkWorld f' db s'))
          as [o w''].
        destruct IH as (Hdb' & Hr' & Hf'). repeat split; trivial.
        -- now apply Hr' in H.
        -- apply Hr' in H. destruct H as [_ H]. eapply grows_trans; eassumption.
        -- intros E. apply Hf'. now apply Hf.
      * cbn. repeat split; trivial. intros E. now apply Hf.
    + destruct Hb as (Hdb & _ & Hf). repeat split; trivial.
      * discriminate.
      * discriminate.
      * intros E. now apply Hf.
Qed.

Lemma upload_confirm_handler_grows (req : Request) (f : option nat) (db : DB) :
  grows db (snd (serve (upload_confirm_handler req) f db)).
Proof.
  unfold serve, upload_confirm_handler.
  destruct (body_usernames req) as [[|x l]|]; try (cbn; constructor).
  rewrite run_try_catch.
  assert (Hmain : let '(o, w') :=
            run (query Begin;;
                 result <- processUsernamesUpload (x :: l);;
                 query Commit;; Ret (Allocated (fst result) (snd result)))
                (mkWorld f db idle) in
            match o with
            | Returned _ => grows db (database w')
            | Thrown => database w' = db
            end).
  { rewrite run_bind.
    destruct (run_query_cases Begin f db idle) as [[_ E]|[_ E]]; rewrite E; clear E;
      [reflexivity|].
    cbn [exec fst snd]. generalize (option_map Nat.pred f) as f1. intros f1.
    unfold processUsernamesUpload. rewrite !run_bind.
    set (s1 := mkSession true (writes idle) (locks idle)).
    destruct (run_query_cases SelectCount f1 db s1) as [[_ E]|[_ E]]; rewrite E; clear E;
      [reflexivity|].
    cbn [exec fst snd]. generalize (option_map Nat.pred f1) as f2. intros f2.
    set (t0 := mkTally 0 0 _). rewrite run_bind.
    pose proof (confirm_loop_grows (x :: l) t0 f2 db s1 eq_refl) as H.
    destruct (run (for_of (x :: l) processUsernamesUpload_body t0) (mkWorld f2 db s1))
      as [[r|] w']; destruct H as (Hdb & Hr & _); [|exact Hdb].
    destruct (Hr r eq_refl) as [Ht Hg]. destruct w' as [f3 db3 s3].
    cbn [database session] in *. subst db3.
    cbn [run]. rewrite run_bind.
    destruct (run_query_cases Commit f3 db s3) as [[_ E]|[_ E]]; rewrite E; clear E;
      [reflexivity|].
    cbn [exec fst snd run database]. exact Hg. }
  destruct (run _ (mkWorld f db idle)) as [[r|] w'].
  - exact Hmain.
  - pose proof (run_rollback w') as E.
    destruct (run (query Rollback;; Ret ServerError) w') as [o w'']. cbn in *.
    rewrite E, Hmain. constructor.
Qed.

Lemma serve_call_grows (db : DB) (c : Call) : grows db (serve_call db c).
Proof.
  unfold serve_call. destruct (call_confirm c); cbn [handler].
  - apply upload_confirm_handler_grows.
  - apply upload_handler_grows.
Qed.

Lemma serve_calls_grows (calls : list Call) (db : DB) :
  grows db (serve_calls calls db).
Proof.
  revert db. induction calls as [|c calls IH]; intros db; [constructor|].
  cbn. eapply grows_trans; [apply serve_call_grows|apply IH].
Qed.

End HandlerFacts.

(** ** Filled cells and claims are paired *)

Lemma count_absent {A : Type} (key : A -> Z) (l : list A) (z : Z) :
  ~ In z (map key l) -> filter (fun a => key a =? z) l = [].
Proof.
  induction l as [|a l IH]; simpl; intros H; [reflexivity|].
  destruct (Z.eqb_spec (key a) z) as [E|E]; [tauto|]. apply IH. tauto.
Qed.

Lemma count_unique {A : Type} (key : A -> Z) (l : list A) (z : Z) :
  NoDup (map key l) -> In z (map key l) ->
  length (filter (fun a => key a =? z) l) = 1%nat.
Proof.
  induction l as [|a l IH]; simpl; intros Hnd Hin; [contradiction|].
  inversion Hnd as [|? ? Hnin Hnd']; subst.
  destruct (Z.eqb_spec (key a) z) as [E|E].
  - simpl. rewrite count_absent; [reflexivity|]. now rewrite <- E.
  - apply IH; trivial. destruct Hin; [contradiction|assumption].
Qed.

Lemma consistent_bijection (db : DB) : Consistent db -> Bijection db.
Proof.
  intros [Hc Hu Hr Hcf Hfc]. split.
  - intros c Hin. unfold claims_on. split.
    + intros Hf. apply count_unique; trivial. now apply Hfc.
    + intros Hlen.
      assert (Hcl : In (cell_id c) (map row_cell_id (usernames db))).
      { destruct (in_dec Z.eq_dec (cell_id c) (map row_cell_id (usernames db)))
          as [H|H]; [exact H|].
        rewrite (count_absent _ _ _ H) in Hlen. discriminate. }
      apply in_map_iff in Hcl. destruct Hcl as (r & E & Hrin).
      destruct (Hcf r Hrin) as (c' & Hin' & Hid & Hf).
      assert (c' = c) by (apply (unique_cell db); congruence). now subst.
  - intros r Hin. split.
    + apply count_unique; trivial.
      destruct (Hcf r Hin) as (c & Hcin & Hid & _). rewrite <- Hid. now apply in_map.
    + apply count_unique; trivial. now apply in_map.
Qed.

(** A grid as it is created: distinct cell ids, nothing filled, no claim. *)
Lemma fresh_grid_consistent (cs : list Cell) :
  NoDup (map cell_id cs) -> forallb (fun c => negb (filled c)) cs = true ->
  Consistent (mkDB cs []).
Proof.
  intros Hnd Hfree. constructor; simpl; trivial; try constructor.
  - intros r [].
  - intros c Hin Hf. rewrite forallb_forall in Hfree.
    apply Hfree in Hin. rewrite Hf in Hin. discriminate.
Qed.

(** X23. Calls that do not overlap keep the pairing.  From tables in which
    the keys are unique and filled cells and claims are paired (a freshly
    created grid, for one), every sequence of [/admin/upload] and
    [/admin/upload-confirm] calls served one after the other, each with or
    without a statement failure, leaves tables in which a cell is filled
    iff exactly one claim references it and every claim references exactly
    one cell that no other claim references.  (Calls that overlap need
    not: see the two overlapping uploads among the examples.) *)
Theorem calls_keep_bijection (P : Picker) (calls : list Call) (db : DB) :
  Consistent db ->
  Consistent (serve_calls calls db) /\ Bijection (serve_calls calls db).
Proof.
  intros H.
  assert (H' : Consistent (serve_calls calls db))
    by (eapply grows_consistent; [exact H|apply serve_calls_grows]).
  split; [exact H'|now apply consistent_bijection].
Qed.

(** ** C4: what a failure undoes *)

Section FailureFacts.

Context {P : Picker}.

Lemma upload_failure_keeps_prefix (l1 l2 : list Js.value) (x : Js.value)
  (f : option nat) (db : DB) (t1 : Z * Z) (w1 : World) :
  run (for_of l1 upload_body (0, 0)) (mkWorld f db idle) = (Returned (Next, t1), w1) ->
  fst (run (upload_body x t1) w1) = Thrown ->
  snd (serve (upload_handler (allocating_request (l1 ++ x :: l2))) f db) = database w1
  /\ forall a s, fst (serve (upload_handler (allocating_request (l1 ++ x :: l2))) f db)
                 <> Returned (Allocated a s).
Proof.
  intros H1 Hx.
  pose proof (upload_loop_grows l1 (0, 0) f db) as Hl. rewrite H1 in Hl.
  destruct Hl as (_ & Hs & _). specialize (Hs _ eq_refl).
  destruct w1 as [f1 db1 s1]. cbn in Hs. subst s1.
  pose proof (upload_body_spec x t1 f1 db1) as Hb.
  destruct (run (upload_body x t1) (mkWorld f1 db1 idle)) as [[r|] w2] eqn:E2;
    [discriminate|]. destruct Hb as [Hdb _].
  unfold serve, upload_handler, allocating_request. cbn [body_usernames].
  assert (Eloop : run (for_of (l1 ++ x :: l2) upload_body (0, 0)) (mkWorld f db idle)
                  = (Thrown, w2)).
  { rewrite for_of_app, H1. cbn [for_of]. rewrite run_bind, E2. reflexivity. }
  destruct (l1 ++ x :: l2) as [|y l] eqn:El; [now destruct l1|].
  rewrite run_try_catch, run_bind, Eloop.
  pose proof (run_rollback w2) as Er. rewrite run_bind in *.
  destruct w2 as [f2 db2 s2].
  destruct (run_query_cases Rollback f2 db2 s2) as [[_ E]|[_ E]]; rewrite E in *;
    cbn in *; (split; [congruence|discriminate]).
Qed.

Lemma confirm_failure_keeps_nothing (req : Request) (f : option nat) (db : DB) :
  match fst (serve (upload_confirm_handler req) f db) with
  | Returned (Allocated _ _) => True
  | _ => snd (serve (upload_confirm_handler req) f db) = db
  end.
Proof.
  unfold serve, upload_confirm_handler.
  destruct (body_usernames req) as [[|x l]|]; try reflexivity.
  rewrite run_try_catch.
  set (main := query Begin;; _).
  assert (Hmain : match run main (mkWorld f db idle) with
                  | (Returned r, _) => exists a s, r = Allocated a s
                  | (Thrown, w') => database w' = db
                  end).
  { unfold main. rewrite run_bind.
    destruct (run_query_cases Begin f db idle) as [[_ E]|[_ E]]; rewrite E; clear E;
      [reflexivity|].
    cbn [exec fst snd]. generalize (option_map Nat.pred f) as f1. intros f1.
    unfold processUsernamesUpload. rewrite !run_bind.
    set (s1 := mkSession true (writes idle) (locks idle)).
    destruct (run_query_cases SelectCount f1 db s1) as [[_ E]|[_ E]]; rewrite E; clear E;
      [reflexivity|].
    cbn [exec fst snd]. generalize (option_map Nat.pred f1) as f2. intros f2.
    set (t0 := mkTally 0 0 _). rewrite run_bind.
    pose proof (confirm_loop_grows (x :: l) t0 f2 db s1 eq_refl) as H.
    destruct (run (for_of (x :: l) processUsernamesUpload_body t0) (mkWorld f2 db s1))
      as [[r|] w']; destruct H as (Hdb & Hr & _); [|exact Hdb].
    destruct w' as [f3 db3 s3]. cbn [database session] in *. subst db3.
    cbn [run]. rewrite run_bind.
    destruct (run_query_cases Commit f3 db s3) as [[_ E]|[_ E]]; rewrite E; clear E;
      [reflexivity|].
    cbn [exec fst snd run]. eauto. }
  destruct (run main (mkWorld f db idle)) as [[r|] w'].
  - cbn. destruct Hmain as (a & s & ->). exact I.
  - pose proof (run_rollback w') as Er. rewrite run_bind in *.
    destruct w' as [f2 db2 s2]. cbn in Hmain. subst db2.
    destruct (run_query_cases Rollback f2 db s2) as [[_ E]|[_ E]]; rewrite E in *;
      cbn in *; reflexivity.
Qed.

End FailureFacts.

(** C4, as the code has it.  On [/admin/upload], when the candidates
    [l1] have been processed and the next one fails, the committed tables
    at the end are exactly those after [l1]: only the failing candidate's
    unit is undone.  On [/admin/upload-confirm] the batch is one
    transaction: unless the call answers with its counts, the tables are
    what they were before the call. *)
Theorem failure_isolation_per_path (P : Picker) (l1 l2 : list Js.value)
  (x : Js.value) (f : option nat) (db : DB) (t1 : Z * Z) (w1 : World) (req : Request) :
  run (for_of l1 upload_body (0, 0)) (mkWorld f db idle) = (Returned (Next, t1), w1) ->
  fst (run (upload_body x t1) w1) = Thrown ->
  (snd (serve (upload_handler (allocating_request (l1 ++ x :: l2))) f db) = database w1
   /\ forall a s, fst (serve (upload_handler (allocating_request (l1 ++ x :: l2))) f db)
                  <> Returned (Allocated a s))
  /\ match fst (serve (upload_confirm_handler req) f db) with
     | Returned (Allocated _ _) => True
     | _ => snd (serve (upload_confirm_handler req) f db) = db
     end.
Proof.
  intros H1 Hx. split.
  - exact (upload_failure_keeps_prefix l1 l2 x f db t1 w1 H1 Hx).
  - apply confirm_failure_keeps_nothing.
Qed.

(** ** Batches of eligible candidates (C5) *)

Lemma fill_other (id : Z) (cs : list Cell) :
  ~ In id (map cell_id cs) -> map (fill_cell id) cs = cs.
Proof.
  induction cs as [|c cs IH]; simpl; intros H; [reflexivity|].
  unfold fill_cell at 1. destruct (Z.eqb_spec (cell_id c) id) as [E|E]; [tauto|].
  f_equal. apply IH. tauto.
Qed.

Lemma allocate_free_count (u : string) (cell : Cell) (db : DB) :
  NoDup (map cell_id (cells db)) -> In cell (cells db) -> filled cell = false ->
  free_count db = S (free_count (allocate u (cell_id cell) db)).
Proof.
  unfold free_count. rewrite allocate_cells.
  induction (cells db) as [|c cs IH]; simpl; intros Hnd Hin Hf; [contradiction|].
  inversion Hnd as [|? ? Hnin Hnd']; subst.
  destruct Hin as [->|Hin].
  - rewrite fill_other by exact Hnin.
    unfold fill_cell. rewrite Z.eqb_refl. simpl. now rewrite Hf.
  - assert (Hne : cell_id c <> cell_id cell).
    { intros E. apply Hnin. rewrite E. now apply in_map. }
    unfold fill_cell at 1. destruct (Z.eqb_spec (cell_id c) (cell_id cell)); [tauto|].
    destruct (filled c); simpl; [now apply IH|].
    f_equal. now apply IH.
Qed.

Lemma no_free_count (db : DB) : no_free db -> free_count db = O.
Proof.
  unfold no_free, free_count. induction (cells db) as [|c cs IH]; simpl; intros H;
    [reflexivity|].
  rewrite (H c) by now left. simpl. apply IH. intros c' Hc'. apply H. now right.
Qed.

Lemma has_username_allocate (u' u : string) (c : Z) (db : DB) :
  has_username u' (allocate u c db) = has_username u' db || String.eqb u u'.
Proof.
  unfold has_username. rewrite allocate_usernames, existsb_app. simpl.
  now rewrite orb_false_r.
Qed.

Lemma eligible_tail (x : string) (l : list string) (db : DB) (c : Z) :
  Eligible (x :: l) db -> Eligible l (allocate (normalize x) c db).
Proof.
  intros [Hnd He]. simpl in Hnd. inversion Hnd as [|? ? Hnin Hnd']; subst.
  split; [exact Hnd'|]. intros u Hu. destruct (He u (or_intror Hu)) as [Hne Hfresh].
  split; [exact Hne|]. rewrite has_username_allocate, Hfresh. simpl.
  apply String.eqb_neq. intros E. apply Hnin. rewrite E. now apply in_map.
Qed.

Lemma add_succ (a : Z) (n : nat) : a + 1 + Z.of_nat n = a + Z.of_nat (S n).
Proof. lia. Qed.

Section EligibleFacts.

Context {P : Picker}.

Lemma upload_loop_eligible (l : list string) (db : DB) (t : Z * Z) :
  NoDup (map cell_id (cells db)) -> Eligible l db ->
  let m := Nat.min (length l) (free_count db) in
  exists c db',
    run (for_of (map Js.Str l) upload_body t) (mkWorld None db idle)
    = (Returned (c, (fst t + Z.of_nat m, snd t)), mkWorld None db' idle)
    /\ map username (usernames db')
       = map username (usernames db) ++ firstn m (map normalize l).
Proof.
  revert db t. induction l as [|x l IH]; intros db t Hnd He; cbv zeta.
  - exists Next, db. cbn. rewrite Z.add_0_r, app_nil_r. now destruct t.
  - cbn [map for_of]. rewrite run_bind.
    pose proof (upload_body_spec (Js.Str x) t None db) as Hb.
    destruct (run (upload_body (Js.Str x) t) (mkWorld None db idle)) as [o w'].
    destruct Hb as [Hcases Hf]. destruct (Hf eq_refl) as [Hf' Hthrown].
    destruct o as [[c t']|]; [|now specialize (Hthrown eq_refl)].
    destruct Hcases as [Hs Hcases]. destruct w' as [f' db' s']. cbn in Hs, Hf'.
    subst f' s'. cbn [database] in Hcases.
    destruct (proj2 He x (or_introl eq_refl)) as [Hne Hfresh].
    destruct Hcases as [(_ & _ & H)|[(-> & -> & H)|(-> & -> & H)]]; cbn [fate] in H.
    + destruct H as (_ & s & E & [H|H]); injection E as <-; congruence.
    + destruct H as (-> & Hfull & _). rewrite (no_free_count _ Hfull), Nat.min_0_r.
      exists Break, db. cbn. rewrite Z.add_0_r, app_nil_r. now destruct t.
    + destruct H as (s & cell & E & _ & _ & Hin & Hfree & ->). injection E as <-.
      rewrite (allocate_free_count (normalize x) cell db Hnd Hin Hfree).
      cbn [fst snd length Nat.min].
      destruct (IH (allocate (normalize x) (cell_id cell) db) (fst t + 1, snd t))
        as (c & db' & Erun & Eus).
      * now rewrite allocate_cell_ids.
      * now apply eligible_tail.
      * exists c, db'. rewrite Erun. cbn [fst snd]. split.
        -- now rewrite add_succ.
        -- rewrite Eus, allocate_usernames, map_app, <- app_assoc. reflexivity.
Qed.

End EligibleFacts.

Section EligibleConfirm.

Context {P : Picker}.

Lemma confirm_loop_eligible (db : DB) (l : list string) (s : Session) (t : Tally) :
  in_txn s = true ->
  NoDup (map cell_id (cells (view db s))) -> Eligible l (view db s) ->
  let m := Nat.min (length l) (Nat.min (free_count (view db s)) (room (currentCount t))) in
  exists c s',
    run (for_of (map Js.Str l) processUsernamesUpload_body t) (mkWorld None db s)
    = (Returned (c, mkTally (added t + Z.of_nat m) (skipped t)
                            (currentCount t + Z.of_nat m)),
       mkWorld None db s')
    /\ in_txn s' = true
    /\ map username (usernames (view db s'))
       = map username (usernames (view db s)) ++ firstn m (map normalize l).
Proof.
  revert s t. induction l as [|x l IH]; intros s t Ht Hnd He; cbv zeta.
  - exists Next, s. cbn. rewrite !Z.add_0_r, app_nil_r. now destruct t.
  - cbn [map for_of]. rewrite run_bind.
    pose proof (confirm_body_spec (Js.Str x) t None db s Ht) as Hb.
    destruct (run (processUsernamesUpload_body (Js.Str x) t) (mkWorld None db s))
      as [o w'].
    destruct Hb as (Hdb & Hcases & Hf). destruct (Hf eq_refl) as [Hf' Hthrown].
    destruct o as [[c t']|]; [|now destruct (Hthrown eq_refl)].
    destruct Hcases as [Hs Hcases]. destruct w' as [f' db' s']. cbn in Hs, Hf', Hdb.
    subst f' db'. cbn [session] in Hcases.
    destruct (proj2 He x (or_introl eq_refl)) as [Hne Hfresh].
    destruct Hcases as [(-> & -> & Hcap & Ev)
                       |(Hcap & [(_ & _ & H)|[(-> & -> & H)|(-> & -> & H)]])];
      cbn [fate] in *.
    + assert (Er : room (currentCount t) = O) by (unfold room; lia).
      rewrite Er, Nat.min_0_r, Nat.min_0_r.
      exists Break, s'. cbn. rewrite !Z.add_0_r, app_nil_r, Ev.
      destruct t; repeat split; trivial.
    + destruct H as (_ & u & E & [H|H]); injection E as <-; congruence.
    + destruct H as (Ev & Hfull & _).
      rewrite (no_free_count _ Hfull), Nat.min_0_l, Nat.min_0_r.
      exists Break, s'. cbn. rewrite !Z.add_0_r, app_nil_r, Ev.
      destruct t; repeat split; trivial.
    + destruct H as (u & cell & E & _ & _ & Hin & Hfree & Ev). injection E as <-.
      rewrite (allocate_free_count (normalize x) cell (view db s) Hnd Hin Hfree).
      assert (Er : room (currentCount t) = S (room (currentCount t + 1)))
        by (unfold room; lia).
      rewrite Er. cbn [fst snd length Nat.min].
      destruct (IH s' (mkTally (added t + 1) (skipped t) (currentCount t + 1)) Hs)
        as (c & s'' & Erun & Hs'' & Eus).
      * now rewrite Ev, allocate_cell_ids.
      * rewrite Ev. now apply eligible_tail.
      * exists c, s''. rewrite Erun. cbn [added skipped currentCount] in *.
        rewrite Ev in *. repeat split; trivial.
        -- now rewrite !add_succ.
        -- rewrite Eus, allocate_usernames, map_app, <- app_assoc. reflexivity.
Qed.

Lemma upload_handler_eligible (l : list string) (db : DB) :
  l <> [] -> NoDup (map cell_id (cells db)) -> Eligible l db ->
  let m := Nat.min (length l) (free_count db) in
  exists db',
    serve (upload_handler (allocating_request (map Js.Str l))) None db
    = (Returned (Allocated (Z.of_nat m) 0), db')
    /\ map username (usernames db')
       = map username (usernames db) ++ firstn m (map normalize l).
Proof.
  intros Hl Hnd He. cbv zeta.
  destruct (upload_loop_eligible l db (0, 0) Hnd He) as (c & db' & Erun & Eus).
  exists db'. split; [|exact Eus].
  unfold serve, upload_handler, allocating_request. cbn [body_usernames].
  destruct l as [|x l]; [congruence|]. cbn [map] in *.
  rewrite run_try_catch, run_bind, Erun. reflexivity.
Qed.

Lemma upload_confirm_handler_eligible (l : list string) (db : DB) :
  l <> [] -> NoDup (map cell_id (cells db)) -> Eligible l db ->
  let m := Nat.min (length l)
             (Nat.min (free_count db) (room (Z.of_nat (length (usernames db))))) in
  exists db',
    serve (upload_confirm_handler (allocating_request (map Js.Str l))) None db
    = (Returned (Allocated (Z.of_nat m) 0), db')
    /\ map username (usernames db')
       = map username (usernames db) ++ firstn m (map normalize l).
Proof.
  intros Hl Hnd He. cbv zeta.
  set (s1 := mkSession true [] []).
  set (t0 := mkTally 0 0 (Z.of_nat (length (usernames db)))).
  destruct (confirm_loop_eligible db l s1 t0 eq_refl Hnd He)
    as (c & s' & Erun & Hs' & Eus).
  exists (view db s'). split; [|exact Eus].
  unfold serve, upload_confirm_handler, allocating_request. cbn [body_usernames].
  destruct l as [|x l]; [congruence|]. cbn [map] in *.
  rewrite run_try_catch, run_bind, run_query.
  cbn [fault database session exec option_map idle writes locks].
  unfold processUsernamesUpload. rewrite !run_bind, run_query.
  cbn [fault database session exec option_map].
  change (view db (mkSession true [] [])) with db. fold s1 t0.
  rewrite run_bind, Erun. cbn [run]. rewrite run_bind, run_query.
  cbn [fault database session exec option_map run fst snd added skipped t0].
  reflexivity.
Qed.

End EligibleConfirm.

(** C5, as the code has it.  A batch of [K + 3] eligible identifiers on a
    grid with exactly [K] free cells: [/admin/upload] reports [K] added
    and no skip; [/admin/upload-confirm] reports [m] added and no skip,
    where [m] is [K] or, if smaller, what the cap still admits.  The new
    claims are those of the first identifiers of the batch, in order; the
    candidates after the stop are not counted. *)
Theorem eligible_batch_counts (P : Picker) (K : nat) (l : list string) (db : DB) :
  NoDup (map cell_id (cells db)) -> Eligible l db ->
  free_count db = K -> length l = (K + 3)%nat ->
  (exists db',
     serve (upload_handler (allocating_request (map Js.Str l))) None db
     = (Returned (Allocated (Z.of_nat K) 0), db')
     /\ map username (usernames db')
        = map username (usernames db) ++ firstn K (map normalize l))
  /\ (let m := Nat.min K (room (Z.of_nat (length (usernames db)))) in
      exists db',
        serve (upload_confirm_handler (allocating_request (map Js.Str l))) None db
        = (Returned (Allocated (Z.of_nat m) 0), db')
        /\ map username (usernames db')
           = map username (usernames db) ++ firstn m (map normalize l)).
Proof.
  intros Hnd He HK Hlen.
  assert (Hl : l <> []) by (intros ->; simpl in Hlen; lia).
  split.
  - destruct (upload_handler_eligible l db Hl Hnd He) as (db' & E & Eus).
    rewrite HK, Hlen in *.
    replace (Nat.min (K + 3) K) with K in * by lia. now exists db'.
  - cbv zeta.
    destruct (upload_confirm_handler_eligible l db Hl Hnd He) as (db' & E & Eus).
    rewrite HK, Hlen in *.
    replace (Nat.min (K + 3) (Nat.min K (room (Z.of_nat (length (usernames db))))))
      with (Nat.min K (room (Z.of_nat (length (usernames db))))) in * by lia.
    now exists db'.
Qed.

(** ** Repeated identifiers in one batch (C9) *)

Lemma grows_has_username (db db' : DB) (u : string) :
  grows db db' -> has_username u db = true -> has_username u db' = true.
Proof.
  intros Hg Hu. induction Hg as [|db' u' cell Hg IH _ _ _]; [exact Hu|].
  now rewrite has_username_allocate, IH.
Qed.

Lemma grows_usernames_unique (db db' : DB) :
  grows db db' -> NoDup (map username (usernames db)) ->
  NoDup (map username (usernames db')).
Proof.
  intros Hg Hnd. induction Hg as [|db' u cell Hg IH Hu _ _]; [exact Hnd|].
  rewrite allocate_usernames, map_app. apply NoDup_snoc; trivial.
  simpl. rewrite <- has_username_spec. congruence.
Qed.

Lemma fate_has_username (x : Js.value) (v v' : DB) (s : string) :
  x = Js.Str s -> normalize s <> EmptyString ->
  fate Skipped x v v' \/ fate Claimed x v v' ->
  has_username (normalize s) v' = true.
Proof.
  intros -> Hne [H|H]; cbn [fate] in H.
  - destruct H as (-> & s' & E & [H|H]); injection E as <-; congruence.
  - destruct H as (s' & cell & E & _ & _ & _ & _ & ->). injection E as <-.
    rewrite has_username_allocate, String.eqb_refl. apply orb_true_r.
Qed.

Section RepeatFacts.

Context {P : Picker}.

Lemma upload_loop_seen (l1 : list Js.value) (t t1 : Z * Z) (db : DB) (w1 : World)
  (y : string) :
  run (for_of l1 upload_body t) (mkWorld None db idle) = (Returned (Next, t1), w1) ->
  In (Js.Str y) l1 -> normalize y <> EmptyString ->
  w1 = mkWorld None (database w1) idle
  /\ has_username (normalize y) (database w1) = true.
Proof.
  revert t db. induction l1 as [|x l1 IH]; intros t db Hrun Hin Hne; [destruct Hin|].
  cbn [for_of] in Hrun. rewrite run_bind in Hrun.
  pose proof (upload_body_spec x t None db) as Hb.
  destruct (run (upload_body x t) (mkWorld None db idle)) as [[[c t']|] w'];
    [|discriminate].
  destruct Hb as [[Hs Hcases] Hf]. destruct (Hf eq_refl) as [Hf' _].
  destruct w' as [f' db' s']. cbn in Hs, Hf'. subst f' s'. cbn [database] in Hcases.
  cbn [fst snd] in Hrun. destruct c; [|discriminate].
  pose proof (upload_loop_grows l1 t' None db') as Hg. rewrite Hrun in Hg.
  destruct Hg as (Hg & Hidle & Hnone).
  split.
  - destruct w1 as [f1 db1 s1]. cbn in *. now rewrite Hnone, (Hidle _ eq_refl).
  - destruct Hin as [->|Hin]; [|now apply (IH t' db')].
    apply (grows_has_username db'); trivial.
    apply (fate_has_username (Js.Str y) db); trivial.
    destruct Hcases as [(_ & _ & H)|[(E & _)|(_ & _ & H)]]; [now left|discriminate|now right].
Qed.

Lemma upload_body_known (x : string) (t : Z * Z) (db : DB) :
  normalize x <> EmptyString -> has_username (normalize x) db = true ->
  run (upload_body (Js.Str x) t) (mkWorld None db idle)
  = (Returned (Next, (fst t, snd t + 1)), mkWorld None db idle).
Proof.
  intros Hne Hu. unfold upload_body. cbv zeta.
  destruct (Js.falsy (normalize x)) eqn:Ef; [now apply falsy_spec in Ef|].
  rewrite run_bind, run_query. cbn [fault database session exec option_map].
  change (view db idle) with db. now rewrite exists_positive, Hu.
Qed.

Lemma confirm_loop_seen (db : DB) (l1 : list Js.value) (t t1 : Tally) (s : Session)
  (w1 : World) (y : string) :
  in_txn s = true ->
  run (for_of l1 processUsernamesUpload_body t) (mkWorld None db s)
  = (Returned (Next, t1), w1) ->
  In (Js.Str y) l1 -> normalize y <> EmptyString ->
  w1 = mkWorld None db (session w1) /\ in_txn (session w1) = true
  /\ has_username (normalize y) (view db (session w1)) = true.
Proof.
  revert t s. induction l1 as [|x l1 IH]; intros t s Ht Hrun Hin Hne; [destruct Hin|].
  cbn [for_of] in Hrun. rewrite run_bind in Hrun.
  pose proof (confirm_body_spec x t None db s Ht) as Hb.
  destruct (run (processUsernamesUpload_body x t) (mkWorld None db s))
    as [[[c t']|] w']; [|discriminate].
  destruct Hb as (Hdb & [Hs Hcases] & Hf). destruct (Hf eq_refl) as [Hf' _].
  destruct w' as [f' db' s']. cbn in Hs, Hf', Hdb. subst f' db'.
  cbn [session] in Hcases.
  cbn [fst snd] in Hrun. destruct c; [|discriminate].
  pose proof (confirm_loop_grows l1 t' None db s' Hs) as Hg. rewrite Hrun in Hg.
  destruct Hg as (Hdb1 & Hr & Hnone). destruct (Hr _ eq_refl) as [Ht1 Hg].
  split; [|split; [exact Ht1|]].
  - destruct w1 as [f1 db1 s1]. cbn in *. now rewrite Hnone, Hdb1.
  - destruct Hin as [->|Hin]; [|now apply (IH t' s')].
    apply (grows_has_username (view db s')); trivial.
    apply (fate_has_username (Js.Str y) (view db s)); trivial.
    destruct Hcases as [(E & _)|(_ & [(_ & _ & H)|[(E & _)|(_ & _ & H)]])];
      [discriminate|now left|discriminate|now right].
Qed.

Lemma confirm_body_known (db : DB) (x : string) (t : Tally) (s : Session) :
  normalize x <> EmptyString -> has_username (normalize x) (view db s) = true ->
  run (processUsernamesUpload_body (Js.Str x) t) (mkWorld None db s)
  = if SEASON_1_LIMIT <=? currentCount t
    then (Returned (Break, t), mkWorld None db s)
    else (Returned (Next, mkTally (added t) (skipped t + 1) (currentCount t)),
          mkWorld None db s).
Proof.
  intros Hne Hu. unfold processUsernamesUpload_body. cbv zeta.
  destruct (SEASON_1_LIMIT <=? currentCount t); [reflexivity|].
  destruct (Js.falsy (normalize x)) eqn:Ef; [now apply falsy_spec in Ef|].
  rewrite run_bind, run_query. cbn [fault database session exec option_map].
  now rewrite exists_positive, Hu.
Qed.

End RepeatFacts.

(** C9, as the code has it.  Let [x] repeat, up to normalisation, an
    earlier candidate [y] of the batch, and let the loop get as far as
    [x] (it has run through the candidates [l1] before [x] without a
    [break]).  Then on [/admin/upload] the iteration for [x] adds one to
    [skipped] and changes nothing else; on the confirm path it does the
    same, unless the cap is reached, in which case the loop ends there.
    Whatever the batch, the ledger never holds an identifier twice. *)
Theorem repeated_identifier_is_skipped (P : Picker) (l1 l2 : list Js.value)
  (x y : string) (db : DB) :
  In (Js.Str y) l1 -> normalize y = normalize x -> normalize x <> EmptyString ->
  (forall t t1 w1,
     run (for_of l1 upload_body t) (mkWorld None db idle) = (Returned (Next, t1), w1) ->
     run (for_of (l1 ++ Js.Str x :: l2) upload_body t) (mkWorld None db idle)
     = run (for_of l2 upload_body (fst t1, snd t1 + 1)) w1)
  /\ (forall s t t1 w1, in_txn s = true ->
        run (for_of l1 processUsernamesUpload_body t) (mkWorld None db s)
        = (Returned (Next, t1), w1) ->
        run (for_of (l1 ++ Js.Str x :: l2) processUsernamesUpload_body t)
            (mkWorld None db s)
        = if SEASON_1_LIMIT <=? currentCount t1
          then (Returned (Break, t1), w1)
          else run (for_of l2 processUsernamesUpload_body
                      (mkTally (added t1) (skipped t1 + 1) (currentCount t1))) w1)
  /\ (forall req f,
        NoDup (map username (usernames db)) ->
        NoDup (map username (usernames (snd (serve (upload_handler req) f db))))
        /\ NoDup (map username
                    (usernames (snd (serve (upload_confirm_handler req) f db))))).
Proof.
  intros Hin Hxy Hne. split; [|split].
  - intros t t1 w1 Hrun.
    destruct (upload_loop_seen l1 t t1 db w1 y Hrun Hin) as [Ew Hu];
      [now rewrite Hxy|].
    rewrite for_of_app, Hrun. cbn [for_of]. rewrite run_bind, Ew.
    rewrite upload_body_known; [reflexivity|exact Hne|now rewrite <- Hxy].
  - intros s t t1 w1 Ht Hrun.
    destruct (confirm_loop_seen db l1 t t1 s w1 y Ht Hrun Hin) as (Ew & Ht1 & Hu);
      [now rewrite Hxy|].
    rewrite for_of_app, Hrun. cbn [for_of]. rewrite run_bind, Ew.
    rewrite confirm_body_known; [|exact Hne|now rewrite <- Hxy].
    cbn [session]. destruct (SEASON_1_LIMIT <=? currentCount t1); reflexivity.
  - intros req f Hnd. split.
    + eapply grows_usernames_unique; [apply upload_handler_grows|exact Hnd].
    + eapply grows_usernames_unique; [apply upload_confirm_handler_grows|exact Hnd].
Qed.

(** ** The cap on the confirm path (C1) *)

Section CapFacts.

Context {P : Picker}.

Lemma confirm_loop_cap (db : DB) (l : list Js.value) (t : Tally) (f : option nat)
  (s : Session) :
  in_txn s = true ->
  currentCount t = claim_count (view db s) -> currentCount t <= SEASON_1_LIMIT ->
  let '(o, w') := run (for_of l processUsernamesUpload_body t) (mkWorld f db s) in
  forall r, o = Returned r -> claim_count (view db (session w')) <= SEASON_1_LIMIT.
Proof.
  revert t f s. induction l as [|x l IH]; intros t f s Ht Hc Hle.
  - cbn. intros r _. now rewrite <- Hc.
  - cbn [for_of]. rewrite run_bind.
    pose proof (confirm_body_spec x t f db s Ht) as Hb.
    destruct (run (processUsernamesUpload_body x t) (mkWorld f db s))
      as [[[c t']|] w']; [|discriminate].
    destruct Hb as (Hdb & [Hs Hcases] & _). destruct w' as [f' db' s'].
    cbn in Hs, Hdb. subst db'. cbn [session] in Hcases.
    assert (Hinv : currentCount t' = claim_count (view db s')
                   /\ currentCount t' <= SEASON_1_LIMIT).
    { destruct Hcases as [(_ & -> & _ & ->)
                         |(Hlt & [(_ & -> & H)|[(_ & -> & H)|(_ & -> & H)]])];
        cbn [fate currentCount] in *.
      - now split.
      - destruct H as [-> _]. now split.
      - destruct H as [-> _]. now split.
      - destruct H as (u & cell & _ & _ & _ & _ & _ & ->).
        unfold claim_count in *. rewrite allocate_usernames, length_app. simpl.
        split; lia. }
    destruct Hinv as [Hc' Hle']. cbn [fst snd]. destruct c.
    + apply (IH t' f' s' Hs Hc' Hle').
    + cbn. intros r _. now rewrite <- Hc'.
Qed.

(** A call of [/admin/upload-confirm] that runs alone never takes the
    ledger above the cap. *)
Lemma upload_confirm_respects_cap (req : Request) (f : option nat) (db : DB) :
  claim_count db <= SEASON_1_LIMIT ->
  claim_count (snd (serve (upload_confirm_handler req) f db)) <= SEASON_1_LIMIT.
Proof.
  intros Hle.
  pose proof (confirm_failure_keeps_nothing req f db) as Hfail.
  destruct (fst (serve (upload_confirm_handler req) f db)) as [[| | |a sk| |]|] eqn:Eo;
    try (now rewrite Hfail).
  clear Hfail. revert Eo. unfold serve, upload_confirm_handler.
  destruct (body_usernames req) as [[|x l]|]; try discriminate.
  rewrite run_try_catch, run_bind.
  destruct (run_query_cases Begin f db idle) as [[_ E]|[_ E]]; rewrite E; clear E.
  { pose proof (run_rollback (mkWorld None db idle)) as Er.
    destruct (run (query Rollback;; Ret ServerError) (mkWorld None db idle)) as [o w].
    cbn in *. now rewrite Er. }
  cbn [exec fst snd]. generalize (option_map Nat.pred f) as f1. intros f1.
  unfold processUsernamesUpload. rewrite !run_bind.
  set (s1 := mkSession true (writes idle) (locks idle)).
  destruct (run_query_cases SelectCount f1 db s1) as [[_ E]|[_ E]]; rewrite E; clear E.
  { pose proof (run_rollback (mkWorld None db s1)) as Er.
    destruct (run (query Rollback;; Ret ServerError) (mkWorld None db s1)) as [o w].
    cbn in *. now rewrite Er. }
  cbn [exec fst snd]. generalize (option_map Nat.pred f1) as f2. intros f2.
  set (t0 := mkTally 0 0 _). rewrite run_bind.
  pose proof (confirm_loop_cap db (x :: l) t0 f2 s1 eq_refl eq_refl Hle) as Hcap.
  pose proof (confirm_loop_grows (x :: l) t0 f2 db s1 eq_refl) as Hg.
  destruct (run (for_of (x :: l) processUsernamesUpload_body t0) (mkWorld f2 db s1))
    as [[r|] w']; destruct Hg as (Hdb & _ & _).
  - specialize (Hcap r eq_refl). destruct w' as [f3 db3 s3].
    cbn [database session] in *. subst db3. cbn [run]. rewrite run_bind.
    destruct (run_query_cases Commit f3 db s3) as [[_ E]|[_ E]]; rewrite E; clear E.
    + pose proof (run_rollback (mkWorld None db s3)) as Er.
      destruct (run (query Rollback;; Ret ServerError) (mkWorld None db s3)) as [o w].
      cbn in *. now rewrite Er.
    + cbn [exec fst snd run database]. intros _. exact Hcap.
  - pose proof (run_rollback w') as Er.
    destruct (run (query Rollback;; Ret ServerError) w') as [o w].
    cbn in *. now rewrite Er, Hdb.
Qed.

End CapFacts.

(** * Concrete runs *)

Section Examples.

Local Open Scope string_scope.

Lemma sample_grid_consistent : Consistent sample_grid.
Proof.
  apply fresh_grid_consistent; [|reflexivity].
  repeat constructor; simpl; intuition discriminate.
Qed.

Lemma season_cell_ids (n extra : nat) :
  NoDup (map cell_id (cells (season_db n extra))).
Proof.
  unfold season_db; cbn [cells]. rewrite map_app, !map_map. cbn [season_cell cell_id].
  rewrite <- map_app, <- seq_app.
  generalize (seq_NoDup (n + extra) 0).
  induction (seq 0 (n + extra)) as [|i l IH]; intros Hnd; [constructor|].
  inversion Hnd as [|? ? Hnin Hnd']; subst. cbn [map]. constructor; [|now apply IH].
  rewrite in_map_iff. intros (j & E & Hj). assert (j = i) by lia. now subst.
Qed.

Lemma season_free (n extra : nat) : free_count (season_db n extra) = extra.
Proof.
  unfold free_count, season_db; cbn [cells]. rewrite filter_app, length_app.
  assert (E1 : forall l, filter (fun c => negb (filled c)) (map (season_cell true) l) = []).
  { induction l as [|i l IH]; [reflexivity|exact IH]. }
  assert (E2 : forall l, length (filter (fun c => negb (filled c))
                                   (map (season_cell false) l)) = length l).
  { induction l as [|i l IH]; [reflexivity|]. cbn. now rewrite IH. }
  now rewrite E1, E2, length_seq.
Qed.

Lemma season_count (n extra : nat) : claim_count (season_db n extra) = Z.of_nat n.
Proof.
  unfold claim_count, season_db; cbn [usernames]. now rewrite length_map, length_seq.
Qed.

Lemma newcomer_eligible (n extra : nat) : Eligible ["newcomer"] (season_db n extra).
Proof.
  split; [repeat constructor; intros []|].
  intros u [<-|[]]. split; [discriminate|].
  change (normalize "newcomer") with "newcomer".
  unfold has_username, season_db; cbn [usernames].
  induction (seq 0 n) as [|i l IH]; [reflexivity|exact IH].
Qed.

(** C1. With the ledger at the cap (12000 claims) and a free cell left,
    [/admin/upload] of one new identifier adds the claim number 12001; the
    confirm path, given the same request, adds none. *)
Theorem upload_exceeds_cap :
  claim_count season_full = SEASON_1_LIMIT
  /\ fst (serve (upload_handler (batch ["newcomer"])) None season_full)
     = Returned (Allocated 1 0)
  /\ claim_count (snd (serve (upload_handler (batch ["newcomer"])) None season_full))
     = SEASON_1_LIMIT + 1
  /\ fst (serve (upload_confirm_handler (batch ["newcomer"])) None season_full)
     = Returned (Allocated 0 0)
  /\ claim_count (snd (serve (upload_confirm_handler (batch ["newcomer"])) None
                             season_full))
     = SEASON_1_LIMIT.
Proof.
  unfold season_full, batch. set (n := Z.to_nat SEASON_1_LIMIT).
  assert (Hn : Z.of_nat n = SEASON_1_LIMIT) by (unfold n; now rewrite Z2Nat.id).
  assert (Hl : ["newcomer"] <> []) by discriminate.
  destruct (upload_handler_eligible ["newcomer"] (season_db n 1) Hl
              (season_cell_ids _ _) (newcomer_eligible _ _)) as (db1 & E1 & U1).
  destruct (upload_confirm_handler_eligible ["newcomer"] (season_db n 1) Hl
              (season_cell_ids _ _) (newcomer_eligible _ _)) as (db2 & E2 & U2).
  change (Z.of_nat (length (usernames (season_db n 1))))
    with (claim_count (season_db n 1)) in E2, U2.
  rewrite season_free in E1, U1, E2, U2. rewrite season_count, Hn in E2, U2.
  change (room SEASON_1_LIMIT) with O in E2, U2.
  cbn [length Nat.min Z.of_nat firstn] in E1, U1, E2, U2.
  rewrite E1, E2. cbn [fst snd].
  apply (f_equal (@length string)) in U1, U2.
  rewrite !length_map, ?length_app, ?app_nil_r, ?length_map in U1, U2.
  pose proof (season_count n 1) as Hc. unfold claim_count in *.
  cbn [map length] in U1, U2.
  split; [lia|split; [reflexivity|split; [lia|split; [reflexivity|lia]]]].
Qed.

(** *** Two connections on the same identifier (C3, C6) *)

(** C3. When the insert of a candidate meets the claim another connection
    has committed since the check: [/admin/upload] still marks the cell it
    selected (cell 2) filled, with no claim on it, and counts the
    candidate as added; [/admin/upload-confirm] answers 500 for the whole
    batch and never gets to the next candidate. *)
Theorem conflict_marks_cell_filled :
  right_prog race_upload_after_check = Ret (Allocated 1 0)
  /\ usernames (shared race_upload_after_check) = [mkRow "bob" 1]
  /\ map filled (cells (shared race_upload_after_check)) = [true; true; false]
  /\ claims_on (shared race_upload_after_check) 2 = []
  /\ right_prog race_confirm_after_check = Ret ServerError
  /\ usernames (shared race_confirm_after_check) = [mkRow "bob" 1]
  /\ map filled (cells (shared race_confirm_after_check)) = [true; false; false].
Proof.
  split; [|split; [|split; [|split; [|split; [|split]]]]]; vm_compute; reflexivity.
Qed.

(** C6. The same identifier in two interleaved calls.  On [/admin/upload]
    both calls report it as added and neither as skipped, while the ledger
    gets one claim and two cells are marked filled; on
    [/admin/upload-confirm] one call reports it as added and the other
    fails as a whole. *)
Theorem same_identifier_in_two_batches :
  left_prog race_two_uploads = Ret (Allocated 1 0)
  /\ right_prog race_two_uploads = Ret (Allocated 1 0)
  /\ usernames (shared race_two_uploads) = [mkRow "bob" 1]
  /\ map filled (cells (shared race_two_uploads)) = [true; true; false]
  /\ left_prog race_two_confirms = Ret (Allocated 1 0)
  /\ right_prog race_two_confirms = Ret ServerError
  /\ usernames (shared race_two_confirms) = [mkRow "bob" 1].
Proof.
  split; [|split; [|split; [|split; [|split; [|split]]]]]; vm_compute; reflexivity.
Qed.

(** C2. Two [/admin/upload] calls for the same name that overlap, on a
    grid where cells and claims are paired: both pass the existence check
    before either inserts, both end with [added: 1], and the tables they
    leave have cell 2 filled with no claim on it.  The pairing of filled
    cells and claims does not survive the two calls. *)
Theorem overlapping_uploads_break_bijection :
  Consistent sample_grid /\ Bijection sample_grid
  /\ left_prog race_two_uploads = Ret (Allocated 1 0)
  /\ right_prog race_two_uploads = Ret (Allocated 1 0)
  /\ left_session race_two_uploads = idle
  /\ right_session race_two_uploads = idle
  /\ ~ Bijection (shared race_two_uploads).
Proof.
  split; [exact sample_grid_consistent|].
  split; [exact (consistent_bijection _ sample_grid_consistent)|].
  split; [vm_compute; reflexivity|]. split; [vm_compute; reflexivity|].
  split; [vm_compute; reflexivity|]. split; [vm_compute; reflexivity|].
  assert (E : shared race_two_uploads
              = mkDB [mkCell 1 1 1 true false; mkCell 2 2 1 true false;
                      mkCell 3 3 1 false false] [mkRow "bob" 1])
    by (vm_compute; reflexivity).
  rewrite E. intros [H _].
  specialize (H (mkCell 2 2 1 true false) (or_intror (or_introl eq_refl))).
  apply proj1 in H. specialize (H eq_refl). vm_compute in H. discriminate.
Qed.

(** The counter of [processUsernamesUpload] is read once per batch: two
    [/admin/upload-confirm] calls that overlap one claim below the cap
    both add a claim, and the ledger ends one above [SEASON_1_LIMIT]. *)
Lemma overlapping_confirms_exceed_cap :
  claim_count (crowd (SEASON_1_LIMIT - 1) 2) = SEASON_1_LIMIT - 1
  /\ left_prog race_confirms_below_cap = Ret (Allocated 1 0)
  /\ right_prog race_confirms_below_cap = Ret (Allocated 1 0)
  /\ left_session race_confirms_below_cap = idle
  /\ right_session race_confirms_below_cap = idle
  /\ claim_count (shared race_confirms_below_cap) = SEASON_1_LIMIT + 1.
Proof.
  split; [vm_compute; reflexivity|]. split; [vm_compute; reflexivity|].
  split; [vm_compute; reflexivity|]. split; [vm_compute; reflexivity|].
  split; vm_compute; reflexivity.
Qed.

(** After the two overlapping [/admin/upload] calls, [/progress] reports
    one claim while two cells are filled. *)
Lemma progress_after_overlap :
  progress_handler true (shared race_two_uploads) = Returned (Progress 1)
  /\ length (filter filled (cells (shared race_two_uploads))) = 2%nat.
Proof. split; vm_compute; reflexivity. Qed.

(** *** A failure in the middle of a batch (C4) *)

(** The confirm path with two candidates, the seventh statement failing:
    the first candidate has been processed (its two writes are pending,
    [added] is 1) when the second one's first statement fails; the call
    answers 500 and the tables are as before the call. *)
Lemma confirm_failure_unwinds_batch :
  run (query Begin ;;
       c <- query SelectCount ;;
       for_of [Js.Str "alice"] processUsernamesUpload_body (mkTally 0 0 c))
      (mkWorld (Some 6%nat) sample_grid idle)
  = (Returned (Next, mkTally 1 0 1),
     mkWorld (Some 0%nat) sample_grid
             (mkSession true [WInsert "alice" 1; WFill 1] [1; 1]))
  /\ serve (upload_confirm_handler (batch ["alice"; "bob"])) (Some 6%nat) sample_grid
     = (Returned ServerError, sample_grid)
  /\ has_username "alice"
       (snd (serve (upload_confirm_handler (batch ["alice"; "bob"])) (Some 6%nat)
                   sample_grid)) = false.
Proof. split; [|split]; vm_compute; reflexivity. Qed.

Lemma failure_isolation_witness :
  let w1 := mkWorld (Some 1%nat) (allocate "alice" 1 sample_grid) idle in
  run (for_of [Js.Str "alice"] upload_body (0, 0)) (mkWorld (Some 7%nat) sample_grid idle)
  = (Returned (Next, (1, 0)), w1)
  /\ fst (run (upload_body (Js.Str "bob") (1, 0)) w1) = Thrown
  /\ snd (serve (upload_handler (batch ["alice"; "bob"])) (Some 7%nat) sample_grid)
     = allocate "alice" 1 sample_grid
  /\ match fst (serve (upload_confirm_handler (batch ["alice"; "bob"])) (Some 7%nat)
                      sample_grid) with
     | Returned (Allocated _ _) => True
     | _ => snd (serve (upload_confirm_handler (batch ["alice"; "bob"])) (Some 7%nat)
                       sample_grid) = sample_grid
     end.
Proof.
  intros w1.
  assert (H1 : run (for_of [Js.Str "alice"] upload_body (0, 0))
                   (mkWorld (Some 7%nat) sample_grid idle)
               = (Returned (Next, (1, 0)), w1)) by (vm_compute; reflexivity).
  assert (H2 : fst (run (upload_body (Js.Str "bob") (1, 0)) w1) = Thrown)
    by (vm_compute; reflexivity).
  split; [exact H1|]. split; [exact H2|].
  destruct (failure_isolation_per_path first_row [Js.Str "alice"] []
              (Js.Str "bob") (Some 7%nat) sample_grid (1, 0) w1
              (batch ["alice"; "bob"]) H1 H2) as [[Hdb _] Hconfirm].
  split; [exact Hdb|exact Hconfirm].
Defined.

(** *** A sequence of calls, one after the other (X23) *)

Lemma calls_keep_bijection_witness :
  Consistent sample_grid
  /\ Consistent (serve_calls sample_calls sample_grid)
  /\ Bijection (serve_calls sample_calls sample_grid).
Proof.
  split; [exact sample_grid_consistent|].
  exact (calls_keep_bijection first_row sample_calls sample_grid sample_grid_consistent).
Defined.

(** *** More candidates than cells or room (C5) *)

Lemma one_free_cell_ids : NoDup (map cell_id (cells one_free)).
Proof. repeat constructor; simpl; intuition discriminate. Qed.

Lemma four_eligible : Eligible ["a"; "b"; "c"; "d"] one_free.
Proof.
  split.
  - vm_compute. repeat constructor; simpl; intuition discriminate.
  - intros u Hu. simpl in Hu.
    destruct Hu as [<-|[<-|[<-|[<-|[]]]]]; (split; [vm_compute; discriminate|reflexivity]).
Qed.

Lemma two_newcomers_eligible (n extra : nat) :
  Eligible ["newcomer"; "next"] (season_db n extra).
Proof.
  split.
  - vm_compute. repeat constructor; simpl; intuition discriminate.
  - intros u [<-|[<-|[]]]; (split; [vm_compute; discriminate|]).
    + change (normalize "newcomer") with "newcomer".
      unfold has_username, season_db; cbn [usernames].
      induction (seq 0 n) as [|i l IH]; [reflexivity|exact IH].
    + change (normalize "next") with "next".
      unfold has_username, season_db; cbn [usernames].
      induction (seq 0 n) as [|i l IH]; [reflexivity|exact IH].
Qed.

(** One claim below the cap, two free cells, two eligible candidates on the
    confirm path: one added, and the other not counted. *)
Lemma cap_reached_mid_batch :
  fst (serve (upload_confirm_handler (batch ["newcomer"; "next"])) None
             (season_db (Z.to_nat (SEASON_1_LIMIT - 1)) 2))
  = Returned (Allocated 1 0).
Proof.
  unfold batch. set (n := Z.to_nat (SEASON_1_LIMIT - 1)).
  assert (Hn : Z.of_nat n = SEASON_1_LIMIT - 1) by (unfold n; now rewrite Z2Nat.id).
  assert (Hl : ["newcomer"; "next"] <> []) by discriminate.
  destruct (upload_confirm_handler_eligible ["newcomer"; "next"] (season_db n 2) Hl
              (season_cell_ids _ _) (two_newcomers_eligible _ _)) as (db2 & E2 & _).
  change (Z.of_nat (length (usernames (season_db n 2))))
    with (claim_count (season_db n 2)) in E2.
  rewrite season_free, season_count, Hn in E2.
  change (room (SEASON_1_LIMIT - 1)) with 1%nat in E2.
  now rewrite E2.
Qed.

(** Four eligible identifiers, one free cell: one added and none skipped,
    on both paths; and the cap reached in the middle of a batch of two:
    one added, none skipped. *)
Lemma eligible_batch_skips_none :
  Eligible ["a"; "b"; "c"; "d"] one_free
  /\ free_count one_free = 1%nat
  /\ fst (serve (upload_handler (batch ["a"; "b"; "c"; "d"])) None one_free)
     = Returned (Allocated 1 0)
  /\ fst (serve (upload_handler (batch ["a"; "b"; "c"; "d"])) None one_free)
     <> Returned (Allocated 1 3)
  /\ fst (serve (upload_confirm_handler (batch ["a"; "b"; "c"; "d"])) None one_free)
     = Returned (Allocated 1 0)
  /\ fst (serve (upload_confirm_handler (batch ["a"; "b"; "c"; "d"])) None one_free)
     <> Returned (Allocated 1 3)
  /\ fst (serve (upload_confirm_handler (batch ["newcomer"; "next"])) None
                (season_db (Z.to_nat (SEASON_1_LIMIT - 1)) 2))
     = Returned (Allocated 1 0).
Proof.
  split; [exact four_eligible|].
  split; [reflexivity|].
  split; [vm_compute; reflexivity|].
  split; [vm_compute; discriminate|].
  split; [vm_compute; reflexivity|].
  split; [vm_compute; discriminate|exact cap_reached_mid_batch].
Qed.

Lemma eligible_batch_counts_witness :
  NoDup (map cell_id (cells one_free))
  /\ Eligible ["a"; "b"; "c"; "d"] one_free
  /\ free_count one_free = 1%nat
  /\ length ["a"; "b"; "c"; "d"] = (1 + 3)%nat
  /\ (exists db',
        serve (upload_handler (batch ["a"; "b"; "c"; "d"])) None one_free
        = (Returned (Allocated 1 0), db')
        /\ map username (usernames db') = ["zed"; "a"])
  /\ (exists db',
        serve (upload_confirm_handler (batch ["a"; "b"; "c"; "d"])) None one_free
        = (Returned (Allocated 1 0), db')
        /\ map username (usernames db') = ["zed"; "a"]).
Proof.
  split; [exact one_free_cell_ids|].
  split; [exact four_eligible|].
  split; [reflexivity|]. split; [reflexivity|].
  exact (eligible_batch_counts first_row 1 ["a"; "b"; "c"; "d"] one_free
           one_free_cell_ids four_eligible eq_refl eq_refl).
Defined.

(** *** The preview (C7) *)

Lemma one_free_usernames : NoDup (map username (usernames one_free)).
Proof. repeat constructor; simpl; intuition discriminate. Qed.

Lemma preview_witness :
  NoDup (map username (usernames one_free))
  /\ (let '(o, w) := run (upload_preview_handler (mkRequest None None (Some sample_rows)))
                         (mkWorld None one_free idle) in
      database w = one_free /\ session w = idle
      /\ o = Returned (Preview 3 1 2 ["amy"; "bo"])).
Proof.
  split; [exact one_free_usernames|].
  pose proof (preview_reads_and_partitions first_row None None sample_rows None
                one_free one_free_usernames) as H.
  cbv zeta in H.
  destruct (run (upload_preview_handler (mkRequest None None (Some sample_rows)))
                (mkWorld None one_free idle)) as [o w].
  destruct H as (Hdb & Hs & Ho & _).
  split; [exact Hdb|]. split; [exact Hs|].
  rewrite Ho. vm_compute. reflexivity.
Defined.

(** *** The same identifier twice in a batch (C9) *)

(** On a full grid the loop stops at the first candidate: the second
    occurrence of ["a"] is not counted as skipped.  With one free cell and
    another candidate in between, the loop stops at that one. *)
Lemma repeated_identifier_not_counted :
  serve (upload_handler (batch ["a"; "a"])) None full_grid
  = (Returned (Allocated 0 0), full_grid)
  /\ serve (upload_confirm_handler (batch ["a"; "a"])) None full_grid
     = (Returned (Allocated 0 0), full_grid)
  /\ fst (serve (upload_handler (batch ["a"; "b"; "a"])) None one_free)
     = Returned (Allocated 1 0)
  /\ fst (serve (upload_confirm_handler (batch ["a"; "b"; "a"])) None one_free)
     = Returned (Allocated 1 0).
Proof. split; [|split; [|split]]; vm_compute; reflexivity. Qed.

Lemma repeated_identifier_witness :
  In (Js.Str " Bob") [Js.Str " Bob"]
  /\ normalize " Bob" = normalize "bob "
  /\ normalize "bob " <> EmptyString
  /\ run (for_of [Js.Str " Bob"; Js.Str "bob "; Js.Str "cy"] upload_body (0, 0))
         (mkWorld None sample_grid idle)
     = run (for_of [Js.Str "cy"] upload_body (1, 1))
           (mkWorld None (allocate "bob" 1 sample_grid) idle).
Proof.
  assert (H1 : In (Js.Str " Bob") [Js.Str " Bob"]) by (now left).
  assert (H2 : normalize " Bob" = normalize "bob ") by (vm_compute; reflexivity).
  assert (H3 : normalize "bob " <> EmptyString) by (vm_compute; discriminate).
  split; [exact H1|]. split; [exact H2|]. split; [exact H3|].
  destruct (repeated_identifier_is_skipped first_row [Js.Str " Bob"] [Js.Str "cy"]
              "bob " " Bob" sample_grid H1 H2 H3) as [Hup _].
  apply (Hup (0, 0) (1, 0) (mkWorld None (allocate "bob" 1 sample_grid) idle)).
  vm_compute. reflexivity.
Defined.

(** *** Three pixels on the top row (C8) *)

(** The buffer [127; 128; 0]: the cells (1, 256) and (3, 256) are masked,
    the cell (2, 256), whose pixel has the value of the threshold, and
    the cell (1, 255), whose pixel is not in the buffer, are not. *)
Lemma applyMask_projection_witness :
  map is_mask (cells (database (snd (run (applyMask three_pixels)
                                         (mkWorld None top_cells idle)))))
  = [true; false; true; false].
Proof.
  pose proof (applyMask_projection first_row three_pixels top_cells) as H.
  destruct (run (applyMask three_pixels) (mkWorld None top_cells idle)) as [o w].
  destruct H as (_ & _ & _ & H & _). cbn [snd].
  unfold top_cells in H. cbn [cells] in H.
  inversion H as [|c1 c1' l1 l1' H1 T1 E1 E1']; subst. clear H.
  inversion T1 as [|c2 c2' l2 l2' H2 T2 E2 E2']; subst. clear T1.
  inversion T2 as [|c3 c3' l3 l3' H3 T3 E3 E3']; subst. clear T2.
  inversion T3 as [|c4 c4' l4 l4' H4 T4 E4 E4']; subst. clear T3.
  inversion T4; subst. clear T4. cbn [map].
  destruct H1 as (_ & _ & _ & _ & M1), H2 as (_ & _ & _ & _ & M2),
           H3 as (_ & _ & _ & _ & M3), H4 as (_ & _ & _ & _ & M4).
  cbn [is_mask col_x col_y] in M1, M2, M3, M4.
  assert (F1 : is_mask c1' = true).
  { apply M1. right. exists 0, 0. unfold GRID_SIZE. repeat split; try lia.
    exists 127. split; [reflexivity|]. unfold THRESHOLD. lia. }
  assert (F3 : is_mask c3' = true).
  { apply M3. right. exists 2, 0. unfold GRID_SIZE. repeat split; try lia.
    exists 0. split; [reflexivity|]. unfold THRESHOLD. lia. }
  assert (F2 : is_mask c2' = false).
  { destruct (is_mask c2'); [|reflexivity]. exfalso.
    destruct (proj1 M2 eq_refl) as [H|(px & py & Hx & Hy & Ex & Ey & b & Eb & Hb)];
      [discriminate|].
    unfold GRID_SIZE in *. assert (px = 1) by lia. assert (py = 0) by lia. subst.
    vm_compute in Eb. injection Eb as <-. unfold THRESHOLD in Hb. lia. }
  assert (F4 : is_mask c4' = false).
  { destruct (is_mask c4'); [|reflexivity]. exfalso.
    destruct (proj1 M4 eq_refl) as [H|(px & py & Hx & Hy & Ex & Ey & b & Eb & Hb)];
      [discriminate|].
    unfold GRID_SIZE in *. assert (px = 0) by lia. assert (py = 1) by lia. subst.
    vm_compute in Eb. discriminate. }
  now rewrite F1, F2, F3, F4.
Defined.

End Examples.

(** * Further properties of the handlers *)

(** ** What the allocating calls never undo *)

Lemma cells_kept_refl (l : list Cell) : Forall2 cell_kept l l.
Proof. induction l; constructor; trivial. repeat split; trivial. Qed.

Lemma cells_kept_fill (id : Z) (l l' : list Cell) :
  Forall2 cell_kept l l' -> Forall2 cell_kept l (map (fill_cell id) l').
Proof.
  induction 1 as [|c c' l l' (H1 & H2 & H3 & H4 & H5) _ IH]; simpl; constructor; trivial.
  unfold cell_kept, fill_cell. destruct (cell_id c' =? id); simpl; repeat split; trivial.
Qed.

Lemma grows_cells_kept (db db' : DB) :
  grows db db' -> Forall2 cell_kept (cells db) (cells db').
Proof.
  induction 1 as [|db' u cell Hg IH _ _ _]; [apply cells_kept_refl|].
  rewrite allocate_cells. now apply cells_kept_fill.
Qed.

(** X1. Whatever sequence of [/admin/upload] and [/admin/upload-confirm]
    calls is served, failures included: the claims that were in the
    ledger are still there, unchanged and in the same place, and the cells
    table has the same rows with the same ids, coordinates and mask flags;
    a cell that was filled stays filled. *)
Theorem calls_never_undo (P : Picker) (calls : list Call) (db : DB) :
  (exists rows, usernames (serve_calls calls db) = usernames db ++ rows)
  /\ Forall2 cell_kept (cells db) (cells (serve_calls calls db))
  /\ length (cells (serve_calls calls db)) = length (cells db).
Proof.
  pose proof (serve_calls_grows calls db) as Hg.
  split; [now apply grows_usernames|].
  pose proof (grows_cells_kept _ _ Hg) as Hk.
  split; [exact Hk|]. symmetry. eapply Forall2_length; eassumption.
Qed.

(** ** What the counts of an answer mean *)

Section TallyFacts.

Context {P : Picker}.

Lemma upload_loop_tally (l : list Js.value) (t : Z * Z) (f : option nat) (db : DB) :
  let '(o, w') := run (for_of l upload_body t) (mkWorld f db idle) in
  match o with
  | Returned (c, t') =>
      exists a s : nat,
        t' = (fst t + Z.of_nat a, snd t + Z.of_nat s)
        /\ claim_count (database w') = claim_count db + Z.of_nat a
        /\ match c with
           | Next => (a + s = length l)%nat
           | Break => (a + s < length l)%nat /\ no_free (database w')
           end
  | Thrown => True
  end.
Proof.
  revert t f db. induction l as [|x l IH]; intros t f db.
  - cbn. exists O, O. rewrite !Z.add_0_r. destruct t. repeat split; trivial.
  - cbn [for_of]. rewrite run_bind.
    pose proof (upload_body_spec x t f db) as Hb.
    destruct (run (upload_body x t) (mkWorld f db idle)) as [[[c t']|] w']; [|exact I].
    destruct Hb as [[Hs Hcases] _]. destruct w' as [f' db' s']. cbn in Hs. subst s'.
    cbn [database] in Hcases. cbn [fst snd].
    destruct Hcases as [(-> & -> & H)|[(-> & -> & H)|(-> & -> & H)]]; cbn [fate] in H.
    + destruct H as [-> _]. specialize (IH (fst t, snd t + 1) f' db).
      destruct (run (for_of l upload_body (fst t, snd t + 1)) (mkWorld f' db idle))
        as [[[c t']|] w']; [|exact I].
      destruct IH as (a & s & -> & Hc & Hl). exists a, (S s). cbn [fst snd].
      split; [f_equal; lia|]. split; [exact Hc|].
      destruct c; cbn [length]; [lia|]. split; [lia|tauto].
    + destruct H as (-> & Hfull & _). cbn. exists O, O. rewrite !Z.add_0_r.
      destruct t. repeat split; trivial. lia.
    + destruct H as (u & cell & _ & _ & _ & _ & _ & ->).
      specialize (IH (fst t + 1, snd t) f' (allocate (normalize u) (cell_id cell) db)).
      destruct (run (for_of l upload_body (fst t + 1, snd t)) _)
        as [[[c t']|] w']; [|exact I].
      destruct IH as (a & s & -> & Hc & Hl). exists (S a), s. cbn [fst snd].
      split; [f_equal; lia|]. split.
      * rewrite Hc. unfold claim_count. rewrite allocate_usernames, length_app.
        cbn [length]. lia.
      * destruct c; cbn [length]; [lia|]. split; [lia|tauto].
Qed.

Lemma confirm_loop_tally (db : DB) (l : list Js.value) (t : Tally) (f : option nat)
  (s : Session) :
  in_txn s = true -> currentCount t = claim_count (view db s) ->
  let '(o, w') := run (for_of l processUsernamesUpload_body t) (mkWorld f db s) in
  match o with
  | Returned (c, t') =>
      exists a k : nat,
        added t' = added t + Z.of_nat a /\ skipped t' = skipped t + Z.of_nat k
        /\ claim_count (view db (session w')) = claim_count (view db s) + Z.of_nat a
        /\ match c with
           | Next => (a + k = length l)%nat
           | Break => (a + k < length l)%nat
                      /\ (no_free (view db (session w'))
                          \/ SEASON_1_LIMIT <= claim_count (view db (session w')))
           end
  | Thrown => True
  end.
Proof.
  revert t f s. induction l as [|x l IH]; intros t f s Ht Hc.
  - cbn. exists O, O. rewrite !Z.add_0_r. repeat split; trivial.
  - cbn [for_of]. rewrite run_bind.
    pose proof (confirm_body_spec x t f db s Ht) as Hb.
    destruct (run (processUsernamesUpload_body x t) (mkWorld f db s))
      as [[[c t']|] w']; [|exact I].
    destruct Hb as (Hdb & [Hs Hcases] & _). destruct w' as [f' db' s'].
    cbn in Hs, Hdb. subst db'. cbn [session] in Hcases. cbn [fst snd].
    destruct Hcases as [(-> & -> & Hcap & Ev)
                       |(Hcap & [(-> & -> & H)|[(-> & -> & H)|(-> & -> & H)]])];
      cbn [fate] in *.
    + cbn. exists O, O. rewrite !Z.add_0_r, Ev. repeat split; trivial; lia.
    + destruct H as [Ev _].
      specialize (IH (mkTally (added t) (skipped t + 1) (currentCount t)) f' s' Hs).
      cbn [currentCount added skipped] in IH. rewrite Ev in IH. specialize (IH Hc).
      destruct (run (for_of l processUsernamesUpload_body _) (mkWorld f' db s'))
        as [[[c t']|] w']; [|exact I].
      destruct IH as (a & k & Ea & Ek & Hcount & Hl). exists a, (S k).
      split; [exact Ea|]. split; [lia|]. split; [exact Hcount|].
      destruct c; cbn [length]; [lia|]. split; [lia|tauto].
    + destruct H as (Ev & Hfull & _). cbn. exists O, O.
      rewrite !Z.add_0_r, Ev. repeat split; trivial; try lia. now left.
    + destruct H as (u & cell & _ & _ & _ & _ & _ & Ev).
      assert (Hc' : claim_count (view db s') = claim_count (view db s) + 1).
      { rewrite Ev. unfold claim_count. rewrite allocate_usernames, length_app.
        cbn [length]. lia. }
      specialize (IH (mkTally (added t + 1) (skipped t) (currentCount t + 1)) f' s' Hs).
      cbn [currentCount added skipped] in IH.
      assert (Hc2 : currentCount t + 1 = claim_count (view db s')) by lia.
      specialize (IH Hc2).
      destruct (run (for_of l processUsernamesUpload_body _) (mkWorld f' db s'))
        as [[[c t']|] w']; [|exact I].
      destruct IH as (a & k & Ea & Ek & Hcount & Hl). exists (S a), k.
      split; [lia|]. split; [exact Ek|]. split; [lia|].
      destruct c; cbn [length]; [lia|]. split; [lia|tauto].
Qed.

End TallyFacts.

Section AnswerFacts.

Context {P : Picker}.

Lemma rollback_answer (w : World) :
  fst (run (query Rollback ;; Ret ServerError) w) = Returned ServerError
  \/ fst (run (query Rollback ;; Ret ServerError) w) = Thrown.
Proof.
  rewrite run_bind. destruct w as [f db s].
  destruct (run_query_cases Rollback f db s) as [[_ E]|[_ E]]; rewrite E; cbn; tauto.
Qed.

Lemma upload_answer_counts (l : list Js.value) (f : option nat) (db : DB) :
  l <> [] ->
  match fst (serve (upload_handler (allocating_request l)) f db) with
  | Returned (Allocated a s) =>
      0 <= a /\ 0 <= s /\ a + s <= Z.of_nat (length l)
      /\ claim_count (snd (serve (upload_handler (allocating_request l)) f db))
         = claim_count db + a
      /\ (a + s < Z.of_nat (length l) ->
          no_free (snd (serve (upload_handler (allocating_request l)) f db)))
  | Returned BadRequest | Returned Unauthorized | Returned PreviewEmpty
  | Returned (Preview _ _ _ _) => False
  | _ => True
  end.
Proof.
  intros Hl. unfold serve, upload_handler, allocating_request. cbn [body_usernames].
  destruct l as [|x l]; [congruence|]. rewrite run_try_catch, run_bind.
  pose proof (upload_loop_tally (x :: l) (0, 0) f db) as H.
  destruct (run (for_of (x :: l) upload_body (0, 0)) (mkWorld f db idle))
    as [[[c t']|] w'].
  - destruct H as (a & s & -> & Hc & Hlen). cbn [run fst snd].
    rewrite !Z.add_0_l. split; [lia|]. split; [lia|].
    destruct c.
    + repeat split; trivial; lia.
    + destruct Hlen as [Hlt Hfull]. repeat split; trivial; lia.
  - destruct (rollback_answer w') as [E|E];
      destruct (run (query Rollback;; Ret ServerError) w') as [o w'']; cbn in *;
      now rewrite E.
Qed.

Lemma upload_confirm_answer_counts (l : list Js.value) (f : option nat) (db : DB) :
  l <> [] ->
  match fst (serve (upload_confirm_handler (allocating_request l)) f db) with
  | Returned (Allocated a s) =>
      0 <= a /\ 0 <= s /\ a + s <= Z.of_nat (length l)
      /\ claim_count (snd (serve (upload_confirm_handler (allocating_request l)) f db))
         = claim_count db + a
      /\ (a + s < Z.of_nat (length l) ->
          no_free (snd (serve (upload_confirm_handler (allocating_request l)) f db))
          \/ SEASON_1_LIMIT
             <= claim_count (snd (serve (upload_confirm_handler (allocating_request l))
                                        f db)))
  | Returned BadRequest | Returned Unauthorized | Returned PreviewEmpty
  | Returned (Preview _ _ _ _) => False
  | _ => True
  end.
Proof.
  intros Hl. unfold serve, upload_confirm_handler, allocating_request.
  cbn [body_usernames]. destruct l as [|x l]; [congruence|].
  rewrite run_try_catch.
  assert (Hcatch : forall w, match fst (let '(o, w0) :=
                        run (query Rollback;; Ret ServerError) w in (o, database w0)) with
                      | Returned (Allocated _ _) | Returned BadRequest
                      | Returned Unauthorized | Returned PreviewEmpty
                      | Returned (Preview _ _ _ _) => False
                      | _ => True
                      end).
  { intros w. destruct (rollback_answer w) as [E|E];
      destruct (run (query Rollback;; Ret ServerError) w) as [o w'']; cbn in *;
      now rewrite E. }
  rewrite run_bind.
  destruct (run_query_cases Begin f db idle) as [[_ E]|[_ E]]; rewrite E; clear E.
  { pose proof (Hcatch (mkWorld None db idle)) as H.
    destruct (fst _) as [[| | |a s| |]|]; tauto. }
  cbn [exec fst snd]. generalize (option_map Nat.pred f) as f1. intros f1.
  unfold processUsernamesUpload. rewrite !run_bind.
  set (s1 := mkSession true (writes idle) (locks idle)).
  destruct (run_query_cases SelectCount f1 db s1) as [[_ E]|[_ E]]; rewrite E; clear E.
  { pose proof (Hcatch (mkWorld None db s1)) as H.
    destruct (fst _) as [[| | |a s| |]|]; tauto. }
  cbn [exec fst snd]. generalize (option_map Nat.pred f1) as f2. intros f2.
  set (t0 := mkTally 0 0 _). rewrite run_bind.
  pose proof (confirm_loop_tally db (x :: l) t0 f2 s1 eq_refl eq_refl) as H.
  pose proof (confirm_loop_grows (x :: l) t0 f2 db s1 eq_refl) as Hg.
  destruct (run (for_of (x :: l) processUsernamesUpload_body t0) (mkWorld f2 db s1))
    as [[[c t']|] w']; destruct Hg as (Hdb & _ & _).
  - destruct H as (a & k & Ea & Ek & Hc & Hlen). destruct w' as [f3 db3 s3].
    cbn [database session] in *. subst db3.
    cbn [run]. rewrite run_bind.
    destruct (run_query_cases Commit f3 db s3) as [[_ E]|[_ E]]; rewrite E; clear E.
    { pose proof (Hcatch (mkWorld None db s3)) as H.
      destruct (fst _) as [[| | |a' s'| |]|]; tauto. }
    cbn [exec fst snd run database].
    change (view db s1) with db in Hc.
    rewrite Ea, Ek. cbn [added skipped t0]. rewrite !Z.add_0_l.
    split; [lia|]. split; [lia|].
    destruct c.
    + repeat split; trivial; lia.
    + destruct Hlen as [Hlt Hstop]. repeat split; trivial; lia.
  - pose proof (Hcatch w') as H'.
    destruct (fst _) as [[| | |a s| |]|]; tauto.
Qed.

End AnswerFacts.

Section ReturnFacts.

Context {P : Picker}.

Lemma handlers_read_usernames (req : Request) :
  upload_handler req = upload_handler (mkRequest None (body_usernames req) None)
  /\ upload_confirm_handler req
     = upload_confirm_handler (mkRequest None (body_usernames req) None).
Proof. split; reflexivity. Qed.

Lemma upload_loop_returns (l : list Js.value) (t : Z * Z) (db : DB) :
  ~ In Js.NotStr l ->
  exists r db',
    run (for_of l upload_body t) (mkWorld None db idle)
    = (Returned r, mkWorld None db' idle).
Proof.
  revert t db. induction l as [|x l IH]; intros t db Hin.
  - cbn. eauto.
  - cbn [for_of]. rewrite run_bind.
    pose proof (upload_body_spec x t None db) as Hb.
    destruct (run (upload_body x t) (mkWorld None db idle)) as [o w'].
    destruct Hb as [Hcases Hf]. destruct (Hf eq_refl) as [Hf' Hthrown].
    destruct o as [[c t']|].
    + destruct Hcases as [Hs _]. destruct w' as [f' db' s']. cbn in Hs, Hf'. subst.
      cbn [fst snd]. destruct c; [|cbn; eauto].
      apply IH. intros H. apply Hin. now right.
    + exfalso. apply Hin. left. now apply Hthrown.
Qed.

Lemma confirm_loop_returns (db : DB) (l : list Js.value) (t : Tally) (s : Session) :
  in_txn s = true -> ~ In Js.NotStr l ->
  exists r s',
    run (for_of l processUsernamesUpload_body t) (mkWorld None db s)
    = (Returned r, mkWorld None db s').
Proof.
  revert t s. induction l as [|x l IH]; intros t s Ht Hin.
  - cbn. eauto.
  - cbn [for_of]. rewrite run_bind.
    pose proof (confirm_body_spec x t None db s Ht) as Hb.
    destruct (run (processUsernamesUpload_body x t) (mkWorld None db s)) as [o w'].
    destruct Hb as (Hdb & Hcases & Hf). destruct (Hf eq_refl) as [Hf' Hthrown].
    destruct o as [[c t']|].
    + destruct Hcases as [Hs _]. destruct w' as [f' db' s']. cbn in Hs, Hf', Hdb. subst.
      cbn [fst snd]. destruct c; [|cbn; eauto].
      apply IH; trivial. intros H. apply Hin. now right.
    + exfalso. apply Hin. left. now apply Hthrown.
Qed.

Lemma upload_succeeds (l : list Js.value) (db : DB) :
  l <> [] -> ~ In Js.NotStr l ->
  exists a s,
    fst (serve (upload_handler (allocating_request l)) None db)
    = Returned (Allocated a s).
Proof.
  intros Hl Hin. unfold serve, upload_handler, allocating_request.
  cbn [body_usernames]. destruct l as [|x l]; [congruence|].
  rewrite run_try_catch, run_bind.
  destruct (upload_loop_returns (x :: l) (0, 0) db Hin) as (r & db' & E).
  rewrite E. cbn. eauto.
Qed.

Lemma upload_confirm_succeeds (l : list Js.value) (db : DB) :
  l <> [] -> ~ In Js.NotStr l ->
  exists a s,
    fst (serve (upload_confirm_handler (allocating_request l)) None db)
    = Returned (Allocated a s).
Proof.
  intros Hl Hin. unfold serve, upload_confirm_handler, allocating_request.
  cbn [body_usernames]. destruct l as [|x l]; [congruence|].
  rewrite run_try_catch, run_bind, run_query.
  cbn [fault database session exec option_map idle writes locks].
  unfold processUsernamesUpload. rewrite !run_bind, run_query.
  cbn [fault database session exec option_map].
  set (s1 := mkSession true [] []). set (t0 := mkTally 0 0 _).
  destruct (confirm_loop_returns db (x :: l) t0 s1 eq_refl Hin) as (r & s' & E).
  rewrite run_bind, E. cbn [run]. rewrite run_bind, run_query.
  cbn [fault database session exec option_map run fst snd]. eauto.
Qed.

End ReturnFacts.

(** X2. A call of [/admin/upload] with a non-empty list that runs alone,
    no statement of another request coming between its own: it never
    answers 400.  When it answers with counts, [added] is exactly the
    number of claims the ledger has gained, the counts are not negative
    and together at most the number of candidates; and if they are fewer
    than the candidates, the grid has no free cell left.  (In a call that
    overlaps another one, [added] also counts an insert that
    [ON CONFLICT DO NOTHING] has dropped.) *)
Theorem upload_counts_are_claims (P : Picker) (x : Js.value) (l : list Js.value)
  (f : option nat) (db : DB) :
  match fst (serve (upload_handler (allocating_request (x :: l))) f db) with
  | Returned (Allocated a s) =>
      0 <= a /\ 0 <= s /\ a + s <= Z.of_nat (length (x :: l))
      /\ claim_count (snd (serve (upload_handler (allocating_request (x :: l))) f db))
         = claim_count db + a
      /\ (a + s < Z.of_nat (length (x :: l)) ->
          no_free (snd (serve (upload_handler (allocating_request (x :: l))) f db)))
  | Returned BadRequest | Returned Unauthorized | Returned PreviewEmpty
  | Returned (Preview _ _ _ _) => False
  | _ => True
  end.
Proof. apply upload_answer_counts. discriminate. Qed.

(** X3. The same on [/admin/upload-confirm]; there, counts that are fewer
    than the candidates mean that the grid is full or that the ledger has
    reached the cap. *)
Theorem upload_confirm_counts_are_claims (P : Picker) (x : Js.value)
  (l : list Js.value) (f : option nat) (db : DB) :
  match fst (serve (upload_confirm_handler (allocating_request (x :: l))) f db) with
  | Returned (Allocated a s) =>
      0 <= a /\ 0 <= s /\ a + s <= Z.of_nat (length (x :: l))
      /\ claim_count (snd (serve (upload_confirm_handler (allocating_request (x :: l)))
                                 f db))
         = claim_count db + a
      /\ (a + s < Z.of_nat (length (x :: l)) ->
          no_free (snd (serve (upload_confirm_handler (allocating_request (x :: l)))
                              f db))
          \/ SEASON_1_LIMIT
             <= claim_count (snd (serve (upload_confirm_handler
                                           (allocating_request (x :: l))) f db)))
  | Returned BadRequest | Returned Unauthorized | Returned PreviewEmpty
  | Returned (Preview _ _ _ _) => False
  | _ => True
  end.
Proof. apply upload_confirm_answer_counts. discriminate. Qed.

(** X4. A full grid and a reached cap are not errors: when no statement
    fails and every element of the (non-empty) list is a string, both
    allocating routes answer 200 with counts, whatever the tables hold.
    A request whose body was not parsed makes both handlers throw at
    their first line, before the [try] and before any statement (the
    answer is then the framework's, not the handler's 400); with a parsed
    body whose [usernames] is not an array, or is an empty one, they
    answer 400 and leave the tables alone. *)
Theorem allocation_answers_with_counts (P : Picker) (x : string) (l : list string)
  (req : Request) (f : option nat) (db : DB) :
  (exists a s,
     fst (serve (upload_handler (allocating_request (map Js.Str (x :: l)))) None db)
     = Returned (Allocated a s))
  /\ (exists a s,
        fst (serve (upload_confirm_handler (allocating_request (map Js.Str (x :: l))))
                   None db)
        = Returned (Allocated a s))
  /\ serve (on_body false upload_handler req) f db = (Thrown, db)
  /\ serve (on_body false upload_confirm_handler req) f db = (Thrown, db)
  /\ match body_usernames req with
     | None | Some [] =>
         serve (on_body true upload_handler req) f db = (Returned BadRequest, db)
         /\ serve (on_body true upload_confirm_handler req) f db
            = (Returned BadRequest, db)
     | Some (_ :: _) => True
     end.
Proof.
  assert (Hin : ~ In Js.NotStr (map Js.Str (x :: l))).
  { intros H. apply in_map_iff in H. destruct H as (y & E & _). discriminate. }
  split; [apply upload_succeeds; [discriminate|exact Hin]|].
  split; [apply upload_confirm_succeeds; [discriminate|exact Hin]|].
  split; [reflexivity|]. split; [reflexivity|]. cbn [on_body].
  destruct (handlers_read_usernames req) as [-> ->].
  destruct (body_usernames req) as [[|y l']|]; try exact I; split; reflexivity.
Qed.

(** ** Sending a batch again *)

Section ReplayFacts.

Context {P : Picker}.

Lemma upload_body_empty (x : string) (t : Z * Z) (w : World) :
  normalize x = EmptyString ->
  run (upload_body (Js.Str x) t) w = (Returned (Next, (fst t, snd t + 1)), w).
Proof. intros E. unfold upload_body. cbv zeta. now rewrite E. Qed.

Lemma upload_body_settled (x : Js.value) (t : Z * Z) (db v : DB) :
  fate Skipped x v v -> grows v db ->
  run (upload_body x t) (mkWorld None db idle)
  = (Returned (Next, (fst t, snd t + 1)), mkWorld None db idle).
Proof.
  intros (_ & s & -> & H) Hg.
  destruct (string_dec (normalize s) EmptyString) as [E|E].
  - now apply upload_body_empty.
  - apply upload_body_known; trivial. apply (grows_has_username v); trivial.
    destruct H as [H|H]; [contradiction|exact H].
Qed.

Lemma upload_loop_replay (l : list Js.value) (t t2 : Z * Z) (db : DB) :
  let '(o, w1) := run (for_of l upload_body t) (mkWorld None db idle) in
  snd (run (for_of l upload_body t2) (mkWorld None (database w1) idle))
  = mkWorld None (database w1) idle.
Proof.
  revert t t2 db. induction l as [|x l IH]; intros t t2 db; [reflexivity|].
  cbn [for_of]. rewrite run_bind.
  pose proof (upload_body_spec x t None db) as Hb.
  destruct (run (upload_body x t) (mkWorld None db idle)) as [o w'] eqn:E1.
  destruct Hb as [Hcases Hf]. destruct (Hf eq_refl) as [Hf' Hthrown].
  destruct w' as [f' db' s']. cbn in Hf'. subst f'.
  destruct o as [[c t']|].
  - destruct Hcases as [Hs Hcases]. cbn in Hs. subst s'. cbn [database] in Hcases.
    cbn [fst snd].
    destruct Hcases as [(-> & -> & H)|[(-> & -> & H)|(-> & -> & H)]].
    + pose proof H as [-> _].
      specialize (IH (fst t, snd t + 1) (fst t2, snd t2 + 1) db).
      pose proof (upload_loop_grows l (fst t, snd t + 1) None db) as Hg.
      destruct (run (for_of l upload_body (fst t, snd t + 1)) (mkWorld None db idle))
        as [o w1]. destruct Hg as (Hg & _ & _).
      rewrite run_bind, (upload_body_settled x t2 (database w1) db H Hg).
      exact IH.
    + pose proof H as (-> & Hfull & s & -> & Hne & Hfresh). cbn [run database].
      rewrite run_bind.
      pose proof (upload_body_spec (Js.Str s) t2 None db) as Hb2.
      destruct (run (upload_body (Js.Str s) t2) (mkWorld None db idle)) as [o2 w2].
      destruct Hb2 as [Hc2 Hf2]. destruct (Hf2 eq_refl) as [Hf2' Ht2].
      destruct o2 as [[c2 t2']|]; [|now specialize (Ht2 eq_refl)].
      destruct Hc2 as [Hs2 Hc2]. destruct w2 as [f2 db2 s2]. cbn in Hs2, Hf2'. subst.
      cbn [database] in Hc2. cbn [fst snd].
      destruct Hc2 as [(_ & _ & H2)|[(-> & _ & H2)|(_ & _ & H2)]]; cbn [fate] in H2.
      * destruct H2 as (_ & s' & Es & [H2|H2]); injection Es as <-; congruence.
      * destruct H2 as [-> _]. reflexivity.
      * destruct H2 as (s' & cell & _ & _ & _ & Hin & Hfree & _).
        rewrite (Hfull cell Hin) in Hfree. discriminate.
    + pose proof H as (s & cell & -> & Hne & Hfresh & Hin & Hfree & ->).
      set (db1 := allocate (normalize s) (cell_id cell) db).
      specialize (IH (fst t + 1, snd t) (fst t2, snd t2 + 1) db1).
      pose proof (upload_loop_grows l (fst t + 1, snd t) None db1) as Hg.
      destruct (run (for_of l upload_body (fst t + 1, snd t)) (mkWorld None db1 idle))
        as [o w1]. destruct Hg as (Hg & _ & _).
      rewrite run_bind, upload_body_known; trivial.
      apply (grows_has_username db1); trivial.
      unfold db1. rewrite has_username_allocate, String.eqb_refl. apply orb_true_r.
  - cbn [database] in *. subst db'. rewrite (Hthrown eq_refl). reflexivity.
Qed.

Lemma upload_handler_replay (req : Request) (db : DB) :
  snd (serve (upload_handler req) None (snd (serve (upload_handler req) None db)))
  = snd (serve (upload_handler req) None db).
Proof.
  unfold serve, upload_handler.
  destruct (body_usernames req) as [[|x l]|]; try reflexivity.
  rewrite !run_try_catch, !run_bind.
  pose proof (upload_loop_replay (x :: l) (0, 0) (0, 0) db) as H.
  destruct (run (for_of (x :: l) upload_body (0, 0)) (mkWorld None db idle))
    as [[r|] w1].
  - cbn [run snd]. 
    destruct (run (for_of (x :: l) upload_body (0, 0)) (mkWorld None (database w1) idle))
      as [[r2|] w2]; cbn [snd] in H; subst w2; reflexivity.
  - pose proof (run_rollback w1) as Er.
    destruct (run (query Rollback;; Ret ServerError) w1) as [o1 w1'].
    cbn [snd] in *. rewrite Er.
    destruct (run (for_of (x :: l) upload_body (0, 0)) (mkWorld None (database w1) idle))
      as [[r2|] w2]; cbn [snd] in H; subst w2; reflexivity.
Qed.

End ReplayFacts.

Section ReplayConfirm.

Context {P : Picker}.

Lemma confirm_body_settled (db : DB) (x : string) (t : Tally) (s : Session) :
  normalize x = EmptyString \/ has_username (normalize x) (view db s) = true ->
  run (processUsernamesUpload_body (Js.Str x) t) (mkWorld None db s)
  = if SEASON_1_LIMIT <=? currentCount t
    then (Returned (Break, t), mkWorld None db s)
    else (Returned (Next, mkTally (added t) (skipped t + 1) (currentCount t)),
          mkWorld None db s).
Proof.
  intros H. destruct (string_dec (normalize x) EmptyString) as [E|E].
  - unfold processUsernamesUpload_body. cbv zeta. rewrite E.
    destruct (SEASON_1_LIMIT <=? currentCount t); reflexivity.
  - apply confirm_body_known; trivial. destruct H; [contradiction|assumption].
Qed.

Lemma confirm_loop_replay (db : DB) (l : list Js.value) (t : Tally) (s : Session) :
  in_txn s = true -> currentCount t = claim_count (view db s) ->
  let '(o, w1) := run (for_of l processUsernamesUpload_body t) (mkWorld None db s) in
  match o with
  | Returned _ =>
      forall db2 s2 t2,
        in_txn s2 = true -> view db2 s2 = view db (session w1) ->
        currentCount t2 = claim_count (view db2 s2) ->
        exists r s2',
          run (for_of l processUsernamesUpload_body t2) (mkWorld None db2 s2)
          = (Returned r, mkWorld None db2 s2')
          /\ in_txn s2' = true /\ view db2 s2' = view db2 s2
  | Thrown => True
  end.
Proof.
  revert t s. induction l as [|x l IH]; intros t s Ht Hc.
  - cbn. intros db2 s2 t2 Ht2 _ _. eauto.
  - cbn [for_of]. rewrite run_bind.
    pose proof (confirm_body_spec x t None db s Ht) as Hb.
    destruct (run (processUsernamesUpload_body x t) (mkWorld None db s)) as [o w'].
    destruct Hb as (Hdb & Hcases & Hf). destruct (Hf eq_refl) as [Hf' _].
    destruct w' as [f' db' s']. cbn in Hf', Hdb. subst f' db'.
    destruct o as [[c t']|]; [|exact I].
    destruct Hcases as [Hs Hcases]. cbn [session] in Hs, Hcases. cbn [fst snd].
    destruct Hcases as [(-> & -> & Hcap & Ev)
                       |(Hcap & [(-> & -> & H)|[(-> & -> & H)|(-> & -> & H)]])].
    + cbn [run session]. intros db2 s2 t2 Ht2 Ev2 Hc2.
      exists (Break, t2), s2. rewrite run_bind.
      assert (El : (SEASON_1_LIMIT <=? currentCount t2) = true).
      { apply Z.leb_le. rewrite Hc2, Ev2, Ev, <- Hc. exact Hcap. }
      unfold processUsernamesUpload_body at 1. rewrite El. cbn. repeat split; trivial.
    + pose proof H as [Ev (u & -> & Hu)]. 
      specialize (IH (mkTally (added t) (skipped t + 1) (currentCount t)) s' Hs).
      cbn [currentCount] in IH. rewrite Ev in IH. specialize (IH Hc).
      pose proof (confirm_loop_grows l (mkTally (added t) (skipped t + 1) (currentCount t))
                    None db s' Hs) as Hg.
      destruct (run (for_of l processUsernamesUpload_body _) (mkWorld None db s'))
        as [[r|] w1]; [|exact I].
      destruct Hg as (_ & Hg & _). destruct (Hg r eq_refl) as [_ Hg'].
      rewrite Ev in Hg'.
      intros db2 s2 t2 Ht2 Ev2 Hc2. rewrite run_bind, confirm_body_settled.
      * destruct (SEASON_1_LIMIT <=? currentCount t2).
        -- cbn. exists (Break, t2), s2. repeat split; trivial.
        -- cbn [fst snd]. apply IH; trivial.
      * rewrite Ev2. destruct Hu as [Hu|Hu]; [now left|right].
        now apply (grows_has_username (view db s)).
    + pose proof H as (Ev & Hfull & u & -> & Hne & Hfresh).
      cbn [run session]. intros db2 s2 t2 Ht2 Ev2 Hc2. rewrite run_bind.
      pose proof (confirm_body_spec (Js.Str u) t2 None db2 s2 Ht2) as Hb2.
      destruct (run (processUsernamesUpload_body (Js.Str u) t2) (mkWorld None db2 s2))
        as [o2 w2].
      destruct Hb2 as (Hdb2 & Hc2' & Hf2). destruct (Hf2 eq_refl) as [Hf2' Hth2].
      destruct o2 as [[c2 t2']|]; [|now destruct (Hth2 eq_refl)].
      destruct Hc2' as [Hs2 Hc2']. destruct w2 as [f2 db2' s2'].
      cbn in Hs2, Hf2', Hdb2. subst f2 db2'. cbn [session] in Hc2'. cbn [fst snd].
      rewrite Ev2, Ev in Hc2'.
      destruct Hc2' as [(-> & -> & _ & Ev3)
                       |(_ & [(_ & _ & H2)|[(-> & -> & H2)|(_ & _ & H2)]])];
        cbn [fate] in *.
      * cbn. exists (Break, t2), s2'. repeat split; trivial. now rewrite Ev3, Ev2, Ev.
      * destruct H2 as (_ & u' & Eu & [H2|H2]); injection Eu as <-; congruence.
      * destruct H2 as (Ev3 & _). cbn. exists (Break, t2), s2'.
        repeat split; trivial. now rewrite Ev3, Ev2, Ev.
      * destruct H2 as (u' & cell & _ & _ & _ & Hin & Hfree & _).
        rewrite (Hfull cell Hin) in Hfree. discriminate.
    + pose proof H as (u & cell & -> & Hne & Hfresh & Hin & Hfree & Ev).
      assert (Hc' : currentCount t + 1 = claim_count (view db s')).
      { rewrite Ev. unfold claim_count in *. rewrite allocate_usernames, length_app.
        cbn [length]. lia. }
      specialize (IH (mkTally (added t + 1) (skipped t) (currentCount t + 1)) s' Hs Hc').
      pose proof (confirm_loop_grows l
                    (mkTally (added t + 1) (skipped t) (currentCount t + 1))
                    None db s' Hs) as Hg.
      destruct (run (for_of l processUsernamesUpload_body _) (mkWorld None db s'))
        as [[r|] w1]; [|exact I].
      destruct Hg as (_ & Hg & _). destruct (Hg r eq_refl) as [_ Hg'].
      intros db2 s2 t2 Ht2 Ev2 Hc2. rewrite run_bind, confirm_body_settled.
      * destruct (SEASON_1_LIMIT <=? currentCount t2).
        -- cbn. exists (Break, t2), s2. repeat split; trivial.
        -- cbn [fst snd]. apply IH; trivial.
      * right. rewrite Ev2. apply (grows_has_username (view db s')); trivial.
        rewrite Ev, has_username_allocate, String.eqb_refl. apply orb_true_r.
Qed.

Lemma upload_confirm_handler_replay (req : Request) (db : DB) :
  snd (serve (upload_confirm_handler req) None
             (snd (serve (upload_confirm_handler req) None db)))
  = snd (serve (upload_confirm_handler req) None db).
Proof.
  pose proof (confirm_failure_keeps_nothing req None db) as Hfail.
  destruct (fst (serve (upload_confirm_handler req) None db))
    as [[| | |a sk| |]|] eqn:Eo; try (now rewrite Hfail).
  clear Hfail. revert Eo. unfold serve, upload_confirm_handler.
  destruct (body_usernames req) as [[|x l]|]; try discriminate.
  rewrite !run_try_catch, !run_bind, !run_query.
  cbn [fault database session exec option_map idle writes locks].
  unfold processUsernamesUpload. rewrite !run_bind, !run_query.
  cbn [fault database session exec option_map].
  set (s1 := mkSession true [] []).
  change (view db s1) with db.
  set (t0 := mkTally 0 0 (Z.of_nat (length (usernames db)))).
  rewrite run_bind.
  pose proof (confirm_loop_replay db (x :: l) t0 s1 eq_refl eq_refl) as H.
  pose proof (confirm_loop_grows (x :: l) t0 None db s1 eq_refl) as Hg.
  destruct (run (for_of (x :: l) processUsernamesUpload_body t0) (mkWorld None db s1))
    as [[r|] w1]; destruct Hg as (Hdb & _ & Hnone).
  - destruct w1 as [f1 db1 s1']. cbn in Hdb, Hnone. specialize (Hnone eq_refl).
    subst f1 db1. cbn [run]. rewrite run_bind, run_query.
    cbn [fault database session exec option_map run fst snd]. intros _.
    set (db1 := view db s1').
    change (view db1 s1) with db1.
    set (t1 := mkTally 0 0 (Z.of_nat (length (usernames db1)))).
    destruct (H db1 s1 t1 eq_refl eq_refl eq_refl) as (r2 & s2' & E2 & Ht2 & Ev2).
    rewrite run_bind, E2. cbn [run]. rewrite run_bind, run_query.
    cbn [fault database session exec option_map run fst snd]. exact Ev2.
  - intros Eo. exfalso. revert Eo.
    pose proof (rollback_answer w1) as [E|E];
      destruct (run (query Rollback;; Ret ServerError) w1) as [o w]; cbn in *;
      rewrite E; discriminate.
Qed.

End ReplayConfirm.

(** X5. Sending the same request again changes nothing: after a call of
    [/admin/upload] or of [/admin/upload-confirm] in which no statement
    fails, a second call with the same body leaves the tables exactly as
    the first one left them, whether the first one stopped early or not. *)
Theorem resubmission_changes_nothing (P : Picker) (req : Request) (db : DB) :
  snd (serve (upload_handler req) None (snd (serve (upload_handler req) None db)))
  = snd (serve (upload_handler req) None db)
  /\ snd (serve (upload_confirm_handler req) None
                (snd (serve (upload_confirm_handler req) None db)))
     = snd (serve (upload_confirm_handler req) None db).
Proof.
  split; [apply upload_handler_replay|apply upload_confirm_handler_replay].
Qed.

(** ** The mask script: failures, a second run, the count *)

Lemma mask_db_kept (h hit : Z -> Z -> bool) (db : DB) :
  (forall a b, h a b = true -> hit a b = true) ->
  Forall2 (mask_kept hit) (cells db) (cells (mask_db h db)).
Proof.
  intros Hh. unfold mask_db; cbn [cells].
  induction (cells db) as [|c l IH]; cbn [map]; constructor; trivial.
  unfold mask_kept, mask_where. destruct (h (col_x c) (col_y c)) eqn:E; cbn.
  - repeat split; trivial. intros _. right. now apply Hh.
  - repeat split; trivial. now left.
Qed.

Lemma row_hits_cons (data : list Z) (px : Z) (xs : list Z) (py a b : Z) :
  row_hits data (px :: xs) py a b
  = pixel_hits data py px a b || row_hits data xs py a b.
Proof. reflexivity. Qed.

Section MaskRuns.

Context {P : Picker}.
Variable data : list Z.

Lemma run_pixels_any (py : Z) (xs : list Z) (count : Z) (f : option nat) (db : DB) :
  let '(o, w') := run (for_of xs (applyMask_pixel data py) count) (mkWorld f db idle) in
  session w' = idle
  /\ exists h, database w' = mask_db h db
               /\ forall a b, h a b = true -> row_hits data xs py a b = true.
Proof.
  revert count f db. induction xs as [|px xs IH]; intros count f db.
  - cbn. split; [reflexivity|]. exists (fun _ _ => false).
    split; [now rewrite mask_db_none|discriminate].
  - cbn [for_of]. rewrite run_bind. unfold applyMask_pixel at 1.
    destruct (dark data (py * GRID_SIZE + px)) eqn:Ed.
    + rewrite run_bind.
      destruct (run_query_cases (UpdateMask (px + 1) (GRID_SIZE - py)) f db idle)
        as [[_ E]|[_ E]]; rewrite E; clear E.
      * cbn. split; [reflexivity|]. exists (fun _ _ => false).
        split; [now rewrite mask_db_none|discriminate].
      * cbn [exec fst snd do_write idle in_txn run].
        generalize (option_map Nat.pred f) as f1. intros f1.
        specialize (IH (count + 1) f1 (apply_write (WMask (px + 1) (GRID_SIZE - py)) db)).
        destruct (run (for_of xs (applyMask_pixel data py) (count + 1)) _) as [o w'].
        destruct IH as (Hs & h & Edb & Hh). split; [exact Hs|].
        exists (fun a b => ((a =? px + 1) && (b =? GRID_SIZE - py)) || h a b).
        split.
        -- rewrite Edb.
           change (apply_write (WMask (px + 1) (GRID_SIZE - py)) db)
             with (mask_db (fun a b => (a =? px + 1) && (b =? GRID_SIZE - py)) db).
           apply mask_db_compose.
        -- intros a b H. rewrite row_hits_cons. unfold pixel_hits.
           rewrite Ed. apply orb_true_iff in H. destruct H as [H|H].
           ++ now rewrite H.
           ++ rewrite (Hh a b H). apply orb_true_r.
    + cbn [run fst snd]. specialize (IH count f db).
      destruct (run (for_of xs (applyMask_pixel data py) count) _) as [o w'].
      destruct IH as (Hs & h & Edb & Hh). split; [exact Hs|].
      exists h. split; [exact Edb|]. intros a b H. rewrite row_hits_cons.
      rewrite (Hh a b H). apply orb_true_r.
Qed.

Lemma run_rows_any (ys : list Z) (count : Z) (f : option nat) (db : DB) :
  let '(o, w') := run (for_of ys (applyMask_row data) count) (mkWorld f db idle) in
  session w' = idle
  /\ exists h, database w' = mask_db h db
               /\ forall a b, h a b = true ->
                    existsb (fun py => row_hits data (range GRID_SIZE) py a b) ys = true.
Proof.
  revert count f db. induction ys as [|py ys IH]; intros count f db.
  - cbn. split; [reflexivity|]. exists (fun _ _ => false).
    split; [now rewrite mask_db_none|discriminate].
  - cbn [for_of]. rewrite run_bind. unfold applyMask_row at 1.
    pose proof (run_pixels_any py (range GRID_SIZE) count f db) as H1.
    destruct (run (for_of (range GRID_SIZE) (applyMask_pixel data py) count) _)
      as [[[c c1]|] w1]; destruct H1 as (Hs1 & h1 & E1 & Hh1).
    + destruct w1 as [f1 db1 s1]. cbn in Hs1, E1. subst s1 db1. cbn [fst snd].
      assert (Hrest : forall w2 : World,
                 (session w2 = idle
                  /\ exists h, database w2 = mask_db h (mask_db h1 db)
                       /\ forall a b, h a b = true ->
                            existsb (fun py => row_hits data (range GRID_SIZE) py a b) ys
                            = true) ->
                 session w2 = idle
                 /\ exists h, database w2 = mask_db h db
                      /\ forall a b, h a b = true ->
                           existsb (fun py => row_hits data (range GRID_SIZE) py a b)
                                   (py :: ys) = true).
      { intros w2 (Hs & h & Edb & Hh). split; [exact Hs|].
        exists (fun a b => h1 a b || h a b). split.
        - rewrite Edb. apply mask_db_compose.
        - intros a b H. cbn [existsb]. apply orb_true_iff in H. destruct H as [H|H].
          + now rewrite (Hh1 a b H).
          + rewrite (Hh a b H). apply orb_true_r. }
      destruct c.
      * specialize (IH c1 f1 (mask_db h1 db)).
        destruct (run (for_of ys (applyMask_row data) c1) _) as [o w2].
        now apply Hrest.
      * cbn [run]. apply Hrest. cbn. split; [reflexivity|].
        exists (fun _ _ => false). split; [now rewrite mask_db_none|discriminate].
    + split; [exact Hs1|]. exists h1. split; [exact E1|].
      intros a b H. cbn [existsb]. now rewrite (Hh1 a b H).
Qed.

Lemma applyMask_run (db : DB) :
  exists count,
    run (applyMask data) (mkWorld None db idle)
    = (Returned count, mkWorld None (mask_db (masked_by data) db) idle).
Proof.
  unfold applyMask. rewrite run_bind.
  destruct (run_rows data (range GRID_SIZE) 0 db) as [count E]. rewrite E.
  exists count. cbn [run snd].
  rewrite (mask_db_ext _ (masked_by data)); [reflexivity|].
  intros a b. apply grid_hits.
Qed.

End MaskRuns.

(** X6. Whenever the script stops, at its end or at a failed statement:
    the claims are untouched; every cell keeps its id, its coordinates and
    [filled]; no mask flag is cleared; and a flag is set only on a cell
    that lies on the grid and whose pixel is dark. *)
Theorem applyMask_only_masks_dark (P : Picker) (data : list Z) (f : option nat)
  (db : DB) :
  let '(o, w') := run (applyMask data) (mkWorld f db idle) in
  usernames (database w') = usernames db
  /\ Forall2 (mask_kept (masked_by data)) (cells db) (cells (database w')).
Proof.
  unfold applyMask. rewrite run_bind.
  pose proof (run_rows_any data (range GRID_SIZE) 0 f db) as H.
  destruct (run (for_of (range GRID_SIZE) (applyMask_row data) 0) (mkWorld f db idle))
    as [[r|] w']; destruct H as (_ & h & Edb & Hh); cbn [run database];
    rewrite Edb; (split; [reflexivity|]); apply mask_db_kept; intros a b H;
    rewrite <- grid_hits; now apply Hh.
Qed.

(** X7. Running the script a second time on the same image changes
    nothing: the tables after the second complete run are those after the
    first. *)
Theorem applyMask_twice (P : Picker) (data : list Z) (db : DB) :
  database (snd (run (applyMask data)
                     (mkWorld None
                        (database (snd (run (applyMask data) (mkWorld None db idle))))
                        idle)))
  = database (snd (run (applyMask data) (mkWorld None db idle))).
Proof.
  destruct (applyMask_run data db) as [c1 E1]. rewrite E1. cbn [snd database].
  destruct (applyMask_run data (mask_db (masked_by data) db)) as [c2 E2]. rewrite E2.
  cbn [snd database]. rewrite mask_db_compose. apply mask_db_ext.
  intros a b. apply orb_diag.
Qed.

Lemma range_from_app (start : Z) (n k : nat) :
  range_from start (n + k) = range_from start n ++ range_from (start + Z.of_nat n) k.
Proof.
  revert start. induction n as [|n IH]; intros start.
  - cbn [Nat.add range_from app]. f_equal. lia.
  - cbn [Nat.add range_from app]. f_equal. rewrite IH. do 2 f_equal. lia.
Qed.

Lemma range_from_shift (k start : Z) (n : nat) :
  map (fun x => k + x) (range_from start n) = range_from (k + start) n.
Proof.
  revert start. induction n as [|n IH]; intros start; [reflexivity|].
  cbn [range_from map]. f_equal. rewrite IH. f_equal. lia.
Qed.

Lemma rows_of_indices (n : nat) (a : Z) (m : nat) :
  flat_map (fun py => map (fun px => py * Z.of_nat n + px) (range_from 0 n))
           (range_from a m)
  = range_from (a * Z.of_nat n) (m * n).
Proof.
  revert a. induction m as [|m IH]; intros a; [reflexivity|].
  cbn [range_from flat_map Nat.mul]. rewrite range_from_app, IH, range_from_shift.
  do 2 f_equal; lia.
Qed.

Lemma pixel_indices_range : pixel_indices = range (GRID_SIZE * GRID_SIZE).
Proof.
  unfold pixel_indices, range.
  assert (E : GRID_SIZE = Z.of_nat (Z.to_nat GRID_SIZE)) by (now rewrite Z2Nat.id).
  revert E. generalize (Z.to_nat GRID_SIZE) as n. intros n E. rewrite E.
  rewrite rows_of_indices, <- Nat2Z.inj_mul, Nat2Z.id. reflexivity.
Qed.

Section MaskCount.

Context {P : Picker}.
Variable data : list Z.

Lemma run_pixels_count (py : Z) (xs : list Z) (count : Z) (db : DB) :
  fst (run (for_of xs (applyMask_pixel data py) count) (mkWorld None db idle))
  = Returned (Next, count + Z.of_nat (length (filter (dark data)
                                            (map (fun px => py * GRID_SIZE + px) xs)))).
Proof.
  revert count db. induction xs as [|px xs IH]; intros count db.
  - cbn. now rewrite Z.add_0_r.
  - cbn [for_of map filter]. rewrite run_bind. unfold applyMask_pixel at 1.
    destruct (dark data (py * GRID_SIZE + px)) eqn:Ed.
    + rewrite run_bind, run_query.
      cbn [fault database session exec do_write idle in_txn option_map run fst snd].
      rewrite IH. cbn [length]. do 2 f_equal. lia.
    + cbn [run fst snd]. apply IH.
Qed.

Lemma run_rows_count (ys : list Z) (count : Z) (db : DB) :
  fst (run (for_of ys (applyMask_row data) count) (mkWorld None db idle))
  = Returned (Next, count + Z.of_nat (length (filter (dark data)
       (flat_map (fun py => map (fun px => py * GRID_SIZE + px) (range GRID_SIZE)) ys)))).
Proof.
  revert count db. induction ys as [|py ys IH]; intros count db.
  - cbn. now rewrite Z.add_0_r.
  - cbn [for_of flat_map]. rewrite run_bind. unfold applyMask_row at 1.
    pose proof (run_pixels_count py (range GRID_SIZE) count db) as E1.
    destruct (run_pixels data py (range GRID_SIZE) count db) as [c1 E1'].
    rewrite E1' in *. cbn [fst snd] in *.
    assert (Ec : c1 = count + Z.of_nat (length (filter (dark data)
                   (map (fun px => py * GRID_SIZE + px) (range GRID_SIZE)))))
      by congruence.
    rewrite IH, filter_app, length_app, Ec. do 2 f_equal. lia.
Qed.

End MaskCount.

(** The count of a complete run, by the script's own test. *)
Lemma applyMask_count_dark (P : Picker) (data : list Z) (db : DB) :
  fst (run (applyMask data) (mkWorld None db idle))
  = Returned (Z.of_nat (length (filter (dark data) (range (GRID_SIZE * GRID_SIZE))))).
Proof.
  unfold applyMask. rewrite run_bind.
  pose proof (run_rows_count data (range GRID_SIZE) 0 db) as E.
  destruct (run (for_of (range GRID_SIZE) (applyMask_row data) 0) (mkWorld None db idle))
    as [o w]. cbn [fst] in E. subst o. cbn [run fst snd].
  fold pixel_indices. now rewrite pixel_indices_range.
Qed.

Lemma range_from_NoDup (start : Z) (n : nat) : NoDup (range_from start n).
Proof.
  revert start. induction n as [|n IH]; intros start; cbn [range_from]; constructor.
  - intros H. apply range_from_In in H. lia.
  - apply IH.
Qed.

Lemma range_from_length (start : Z) (n : nat) : length (range_from start n) = n.
Proof. revert start. induction n as [|n IH]; intros start; cbn; [reflexivity|now rewrite IH]. Qed.

Lemma filter_all {A : Type} (f : A -> bool) (l : list A) :
  (forall x, In x l -> f x = true) -> filter f l = l.
Proof.
  induction l as [|x l IH]; intros H; cbn; [reflexivity|].
  rewrite (H x (or_introl eq_refl)). f_equal. apply IH. intros y Hy. apply H. now right.
Qed.

Lemma filter_none {A : Type} (f : A -> bool) (l : list A) :
  (forall x, In x l -> f x = false) -> filter f l = [].
Proof.
  induction l as [|x l IH]; intros H; cbn; [reflexivity|].
  rewrite (H x (or_introl eq_refl)). apply IH. intros y Hy. apply H. now right.
Qed.

(** X8. The count the script reports at the end of a complete run is the
    number of positions of the buffer below [GRID_SIZE * GRID_SIZE] whose
    value is below [THRESHOLD]: it counts the [UPDATE] statements sent,
    whatever rows the cells table has.  A buffer that is dark everywhere
    gives [GRID_SIZE * GRID_SIZE], a buffer with no value below the
    threshold gives 0. *)
Theorem applyMask_count (P : Picker) (data : list Z) (db : DB) :
  (exists l,
     NoDup l
     /\ (forall idx, In idx l <->
           0 <= idx < GRID_SIZE * GRID_SIZE
           /\ exists brightness,
                nth_error data (Z.to_nat idx) = Some brightness
                /\ brightness < THRESHOLD)
     /\ fst (run (applyMask data) (mkWorld None db idle))
        = Returned (Z.of_nat (length l)))
  /\ (GRID_SIZE * GRID_SIZE <= Z.of_nat (length data) ->
      (forall b, In b data -> b < THRESHOLD) ->
      fst (run (applyMask data) (mkWorld None db idle))
      = Returned (GRID_SIZE * GRID_SIZE))
  /\ ((forall b, In b data -> THRESHOLD <= b) ->
      fst (run (applyMask data) (mkWorld None db idle)) = Returned 0).
Proof.
  rewrite applyMask_count_dark. split; [|split].
  - exists (filter (dark data) (range (GRID_SIZE * GRID_SIZE))).
    split; [apply NoDup_filter, range_from_NoDup|]. split; [|reflexivity].
    intros idx. rewrite filter_In, dark_spec.
    split; (intros [H1 H2]; split; [|exact H2]).
    + apply range_In in H1. lia.
    + apply range_In. lia.
  - intros Hlen Hb. rewrite filter_all.
    + unfold range. rewrite range_from_length, Z2Nat.id; [reflexivity|discriminate].
    + intros idx Hidx. apply all_dark; trivial. apply range_In in Hidx. lia.
  - intros Hb. rewrite filter_none; [reflexivity|].
    intros idx _. now apply none_dark.
Qed.

(** ** Properties of the tables that every candidate's step keeps *)

Section StepInvariant.

Context {P : Picker}.

(** A property of the tables that no step of a candidate breaks. *)
Variable Inv : DB -> Prop.
Hypothesis Inv_fate : forall k x v v', fate k x v v' -> Inv v -> Inv v'.

Lemma upload_loop_keeps (l : list Js.value) (t : Z * Z) (f : option nat) (db : DB) :
  Inv db ->
  let '(o, w') := run (for_of l upload_body t) (mkWorld f db idle) in
  Inv (database w').
Proof.
  revert t f db. induction l as [|x l IH]; intros t f db Hi; [exact Hi|].
  cbn [for_of]. rewrite run_bind.
  pose proof (upload_body_spec x t f db) as Hb.
  destruct (run (upload_body x t) (mkWorld f db idle)) as [[[c t']|] w'].
  - destruct Hb as [[Hs Hcases] _]. destruct w' as [f' db' s']. cbn in Hs. subst s'.
    cbn [database] in Hcases.
    assert (Hi' : Inv db').
    { destruct Hcases as [(_ & _ & H)|[(_ & _ & H)|(_ & _ & H)]];
        now apply (Inv_fate _ _ _ _ H). }
    cbn [fst snd]. destruct c; [now apply IH|exact Hi'].
  - destruct Hb as [Hdb _]. now rewrite Hdb.
Qed.

Lemma upload_handler_keeps (req : Request) (f : option nat) (db : DB) :
  Inv db -> Inv (snd (serve (upload_handler req) f db)).
Proof.
  intros Hi. unfold serve, upload_handler.
  destruct (body_usernames req) as [[|x l]|]; try exact Hi.
  rewrite run_try_catch, run_bind.
  pose proof (upload_loop_keeps (x :: l) (0, 0) f db Hi) as H.
  destruct (run (for_of (x :: l) upload_body (0, 0)) (mkWorld f db idle)) as [[r|] w'].
  - exact H.
  - pose proof (run_rollback w') as E.
    destruct (run (query Rollback;; Ret ServerError) w') as [o w'']. cbn in *.
    now rewrite E.
Qed.

Lemma confirm_loop_keeps (l : list Js.value) (t : Tally) (f : option nat) (db : DB)
  (s : Session) :
  in_txn s = true -> Inv (view db s) ->
  let '(o, w') := run (for_of l processUsernamesUpload_body t) (mkWorld f db s) in
  forall r, o = Returned r -> Inv (view db (session w')).
Proof.
  revert t f s. induction l as [|x l IH]; intros t f s Ht Hi.
  - cbn. intros r _. exact Hi.
  - cbn [for_of]. rewrite run_bind.
    pose proof (confirm_body_spec x t f db s Ht) as Hb.
    destruct (run (processUsernamesUpload_body x t) (mkWorld f db s))
      as [[[c t']|] w']; [|discriminate].
    destruct Hb as (Hdb & [Hs Hcases] & _). destruct w' as [f' db' s'].
    cbn in Hs, Hdb. subst db'. cbn [session] in Hcases.
    assert (Hi' : Inv (view db s')).
    { destruct Hcases as [(_ & _ & _ & ->)|(_ & [(_ & _ & H)|[(_ & _ & H)|(_ & _ & H)]])];
        [exact Hi|now apply (Inv_fate _ _ _ _ H)..]. }
    cbn [fst snd]. destruct c; [now apply IH|].
    cbn. intros r _. exact Hi'.
Qed.

Lemma upload_confirm_handler_keeps (req : Request) (f : option nat) (db : DB) :
  Inv db -> Inv (snd (serve (upload_confirm_handler req) f db)).
Proof.
  intros Hi.
  pose proof (confirm_failure_keeps_nothing req f db) as Hfail.
  destruct (fst (serve (upload_confirm_handler req) f db)) as [[| | |a sk| |]|] eqn:Eo;
    try (now rewrite Hfail).
  clear Hfail. revert Eo. unfold serve, upload_confirm_handler.
  destruct (body_usernames req) as [[|x l]|]; try discriminate.
  rewrite run_try_catch, run_bind.
  destruct (run_query_cases Begin f db idle) as [[_ E]|[_ E]]; rewrite E; clear E.
  { pose proof (run_rollback (mkWorld None db idle)) as Er.
    destruct (run (query Rollback;; Ret ServerError) (mkWorld None db idle)) as [o w].
    cbn in *. now rewrite Er. }
  cbn [exec fst snd]. generalize (option_map Nat.pred f) as f1. intros f1.
  unfold processUsernamesUpload. rewrite !run_bind.
  set (s1 := mkSession true (writes idle) (locks idle)).
  destruct (run_query_cases SelectCount f1 db s1) as [[_ E]|[_ E]]; rewrite E; clear E.
  { pose proof (run_rollback (mkWorld None db s1)) as Er.
    destruct (run (query Rollback;; Ret ServerError) (mkWorld None db s1)) as [o w].
    cbn in *. now rewrite Er. }
  cbn [exec fst snd]. generalize (option_map Nat.pred f1) as f2. intros f2.
  set (t0 := mkTally 0 0 _). rewrite run_bind.
  pose proof (confirm_loop_keeps (x :: l) t0 f2 db s1 eq_refl Hi) as Hk.
  pose proof (confirm_loop_grows (x :: l) t0 f2 db s1 eq_refl) as Hg.
  destruct (run (for_of (x :: l) processUsernamesUpload_body t0) (mkWorld f2 db s1))
    as [[r|] w']; destruct Hg as (Hdb & _ & _).
  - specialize (Hk r eq_refl). destruct w' as [f3 db3 s3].
    cbn [database session] in *. subst db3. cbn [run]. rewrite run_bind.
    destruct (run_query_cases Commit f3 db s3) as [[_ E]|[_ E]]; rewrite E; clear E.
    + pose proof (run_rollback (mkWorld None db s3)) as Er.
      destruct (run (query Rollback;; Ret ServerError) (mkWorld None db s3)) as [o w].
      cbn in *. now rewrite Er.
    + cbn [exec fst snd run database]. intros _. exact Hk.
  - pose proof (run_rollback w') as Er.
    destruct (run (query Rollback;; Ret ServerError) w') as [o w].
    cbn in *. now rewrite Er, Hdb.
Qed.

Lemma serve_calls_keep (calls : list Call) (db : DB) :
  Inv db -> Inv (serve_calls calls db).
Proof.
  revert db. induction calls as [|c calls IH]; intros db Hi; [exact Hi|].
  cbn. apply IH. unfold serve_call. destruct (call_confirm c); cbn [handler].
  - now apply upload_confirm_handler_keeps.
  - now apply upload_handler_keeps.
Qed.

End StepInvariant.

(** ** Normalised identifiers *)

Lemma lowerChar_white (c : ascii) :
  Js.isWhiteSpace (Js.lowerChar c) = Js.isWhiteSpace c.
Proof. destruct c as [[] [] [] [] [] [] [] []]; reflexivity. Qed.

Lemma lowerChar_idem (c : ascii) : Js.lowerChar (Js.lowerChar c) = Js.lowerChar c.
Proof. destruct c as [[] [] [] [] [] [] [] []]; reflexivity. Qed.

Lemma toLowerCase_idem (s : string) :
  Js.toLowerCase (Js.toLowerCase s) = Js.toLowerCase s.
Proof.
  induction s as [|c s IH]; [reflexivity|]. cbn. now rewrite lowerChar_idem, IH.
Qed.

Lemma toLowerCase_trimStart (s : string) :
  Js.toLowerCase (Js.trimStart s) = Js.trimStart (Js.toLowerCase s).
Proof.
  induction s as [|c s IH]; [reflexivity|]. cbn [Js.trimStart Js.toLowerCase].
  rewrite lowerChar_white. destruct (Js.isWhiteSpace c); [exact IH|reflexivity].
Qed.

Lemma toLowerCase_trimEnd (s : string) :
  Js.toLowerCase (Js.trimEnd s) = Js.trimEnd (Js.toLowerCase s).
Proof.
  induction s as [|c s IH]; [reflexivity|]. cbn [Js.trimEnd Js.toLowerCase].
  rewrite <- IH, lowerChar_white.
  destruct (Js.trimEnd s); cbn [Js.toLowerCase];
    [destruct (Js.isWhiteSpace c)|]; reflexivity.
Qed.

Lemma toLowerCase_trim (s : string) :
  Js.toLowerCase (Js.trim s) = Js.trim (Js.toLowerCase s).
Proof. unfold Js.trim. now rewrite toLowerCase_trimEnd, toLowerCase_trimStart. Qed.

Lemma trimEnd_idem (s : string) : Js.trimEnd (Js.trimEnd s) = Js.trimEnd s.
Proof.
  induction s as [|c s IH]; [reflexivity|]. cbn [Js.trimEnd].
  destruct (Js.trimEnd s) as [|d r] eqn:E.
  - destruct (Js.isWhiteSpace c) eqn:Ew; [reflexivity|].
    cbn [Js.trimEnd]. now rewrite Ew.
  - cbn [Js.trimEnd] in *. now rewrite IH.
Qed.

Lemma trimStart_head (s : string) :
  Js.trimStart s = EmptyString
  \/ exists c r, Js.trimStart s = String c r /\ Js.isWhiteSpace c = false.
Proof.
  induction s as [|c s IH]; [now left|]. cbn [Js.trimStart].
  destruct (Js.isWhiteSpace c) eqn:E; [exact IH|]. right. now exists c, s.
Qed.

Lemma trimStart_trimEnd (s : string) :
  Js.trimStart (Js.trimEnd (Js.trimStart s)) = Js.trimEnd (Js.trimStart s).
Proof.
  destruct (trimStart_head s) as [->|(c & r & -> & Hc)]; [reflexivity|].
  cbn [Js.trimEnd]. destruct (Js.trimEnd r); rewrite ?Hc; cbn [Js.trimStart];
    now rewrite Hc.
Qed.

Lemma trim_idem (s : string) : Js.trim (Js.trim s) = Js.trim s.
Proof. unfold Js.trim. now rewrite trimStart_trimEnd, trimEnd_idem. Qed.

Lemma normalize_idem (s : string) : normalize (normalize s) = normalize s.
Proof.
  unfold normalize. now rewrite <- toLowerCase_trim, toLowerCase_idem, trim_idem.
Qed.

Lemma fate_keeps_normal (k : Fate) (x : Js.value) (v v' : DB) :
  fate k x v v' -> ledger_normal v -> ledger_normal v'.
Proof.
  destruct k; cbn [fate].
  - now intros [-> _].
  - now intros [-> _].
  - intros (s & cell & _ & Hne & _ & _ & _ & ->) Hn r Hr.
    rewrite allocate_usernames in Hr. apply in_app_iff in Hr.
    destruct Hr as [Hr|[<-|[]]]; [now apply Hn|].
    cbn [username]. split; [exact Hne|apply normalize_idem].
Qed.

(** X9. The allocating calls only ever store normalised identifiers: if
    every identifier of the ledger is non-empty and unchanged by
    trim-and-lower-case, this still holds after any sequence of
    [/admin/upload] and [/admin/upload-confirm] calls, failures
    included. *)
Theorem calls_keep_ledger_normal (P : Picker) (calls : list Call) (db : DB) :
  ledger_normal db -> ledger_normal (serve_calls calls db).
Proof. apply serve_calls_keep. exact fate_keeps_normal. Qed.

(** ** [GET /search/:username] *)

Lemma search_answer (param : string) (db : DB) :
  search_handler param true db
  = match filter (fun r => String.eqb (username r) (Js.toLowerCase param)) (usernames db) with
    | [] => Returned NotFound
    | r :: _ => Returned (Found (row_cell_id r) (Js.toLowerCase param))
    end.
Proof.
  unfold search_handler, pool_query, select.
  destruct (filter _ (usernames db)); reflexivity.
Qed.

Lemma search_finds (param : string) (db : DB) :
  has_username (Js.toLowerCase param) db = true ->
  exists c, search_handler param true db = Returned (Found c (Js.toLowerCase param))
            /\ In (mkRow (Js.toLowerCase param) c) (usernames db).
Proof.
  intros H. rewrite search_answer. unfold has_username in H.
  destruct (filter _ (usernames db)) as [|r rs] eqn:E.
  - exfalso. apply existsb_exists in H. destruct H as (r & Hr & Hu).
    assert (Hin : In r (filter (fun r => String.eqb (username r) (Js.toLowerCase param))
                               (usernames db)))
      by (apply filter_In; now split).
    rewrite E in Hin. destruct Hin.
  - exists (row_cell_id r). split; [reflexivity|].
    assert (Hin : In r (r :: rs)) by now left.
    rewrite <- E in Hin. apply filter_In in Hin. destruct Hin as [Hin Hu].
    apply String.eqb_eq in Hu. rewrite <- Hu. now destruct r.
Qed.

Section SearchFacts.

Context {P : Picker}.

Lemma upload_complete_seen (l : list Js.value) (x : string) (db db' : DB) (a s : Z) :
  serve (upload_handler (allocating_request l)) None db
  = (Returned (Allocated a s), db') ->
  a + s = Z.of_nat (length l) -> In (Js.Str x) l -> normalize x <> EmptyString ->
  has_username (normalize x) db' = true.
Proof.
  unfold serve, upload_handler, allocating_request. cbn [body_usernames].
  destruct l as [|y l]; [discriminate|]. rewrite run_try_catch, run_bind.
  pose proof (upload_loop_tally (y :: l) (0, 0) None db) as Ht.
  destruct (run (for_of (y :: l) upload_body (0, 0)) (mkWorld None db idle))
    as [[[c t']|] w1] eqn:E1.
  - cbn [run]. intros E Hsum Hin Hne. injection E as Ea Es Edb.
    destruct Ht as (a0 & s0 & -> & _ & Hc). cbn [fst snd] in Ea, Es.
    destruct c; [|destruct Hc as [Hc _]; lia].
    destruct (upload_loop_seen (y :: l) (0, 0) _ db w1 x E1 Hin Hne) as [_ Hu].
    now rewrite <- Edb.
  - intros E. exfalso. revert E.
    destruct (rollback_answer w1) as [E|E];
      destruct (run (query Rollback;; Ret ServerError) w1) as [o w]; cbn in *;
      rewrite E; discriminate.
Qed.

Lemma upload_confirm_complete_seen (l : list Js.value) (x : string) (db db' : DB)
  (a s : Z) :
  serve (upload_confirm_handler (allocating_request l)) None db
  = (Returned (Allocated a s), db') ->
  a + s = Z.of_nat (length l) -> In (Js.Str x) l -> normalize x <> EmptyString ->
  has_username (normalize x) db' = true.
Proof.
  unfold serve, upload_confirm_handler, allocating_request. cbn [body_usernames].
  destruct l as [|y l]; [discriminate|].
  rewrite run_try_catch, run_bind, run_query.
  cbn [fault database session exec option_map idle writes locks].
  unfold processUsernamesUpload. rewrite !run_bind, run_query.
  cbn [fault database session exec option_map].
  set (s1 := mkSession true [] []). change (view db s1) with db.
  set (t0 := mkTally 0 0 (Z.of_nat (length (usernames db)))). rewrite run_bind.
  pose proof (confirm_loop_tally db (y :: l) t0 None s1 eq_refl eq_refl) as Ht.
  pose proof (confirm_loop_grows (y :: l) t0 None db s1 eq_refl) as Hg.
  destruct (run (for_of (y :: l) processUsernamesUpload_body t0) (mkWorld None db s1))
    as [[[c t']|] w1] eqn:E1; destruct Hg as (Hdb & _ & Hnone).
  - destruct w1 as [f1 db1 s1']. cbn in Hdb, Hnone. specialize (Hnone eq_refl).
    subst f1 db1. cbn [run]. rewrite run_bind, run_query.
    cbn [fault database session exec option_map run fst snd].
    intros E Hsum Hin Hne. injection E as Ea Es Edb.
    destruct Ht as (a0 & k0 & Ea0 & Ek0 & _ & Hc). cbn [session] in Hc.
    rewrite Ea0 in Ea. rewrite Ek0 in Es. cbn [added skipped t0] in Ea, Es.
    destruct c; [|destruct Hc as [Hc _]; lia].
    destruct (confirm_loop_seen db (y :: l) t0 _ s1 _ x eq_refl E1 Hin Hne)
      as (_ & _ & Hu).
    now rewrite <- Edb.
  - intros E. exfalso. revert E.
    destruct (rollback_answer w1) as [E|E];
      destruct (run (query Rollback;; Ret ServerError) w1) as [o w]; cbn in *;
      rewrite E; discriminate.
Qed.

End SearchFacts.

(** X10. What was uploaded can be searched.  After a call of
    [/admin/upload] or [/admin/upload-confirm] without a failed statement
    whose counts add up to the number of candidates, every candidate with
    a non-empty normal form is found by [/search] under its trimmed name,
    with the cell of its claim, and on consistent tables that cell is
    filled. *)
Theorem search_finds_uploaded (P : Picker) (confirm : bool) (l : list Js.value)
  (x : string) (db db' : DB) (a s : Z) :
  Consistent db ->
  serve ((if confirm then upload_confirm_handler else upload_handler)
           (allocating_request l)) None db
  = (Returned (Allocated a s), db') ->
  a + s = Z.of_nat (length l) -> In (Js.Str x) l -> normalize x <> EmptyString ->
  exists c,
    search_handler (Js.trim x) true db' = Returned (Found c (normalize x))
    /\ In (mkRow (normalize x) c) (usernames db')
    /\ exists cell, In cell (cells db') /\ cell_id cell = c /\ filled cell = true.
Proof.
  intros Hc E Hsum Hin Hne.
  assert (Hu : has_username (normalize x) db' = true).
  { destruct confirm.
    - exact (upload_confirm_complete_seen l x db db' a s E Hsum Hin Hne).
    - exact (upload_complete_seen l x db db' a s E Hsum Hin Hne). }
  assert (Hc' : Consistent db').
  { apply (grows_consistent db); trivial.
    replace db' with (snd (serve ((if confirm then upload_confirm_handler
                                   else upload_handler) (allocating_request l)) None db))
      by now rewrite E.
    destruct confirm;
      [apply upload_confirm_handler_grows|apply upload_handler_grows]. }
  destruct (search_finds (Js.trim x) db' Hu) as (c & Es & Hr).
  exists c. split; [exact Es|]. split; [exact Hr|].
  destruct (claims_on_filled db' Hc' _ Hr) as (cell & Hcin & Hid & Hf).
  now exists cell.
Qed.

(** X11. A search result is permanent: a name found at a cell is found at
    the same cell after any sequence of allocating calls. *)
Theorem search_result_is_permanent (P : Picker) (calls : list Call) (param : string)
  (db : DB) (c : Z) (u : string) :
  search_handler param true db = Returned (Found c u) ->
  search_handler param true (serve_calls calls db) = Returned (Found c u).
Proof.
  rewrite !search_answer.
  destruct (grows_usernames _ _ (serve_calls_grows calls db)) as [rows ->].
  rewrite filter_app.
  destruct (filter _ (usernames db)) as [|r rs]; [discriminate|]. trivial.
Qed.

Lemma toLowerCase_length (s : string) :
  String.length (Js.toLowerCase s) = String.length s.
Proof. induction s as [|c s IH]; [reflexivity|]. cbn. now rewrite IH. Qed.

Lemma trimStart_length (s : string) :
  (String.length (Js.trimStart s) <= String.length s)%nat
  /\ (String.length (Js.trimStart s) = String.length s -> Js.trimStart s = s).
Proof.
  induction s as [|c s [IH1 IH2]]; [now split|]. cbn [Js.trimStart].
  destruct (Js.isWhiteSpace c); cbn [String.length]; split; trivial; lia.
Qed.

Lemma trimEnd_length (s : string) :
  (String.length (Js.trimEnd s) <= String.length s)%nat
  /\ (String.length (Js.trimEnd s) = String.length s -> Js.trimEnd s = s).
Proof.
  induction s as [|c s [IH1 IH2]]; [now split|]. cbn [Js.trimEnd].
  destruct (Js.trimEnd s) as [|d r].
  - destruct (Js.isWhiteSpace c); cbn [String.length] in *; split; try lia.
    intros E. destruct s; [reflexivity|cbn [String.length] in E; lia].
  - cbn [String.length] in *. split; [lia|]. intros E. f_equal. apply IH2. lia.
Qed.

Lemma trim_length (s : string) :
  String.length (Js.trim s) = String.length s -> Js.trim s = s.
Proof.
  unfold Js.trim. intros E.
  destruct (trimStart_length s) as [H1 H2].
  destruct (trimEnd_length (Js.trimStart s)) as [H3 H4].
  assert (Es : Js.trimStart s = s) by (apply H2; lia).
  rewrite Es in *. now apply H4.
Qed.

(** X12. [/search] lower-cases its parameter but does not trim it: on a
    ledger of normalised identifiers, a parameter with white space at
    either end is never found, even when the trimmed name is claimed. *)
Theorem search_does_not_trim (param : string) (db : DB) :
  ledger_normal db -> Js.trim param <> param ->
  search_handler param true db = Returned NotFound.
Proof.
  intros Hn Ht. rewrite search_answer.
  destruct (filter _ (usernames db)) as [|r rs] eqn:E; [reflexivity|]. exfalso.
  assert (Hin : In r (r :: rs)) by now left.
  rewrite <- E in Hin. apply filter_In in Hin. destruct Hin as [Hin Hu].
  apply String.eqb_eq in Hu. destruct (Hn r Hin) as [_ Hnorm].
  rewrite Hu in Hnorm. unfold normalize in Hnorm.
  rewrite toLowerCase_trim, toLowerCase_idem, <- toLowerCase_trim in Hnorm.
  apply Ht, trim_length.
  rewrite <- (toLowerCase_length (Js.trim param)), Hnorm. apply toLowerCase_length.
Qed.

(** ** [GET /progress] and [GET /test-db] *)

Lemma filled_ids_unique (cs : list Cell) :
  NoDup (map cell_id cs) -> NoDup (map cell_id (filter filled cs)).
Proof.
  induction cs as [|c cs IH]; cbn; intros H; [constructor|].
  inversion H as [|? ? Hnin Hnd]; subst.
  destruct (filled c); cbn; [constructor|]; auto.
  intros Hin. apply Hnin. apply in_map_iff in Hin. destruct Hin as (d & E & Hd).
  apply filter_In in Hd. rewrite <- E. apply in_map. tauto.
Qed.

Lemma consistent_counts (db : DB) :
  Consistent db -> length (usernames db) = length (filter filled (cells db)).
Proof.
  intros [Hc Hu Hr Hcf Hfc].
  rewrite <- (length_map row_cell_id), <- (length_map cell_id (filter filled (cells db))).
  apply Permutation_length, NoDup_Permutation; trivial.
  - now apply filled_ids_unique.
  - intros id. split.
    + intros H. apply in_map_iff in H. destruct H as (r & <- & Hr').
      destruct (Hcf r Hr') as (c & Hin & <- & Hf).
      apply in_map, filter_In. now split.
    + intros H. apply in_map_iff in H. destruct H as (c & <- & Hin).
      apply filter_In in Hin. destruct Hin. now apply Hfc.
Qed.

(** X13. On tables in which filled cells and claims are paired
    ([Consistent]) [/progress] reports the number of filled cells.  Calls
    of the allocating routes served one after the other, each with or
    without a failed statement, leave such tables, so it still does after
    them; calls that overlap need not (after the two overlapping uploads
    of the examples it reports 1 with 2 cells filled).  When the statement
    fails the handler throws: it has no [catch]. *)
Theorem progress_counts_filled_cells (P : Picker) (calls : list Call) (db : DB) :
  Consistent db ->
  progress_handler true db
  = Returned (Progress (Z.of_nat (length (filter filled (cells db)))))
  /\ progress_handler true (serve_calls calls db)
     = Returned (Progress (Z.of_nat (length (filter filled (cells (serve_calls calls db))))))
  /\ progress_handler false (serve_calls calls db) = Thrown.
Proof.
  intros H. split; [|split; [|reflexivity]];
    unfold progress_handler, pool_query, select;
    (rewrite consistent_counts; [reflexivity|]); [exact H|].
  apply (grows_consistent db); trivial. apply serve_calls_grows.
Qed.

(** X14. [/test-db] reports the number of rows of the cells table, which
    no sequence of allocating calls changes; when the statement fails it
    answers 500. *)
Theorem test_db_is_constant (P : Picker) (calls : list Call) (db : DB) :
  test_db_handler true (serve_calls calls db)
  = Returned (TestDb (Z.of_nat (length (cells db))))
  /\ test_db_handler false (serve_calls calls db) = Returned TestDbError.
Proof.
  split; [|reflexivity].
  unfold test_db_handler, pool_query, select.
  pose proof (grows_cells_kept _ _ (serve_calls_grows calls db)) as H.
  apply Forall2_length in H. now rewrite H.
Qed.

(** ** [GET /grid] *)

Lemma insert_by_id_perm (c : Cell) (l : list Cell) :
  Permutation (insert_by_id c l) (c :: l).
Proof.
  induction l as [|d l IH]; cbn; [reflexivity|].
  destruct (cell_id c <=? cell_id d); [reflexivity|].
  rewrite IH. apply perm_swap.
Qed.

Lemma order_by_id_perm (l : list Cell) : Permutation (order_by_id l) l.
Proof.
  induction l as [|c l IH]; cbn; [reflexivity|].
  rewrite insert_by_id_perm. now constructor.
Qed.

Lemma insert_by_id_sorted (c : Cell) (l : list Cell) :
  StronglySorted Z.le (map cell_id l) ->
  StronglySorted Z.le (map cell_id (insert_by_id c l)).
Proof.
  induction l as [|d l IH]; cbn; intros H.
  - constructor; constructor.
  - inversion H as [|? ? Hs Hall]; subst.
    destruct (Z.leb_spec (cell_id c) (cell_id d)) as [Hle|Hgt]; cbn.
    + constructor; [exact H|]. constructor; [exact Hle|].
      eapply Forall_impl; [|exact Hall]. intros z Hz. cbn in Hz. lia.
    + constructor; [now apply IH|].
      apply Forall_forall. intros z Hz.
      apply (Permutation_in _ (Permutation_map cell_id (insert_by_id_perm c l))) in Hz.
      destruct Hz as [<-|Hz]; [lia|].
      rewrite Forall_forall in Hall. now apply Hall.
Qed.

Lemma order_by_id_sorted (l : list Cell) :
  StronglySorted Z.le (map cell_id (order_by_id l)).
Proof.
  induction l as [|c l IH]; cbn; [constructor|]. now apply insert_by_id_sorted.
Qed.

Lemma sorted_strict (l : list Z) :
  StronglySorted Z.le l -> NoDup l -> StronglySorted Z.lt l.
Proof.
  induction 1 as [|z l Hs IH Hall]; intros Hnd; constructor.
  - apply IH. now inversion Hnd.
  - inversion Hnd as [|? ? Hnin _]; subst.
    apply Forall_forall. intros y Hy. rewrite Forall_forall in Hall.
    specialize (Hall y Hy). assert (y <> z) by (intros ->; contradiction). lia.
Qed.

Lemma filter_unique (us : list UsernameRow) (id : Z) :
  NoDup (map row_cell_id us) ->
  filter (fun r => row_cell_id r =? id) us
  = match find (fun r => row_cell_id r =? id) us with
    | Some r => [r]
    | None => []
    end.
Proof.
  induction us as [|r us IH]; cbn; intros H; [reflexivity|].
  inversion H as [|? ? Hnin Hnd]; subst.
  destruct (Z.eqb_spec (row_cell_id r) id) as [E|E]; [|now apply IH].
  f_equal. apply count_absent. now rewrite <- E.
Qed.

Lemma grid_rows_consistent (db : DB) :
  NoDup (map row_cell_id (usernames db)) ->
  grid_rows db
  = map (fun c => grid_row c (owner db (cell_id c))) (order_by_id (cells db)).
Proof.
  intros H. unfold grid_rows.
  induction (order_by_id (cells db)) as [|c l IH]; cbn [flat_map map]; [reflexivity|].
  rewrite IH. unfold join_cell, owner. rewrite (filter_unique _ _ H).
  destruct (find _ (usernames db)); reflexivity.
Qed.

Lemma owner_spec (db : DB) (c : Cell) :
  Consistent db -> In c (cells db) ->
  (forall u, owner db (cell_id c) = Some u <-> In (mkRow u (cell_id c)) (usernames db))
  /\ (owner db (cell_id c) = None <-> filled c = false).
Proof.
  intros [Hc Hu Hr Hcf Hfc] Hin. unfold owner. split.
  - intros u. destruct (find _ (usernames db)) as [r|] eqn:Ef; cbn.
    + apply find_some in Ef. destruct Ef as [Hrin E]. apply Z.eqb_eq in E. split.
      * intros H. injection H as <-. rewrite <- E. now destruct r.
      * intros H. f_equal.
        assert (Er : r = mkRow u (cell_id c)).
        { clear - Hr Hrin H E. induction (usernames db) as [|r0 l IH]; [destruct H|].
          cbn in Hr. inversion Hr as [|? ? Hnin Hnd]; subst.
          destruct Hrin as [->|Hrin], H as [->|H]; trivial.
          - exfalso. apply Hnin. rewrite E. now apply (in_map row_cell_id) in H.
          - exfalso. apply Hnin. cbn. rewrite <- E. now apply in_map.
          - now apply IH. }
        now rewrite Er.
    + split; [discriminate|]. intros H. exfalso.
      apply (find_none _ _ Ef) in H. cbn in H. now rewrite Z.eqb_refl in H.
  - destruct (find _ (usernames db)) as [r|] eqn:Ef; cbn.
    + apply find_some in Ef. destruct Ef as [Hrin E]. apply Z.eqb_eq in E.
      split; [discriminate|]. intros Hf. exfalso.
      destruct (Hcf r Hrin) as (c' & Hin' & Hid & Hf').
      assert (c' = c) by (apply (unique_cell db); congruence). congruence.
    + split; [|reflexivity]. intros _.
      destruct (filled c) eqn:Hf; [|reflexivity]. exfalso.
      apply Hfc in Hf; trivial. apply in_map_iff in Hf. destruct Hf as (r & E & Hrin).
      apply (find_none _ _ Ef) in Hrin. rewrite E, Z.eqb_refl in Hrin. discriminate.
Qed.

(** X15. On consistent tables the [/grid] listing has every cell exactly
    once, in increasing order of [cell_id], with its coordinates and mask
    flag, and with a username exactly when a claim references the cell: a
    null username means the cell is not filled.  Without parameters (or
    with empty ones) the answer is the first 5000 rows of the listing. *)
Theorem grid_lists_every_cell_once (db : DB) :
  Consistent db ->
  Permutation (map g_cell_id (grid_rows db)) (map cell_id (cells db))
  /\ StronglySorted Z.lt (map g_cell_id (grid_rows db))
  /\ (forall row, In row (grid_rows db) ->
        exists c, In c (cells db)
          /\ g_cell_id row = cell_id c /\ g_x row = col_x c /\ g_y row = col_y c
          /\ g_is_mask row = is_mask c
          /\ (forall u, g_username row = Some u
                        <-> In (mkRow u (cell_id c)) (usernames db))
          /\ (g_username row = None <-> filled c = false))
  /\ (forall q_offset q_limit,
        (q_offset = None \/ q_offset = Some EmptyString) ->
        (q_limit = None \/ q_limit = Some EmptyString) ->
        grid_handler q_offset q_limit true db
        = Returned (Grid (firstn 5000 (grid_rows db)))).
Proof.
  intros H. pose proof (claimed_cells_unique db H) as Hr.
  assert (Eids : map g_cell_id (grid_rows db) = map cell_id (order_by_id (cells db))).
  { rewrite (grid_rows_consistent db Hr), map_map. reflexivity. }
  split; [|split; [|split]].
  - rewrite Eids. apply Permutation_map, order_by_id_perm.
  - rewrite Eids. apply sorted_strict; [apply order_by_id_sorted|].
    eapply Permutation_NoDup; [|exact (cell_ids_unique db H)].
    symmetry. apply Permutation_map, order_by_id_perm.
  - intros row Hrow. rewrite (grid_rows_consistent db Hr) in Hrow.
    apply in_map_iff in Hrow. destruct Hrow as (c & <- & Hc).
    apply (Permutation_in _ (order_by_id_perm (cells db))) in Hc.
    exists c. cbn. repeat split; trivial; apply (owner_spec db c H Hc).
  - intros q_offset q_limit [->| ->] [->| ->]; reflexivity.
Qed.

(** ** From the preview to the confirmation *)

Lemma named_length (l : list string) : (length (named l) <= length l)%nat.
Proof. apply filter_length_le. Qed.

Lemma ready_tail (x : string) (l : list string) (db : DB) (c : Z) :
  Ready (x :: l) db -> Ready l db /\ Ready l (allocate x c db).
Proof.
  intros [Hnd He]. inversion Hnd as [|? ? Hnin Hnd']; subst.
  split; (split; [exact Hnd'|]); intros u Hu;
    destruct (He u (or_intror Hu)) as [Hn Hfresh]; split; trivial.
  rewrite has_username_allocate, Hfresh. simpl.
  apply String.eqb_neq. intros E. apply Hnin. now rewrite E.
Qed.

Lemma blank_once (l : list string) :
  NoDup l ->
  Z.of_nat (length l - length (named l))
  = if in_dec string_dec EmptyString l then 1 else 0.
Proof.
  induction l as [|x l IH]; intros Hnd; [reflexivity|].
  inversion Hnd as [|? ? Hnin Hnd']; subst. specialize (IH Hnd').
  pose proof (named_length l) as Hle.
  unfold named in *. cbn [filter length].
  destruct (Js.falsy x) eqn:Hf; cbn [negb length].
  - apply falsy_spec in Hf. subst x.
    destruct (in_dec string_dec EmptyString (EmptyString :: l)) as [_|Hn];
      [|exfalso; apply Hn; now left].
    destruct (in_dec string_dec EmptyString l) as [Hin|_]; [contradiction|]. lia.
  - assert (Hx : x <> EmptyString) by (intros ->; discriminate).
    destruct (in_dec string_dec EmptyString (x :: l)) as [[E|Hin]|Hn];
      destruct (in_dec string_dec EmptyString l) as [Hin'|Hn']; try congruence;
      try contradiction; try lia.
    exfalso. apply Hn. now right.
Qed.

Section ReadyFacts.

Context {P : Picker}.

Lemma confirm_loop_ready (db : DB) (l : list string) (s : Session) (t : Tally) :
  in_txn s = true ->
  NoDup (map cell_id (cells (view db s))) -> Ready l (view db s) ->
  (length l <= free_count (view db s))%nat ->
  (length l <= room (currentCount t))%nat ->
  exists c s',
    run (for_of (map Js.Str l) processUsernamesUpload_body t) (mkWorld None db s)
    = (Returned (c, mkTally (added t + Z.of_nat (length (named l)))
                            (skipped t + Z.of_nat (length l - length (named l)))
                            (currentCount t + Z.of_nat (length (named l)))),
       mkWorld None db s')
    /\ in_txn s' = true
    /\ map username (usernames (view db s'))
       = map username (usernames (view db s)) ++ named l.
Proof.
  revert s t. induction l as [|x l IH]; intros s t Ht Hnd Hr Hfree Hroom.
  - exists Next, s. cbn. rewrite !Z.add_0_r, app_nil_r. now destruct t.
  - cbn [map for_of]. rewrite run_bind.
    pose proof (confirm_body_spec (Js.Str x) t None db s Ht) as Hb.
    destruct (run (processUsernamesUpload_body (Js.Str x) t) (mkWorld None db s))
      as [o w'].
    destruct Hb as (Hdb & Hcases & Hf). destruct (Hf eq_refl) as [Hf' Hthrown].
    destruct o as [[c t']|]; [|now destruct (Hthrown eq_refl)].
    destruct Hcases as [Hs Hcases]. destruct w' as [f' db' s']. cbn in Hs, Hf', Hdb.
    subst f' db'. cbn [session] in Hcases.
    destruct (proj2 Hr x (or_introl eq_refl)) as [Hn Hfresh].
    pose proof (named_length l) as Hle.
    cbn [length] in Hfree, Hroom.
    destruct Hcases as [(-> & -> & Hcap & Ev)
                       |(Hcap & [(-> & -> & H)|[(-> & -> & H)|(-> & -> & H)]])];
      cbn [fate] in *.
    + exfalso. unfold room in Hroom. lia.
    + destruct H as (Ev & u & E & [H|H]); injection E as <-; [|congruence].
      rewrite Hn in H. subst x.
      destruct (IH s' (mkTally (added t) (skipped t + 1) (currentCount t)) Hs)
        as (c & s'' & Erun & Hs'' & Eus); rewrite ?Ev; cbn [currentCount];
        trivial; try lia.
      * exact (proj1 (ready_tail _ _ _ 0 Hr)).
      * exists c, s''. cbn [fst snd]. rewrite Erun.
        cbn [added skipped currentCount] in *.
        rewrite Ev in Eus. unfold named in *. cbn [filter Js.falsy negb length].
        repeat split; trivial. do 3 f_equal. f_equal; lia.
    + destruct H as (Ev & Hfull & _). exfalso.
      rewrite (no_free_count _ Hfull) in Hfree. lia.
    + destruct H as (u & cell & E & Hne & _ & Hin & Hfc & Ev). injection E as <-.
      rewrite Hn in Hne, Ev.
      assert (Hx : Js.falsy x = false).
      { destruct (Js.falsy x) eqn:Hx; [|reflexivity].
        apply falsy_spec in Hx. contradiction. }
      rewrite (allocate_free_count x cell (view db s) Hnd Hin Hfc) in Hfree.
      assert (Er : room (currentCount t) = S (room (currentCount t + 1)))
        by (unfold room in *; lia).
      rewrite Er in Hroom.
      destruct (IH s' (mkTally (added t + 1) (skipped t) (currentCount t + 1)) Hs)
        as (c & s'' & Erun & Hs'' & Eus); rewrite ?Ev; cbn [currentCount];
        trivial; try lia.
      * now rewrite allocate_cell_ids.
      * exact (proj2 (ready_tail _ _ _ _ Hr)).
      * exists c, s''. cbn [fst snd]. rewrite Erun.
        cbn [added skipped currentCount] in *.
        rewrite Ev in Eus. unfold named in *. cbn [filter negb length].
        rewrite Hx. cbn [negb length].
        repeat split; trivial.
        -- do 3 f_equal. f_equal; lia.
        -- rewrite Eus, allocate_usernames, map_app, <- app_assoc. reflexivity.
Qed.

Lemma upload_confirm_handler_ready (l : list string) (db : DB) :
  l <> [] -> NoDup (map cell_id (cells db)) -> Ready l db ->
  (length l <= free_count db)%nat -> (length l <= room (claim_count db))%nat ->
  exists db',
    serve (upload_confirm_handler (allocating_request (map Js.Str l))) None db
    = (Returned (Allocated (Z.of_nat (length (named l)))
                           (Z.of_nat (length l - length (named l)))), db')
    /\ map username (usernames db') = map username (usernames db) ++ named l.
Proof.
  intros Hl Hnd Hr Hfree Hroom.
  set (s1 := mkSession true [] []).
  set (t0 := mkTally 0 0 (Z.of_nat (length (usernames db)))).
  destruct (confirm_loop_ready db l s1 t0 eq_refl Hnd Hr Hfree Hroom)
    as (c & s' & Erun & Hs' & Eus).
  exists (view db s'). split; [|exact Eus].
  unfold serve, upload_confirm_handler, allocating_request. cbn [body_usernames].
  destruct l as [|x l]; [congruence|]. cbn [map] in *.
  rewrite run_try_catch, run_bind, run_query.
  cbn [fault database session exec option_map idle writes locks].
  unfold processUsernamesUpload. rewrite !run_bind, run_query.
  cbn [fault database session exec option_map].
  change (view db (mkSession true [] [])) with db. fold s1 t0.
  rewrite run_bind, Erun. cbn [run]. rewrite run_bind, run_query.
  cbn [fault database session exec option_map run fst snd added skipped t0].
  reflexivity.
Qed.

Lemma preview_answer (hdr : option string) (body : option (list Js.value))
  (rows : list (list string)) (db : DB) :
  let fresh := filter (fun u => negb (has_username u db)) (preview_list rows) in
  serve (upload_preview_handler (mkRequest hdr body (Some rows))) None db
  = (match preview_list rows with
     | [] => Returned PreviewEmpty
     | names =>
         Returned (Preview (Z.of_nat (length names))
                     (Z.of_nat (length (filter (Js.includes names)
                                          (map username (usernames db)))))
                     (Z.of_nat (length fresh)) fresh)
     end, db).
Proof.
  cbv zeta. unfold serve, upload_preview_handler. cbn [file_rows].
  assert (Efresh : forall names,
            filter (fun u => negb (Js.includes
               (filter (Js.includes names) (map username (usernames db))) u)) names
            = filter (fun u => negb (has_username u db)) names).
  { intros names. apply filter_ext_in. intros u Hu. f_equal.
    apply eq_true_iff_eq. rewrite includes_spec, filter_In, includes_spec,
      has_username_spec. tauto. }
  destruct (preview_list rows) as [|n0 names0]; [reflexivity|].
  rewrite run_bind, run_query. cbn [fault database session exec run option_map].
  change (view db idle) with db. now rewrite Efresh.
Qed.

Lemma preview_ready (rows : list (list string)) (db : DB) :
  Ready (filter (fun u => negb (has_username u db)) (preview_list rows)) db.
Proof.
  split.
  - apply NoDup_filter, preview_fold_NoDup. constructor.
  - intros u Hu. apply filter_In in Hu. destruct Hu as [Hu Hfresh].
    apply negb_true_iff in Hfresh. split; [|exact Hfresh].
    unfold preview_list in Hu. apply preview_fold_In in Hu.
    destruct Hu as [[]|(name & rest & _ & _ & ->)]. apply normalize_idem.
Qed.

End ReadyFacts.

(** X16. The list a preview answers with, sent as it is to
    [/admin/upload-confirm] on the same tables: an empty list is refused
    with 400; otherwise, when the grid has a free cell for each name and
    the cap admits them all, every name of the list is claimed in order
    except the empty string, which the preview lets through (a first
    column of blanks) and the confirmation counts as skipped:
    [added + skipped = ready_to_insert] and [skipped] is 0 or 1. *)
Theorem preview_then_confirm (P : Picker) (hdr : option string)
  (body : option (list Js.value)) (rows : list (list string)) (db : DB)
  (total known ready : Z) (fresh : list string) :
  NoDup (map cell_id (cells db)) ->
  fst (serve (upload_preview_handler (mkRequest hdr body (Some rows))) None db)
  = Returned (Preview total known ready fresh) ->
  (fresh = [] ->
   serve (upload_confirm_handler (allocating_request (map Js.Str fresh))) None db
   = (Returned BadRequest, db))
  /\ (fresh <> [] -> ready <= Z.of_nat (free_count db) ->
      ready <= SEASON_1_LIMIT - claim_count db ->
      exists a s db',
        serve (upload_confirm_handler (allocating_request (map Js.Str fresh))) None db
        = (Returned (Allocated a s), db')
        /\ a + s = ready
        /\ s = (if in_dec string_dec EmptyString fresh then 1 else 0)
        /\ map username (usernames db') = map username (usernames db) ++ named fresh).
Proof.
  intros Hnd E. rewrite preview_answer in E. cbn [fst] in E.
  pose proof (preview_ready rows db) as Hr.
  destruct (preview_list rows) as [|n0 names0] eqn:En; [discriminate|].
  rewrite <- En in *.
  assert (Ef : fresh = filter (fun u => negb (has_username u db)) (preview_list rows))
    by congruence.
  assert (Er : ready = Z.of_nat (length fresh)) by congruence.
  rewrite <- Ef in Hr. clear E. split.
  - intros ->. reflexivity.
  - intros Hne Hfree Hroom.
    destruct (upload_confirm_handler_ready fresh db Hne Hnd Hr) as (db' & Es & Eus).
    + lia.
    + unfold room. lia.
    + exists (Z.of_nat (length (named fresh))),
             (Z.of_nat (length fresh - length (named fresh))), db'.
      pose proof (named_length fresh).
      split; [exact Es|]. split; [lia|]. split; [|exact Eus].
      apply blank_once, Hr.
Qed.

(** ** The two paths compared *)

Section PathFacts.

Context {P : Picker}.

Lemma upload_body_run (x : string) (t : Z * Z) (db : DB) :
  run (upload_body (Js.Str x) t) (mkWorld None db idle)
  = if Js.falsy (normalize x) || has_username (normalize x) db
    then (Returned (Next, (fst t, snd t + 1)), mkWorld None db idle)
    else match pick (filter (free_unlocked []) (cells db)) with
         | None => (Returned (Break, t), mkWorld None db idle)
         | Some c =>
             (Returned (Next, (fst t + 1, snd t)),
              mkWorld None (allocate (normalize x) (cell_id c) db) idle)
         end.
Proof.
  unfold upload_body. cbv zeta.
  destruct (Js.falsy (normalize x)); [reflexivity|]. cbn [orb].
  rewrite run_bind, run_query. cbn [fault database session exec option_map].
  change (view db idle) with db. rewrite exists_positive.
  destruct (has_username (normalize x) db) eqn:Hex; [reflexivity|].
  rewrite run_bind, run_query. cbn [fault database session exec option_map].
  change (view db idle) with db.
  destruct (pick (filter (free_unlocked []) (cells db))) as [c|]; [|reflexivity].
  cbn [lock_row idle in_txn].
  rewrite run_bind, run_query.
  cbn [fault database session exec option_map writes locks idle].
  rewrite run_bind, run_query.
  cbn [fault database session exec option_map writes locks violates_unique].
  unfold violates_unique.
  change (view db (mkSession true [] [])) with db. rewrite Hex.
  cbn [do_write in_txn writes locks app].
  rewrite run_bind, run_query.
  cbn [fault database session exec option_map writes locks do_write in_txn lock_row app].
  rewrite run_bind, run_query.
  cbn [fault database session exec option_map writes locks do_write in_txn lock_row app].
  reflexivity.
Qed.

Lemma confirm_body_run (x : string) (t : Tally) (db : DB) (s : Session) :
  in_txn s = true -> currentCount t < SEASON_1_LIMIT ->
  exists s',
    in_txn s' = true
    /\ run (processUsernamesUpload_body (Js.Str x) t) (mkWorld None db s)
       = (if Js.falsy (normalize x) || has_username (normalize x) (view db s)
          then Returned (Next, mkTally (added t) (skipped t + 1) (currentCount t))
          else match pick (filter (free_unlocked []) (cells (view db s))) with
               | None => Returned (Break, t)
               | Some c =>
                   Returned (Next, mkTally (added t + 1) (skipped t) (currentCount t + 1))
               end,
          mkWorld None db s')
    /\ view db s'
       = if Js.falsy (normalize x) || has_username (normalize x) (view db s)
         then view db s
         else match pick (filter (free_unlocked []) (cells (view db s))) with
              | None => view db s
              | Some c => allocate (normalize x) (cell_id c) (view db s)
              end.
Proof.
  intros Ht Hcap. destruct s as [b ws lk]. cbn in Ht. subst b.
  unfold processUsernamesUpload_body.
  apply Z.leb_gt in Hcap. rewrite Hcap. cbv zeta.
  set (s := mkSession true ws lk).
  destruct (Js.falsy (normalize x)).
  { exists s. repeat split. }
  cbn [orb].
  rewrite run_bind, run_query. cbn [fault database session exec option_map].
  rewrite exists_positive.
  destruct (has_username (normalize x) (view db s)) eqn:Hex.
  { exists s. repeat split. }
  rewrite run_bind, run_query. cbn [fault database session exec option_map].
  destruct (pick (filter (free_unlocked []) (cells (view db s)))) as [c|].
  2:{ exists s. repeat split. }
  unfold s at 1. cbn [lock_row in_txn writes locks].
  rewrite run_bind, run_query.
  cbn [fault database session exec option_map writes locks].
  unfold violates_unique.
  change (view db (mkSession true ws (cell_id c :: lk))) with (view db s).
  rewrite Hex. cbn [do_write in_txn writes locks].
  rewrite run_bind, run_query.
  cbn [fault database session exec option_map writes locks do_write in_txn lock_row].
  eexists. split; [|split; [reflexivity|]]; [reflexivity|].
  unfold view; cbn [writes]. apply apply_writes_alloc.
Qed.

Lemma loops_agree (l : list string) (db : DB) (s : Session) (a sk cnt : Z) :
  in_txn s = true -> cnt + Z.of_nat (length l) <= SEASON_1_LIMIT ->
  exists c a' sk' cnt' s',
    run (for_of (map Js.Str l) upload_body (a, sk)) (mkWorld None (view db s) idle)
    = (Returned (c, (a', sk')), mkWorld None (view db s') idle)
    /\ run (for_of (map Js.Str l) processUsernamesUpload_body (mkTally a sk cnt))
           (mkWorld None db s)
       = (Returned (c, mkTally a' sk' cnt'), mkWorld None db s').
Proof.
  revert s a sk cnt. induction l as [|x l IH]; intros s a sk cnt Ht Hcap.
  - exists Next, a, sk, cnt, s. split; reflexivity.
  - cbn [map for_of length] in *. rewrite !run_bind, upload_body_run.
    destruct (confirm_body_run x (mkTally a sk cnt) db s Ht) as (s' & Hs' & Er & Ev).
    { cbn [currentCount]. lia. }
    rewrite Er. clear Er. cbn [fst snd added skipped currentCount] in *.
    destruct (Js.falsy (normalize x) || has_username (normalize x) (view db s)).
    + cbn [fst snd]. rewrite <- Ev. apply IH; [exact Hs'|lia].
    + destruct (pick (filter (free_unlocked []) (cells (view db s)))) as [c|].
      * cbn [fst snd]. rewrite <- Ev. apply IH; [exact Hs'|lia].
      * cbn [fst snd run]. rewrite <- Ev. exists Break, a, sk, cnt, s'. split; reflexivity.
Qed.

End PathFacts.

(** X17. The two allocating paths agree below the cap: when no statement
    fails, every element of the list is a string, and the ledger plus the
    whole batch stays within [SEASON_1_LIMIT], [/admin/upload] and
    [/admin/upload-confirm] give the same answer and leave the same
    tables. *)
Theorem paths_agree_below_cap (P : Picker) (l : list string) (db : DB) :
  claim_count db + Z.of_nat (length l) <= SEASON_1_LIMIT ->
  serve (upload_handler (allocating_request (map Js.Str l))) None db
  = serve (upload_confirm_handler (allocating_request (map Js.Str l))) None db.
Proof.
  intros Hcap. destruct l as [|x l]; [reflexivity|].
  set (s1 := mkSession true [] []).
  destruct (loops_agree (x :: l) db s1 0 0 (claim_count db) eq_refl Hcap)
    as (c & a' & sk' & cnt' & s' & Eu & Ec).
  change (view db s1) with db in Eu.
  unfold serve, upload_handler, upload_confirm_handler, allocating_request.
  cbn [body_usernames]. cbn [map] in *.
  rewrite !run_try_catch, !run_bind, Eu.
  rewrite run_query.
  cbn [fault database session exec option_map idle writes locks run].
  unfold processUsernamesUpload. rewrite !run_bind, run_query.
  cbn [fault database session exec option_map].
  change (view db (mkSession true [] [])) with db. fold s1.
  unfold claim_count in Ec. rewrite run_bind, Ec. cbn [run]. rewrite run_bind, run_query.
  cbn [fault database session exec option_map run fst snd added skipped].
  reflexivity.
Qed.

(** ** A batch in two requests *)

Section SplitFacts.

Context {P : Picker}.

Lemma settle_stuck (capped : bool) (l : list string) (v : DB) :
  pick (filter (free_unlocked []) (cells v)) = None
  \/ capped && (SEASON_1_LIMIT <=? claim_count v) = true ->
  settle capped l v = v.
Proof.
  intros H. induction l as [|x l IH]; cbn [settle]; [reflexivity|].
  destruct (capped && (SEASON_1_LIMIT <=? claim_count v)); [reflexivity|].
  destruct H as [H|H]; [|discriminate]. rewrite H.
  destruct (Js.falsy (normalize x) || has_username (normalize x) v); trivial.
Qed.

Lemma settle_app (capped : bool) (l1 l2 : list string) (v : DB) :
  settle capped (l1 ++ l2) v = settle capped l2 (settle capped l1 v).
Proof.
  revert v. induction l1 as [|x l1 IH]; intros v; cbn [app settle]; [reflexivity|].
  destruct (capped && (SEASON_1_LIMIT <=? claim_count v)) eqn:Ec.
  { symmetry. apply settle_stuck. now right. }
  destruct (Js.falsy (normalize x) || has_username (normalize x) v); [apply IH|].
  destruct (pick (filter (free_unlocked []) (cells v))) as [c|] eqn:Ep; [apply IH|].
  symmetry. apply settle_stuck. now left.
Qed.

Lemma upload_loop_settle (l : list string) (t : Z * Z) (db : DB) :
  exists c t',
    run (for_of (map Js.Str l) upload_body t) (mkWorld None db idle)
    = (Returned (c, t'), mkWorld None (settle false l db) idle).
Proof.
  revert t db. induction l as [|x l IH]; intros t db.
  - exists Next, t. reflexivity.
  - cbn [map for_of settle andb]. rewrite run_bind, upload_body_run.
    destruct (Js.falsy (normalize x) || has_username (normalize x) db).
    + cbn [fst snd]. apply IH.
    + destruct (pick (filter (free_unlocked []) (cells db))) as [c|].
      * cbn [fst snd]. apply IH.
      * exists Break, t. reflexivity.
Qed.

Lemma confirm_loop_settle (l : list string) (t : Tally) (db : DB) (s : Session) :
  in_txn s = true -> currentCount t = claim_count (view db s) ->
  exists c t' s',
    run (for_of (map Js.Str l) processUsernamesUpload_body t) (mkWorld None db s)
    = (Returned (c, t'), mkWorld None db s')
    /\ view db s' = settle true l (view db s).
Proof.
  revert t s. induction l as [|x l IH]; intros t s Ht Hc.
  - exists Next, t, s. split; reflexivity.
  - cbn [map for_of settle andb]. rewrite run_bind, <- Hc.
    destruct (Z.leb_spec SEASON_1_LIMIT (currentCount t)) as [Hcap|Hcap].
    { unfold processUsernamesUpload_body.
      apply Z.leb_le in Hcap. rewrite Hcap. cbn [run fst snd].
      exists Break, t, s. split; reflexivity. }
    destruct (confirm_body_run x t db s Ht Hcap) as (s' & Hs' & Er & Ev).
    rewrite Er. clear Er.
    destruct (Js.falsy (normalize x) || has_username (normalize x) (view db s)).
    + cbn [fst snd]. rewrite <- Ev. apply IH; [exact Hs'|].
      cbn [currentCount]. now rewrite Ev.
    + destruct (pick (filter (free_unlocked []) (cells (view db s)))) as [c|].
      * cbn [fst snd]. rewrite <- Ev. apply IH; [exact Hs'|].
        cbn [currentCount]. rewrite Ev, Hc. unfold claim_count.
        rewrite allocate_usernames, length_app. cbn [length]. lia.
      * cbn [fst snd run]. exists Break, t, s'. split; [reflexivity|exact Ev].
Qed.

Lemma upload_tables (l : list string) (db : DB) :
  snd (serve (upload_handler (allocating_request (map Js.Str l))) None db)
  = settle false l db.
Proof.
  destruct l as [|x l]; [reflexivity|].
  destruct (upload_loop_settle (x :: l) (0, 0) db) as (c & t' & E).
  unfold serve, upload_handler, allocating_request. cbn [body_usernames].
  cbn [map] in *. rewrite run_try_catch, run_bind, E. reflexivity.
Qed.

Lemma upload_confirm_tables (l : list string) (db : DB) :
  snd (serve (upload_confirm_handler (allocating_request (map Js.Str l))) None db)
  = settle true l db.
Proof.
  destruct l as [|x l]; [reflexivity|].
  set (s1 := mkSession true [] []).
  destruct (confirm_loop_settle (x :: l) (mkTally 0 0 (claim_count db)) db s1
              eq_refl eq_refl) as (c & t' & s' & E & Ev).
  change (view db s1) with db in Ev.
  unfold serve, upload_confirm_handler, allocating_request. cbn [body_usernames].
  cbn [map] in *.
  rewrite run_try_catch, run_bind, run_query.
  cbn [fault database session exec option_map idle writes locks].
  unfold processUsernamesUpload. rewrite !run_bind, run_query.
  cbn [fault database session exec option_map].
  change (view db (mkSession true [] [])) with db. fold s1.
  unfold claim_count in E. rewrite run_bind, E. cbn [run]. rewrite run_bind, run_query.
  cbn [fault database session exec option_map run fst snd added skipped database].
  exact Ev.
Qed.

End SplitFacts.

(** X18. A batch sent in two requests leaves the tables the one request
    leaves: on either path, when no statement fails, serving [l1] and then
    [l2] ends in the same tables as serving [l1 ++ l2] (a loop that has
    stopped on a full grid or a reached cap finds nothing to do for the
    second part either). *)
Theorem split_batch_same_tables (P : Picker) (confirm : bool) (l1 l2 : list string)
  (db : DB) :
  let call l := serve ((if confirm then upload_confirm_handler else upload_handler)
                         (allocating_request (map Js.Str l))) None in
  snd (call (l1 ++ l2) db) = snd (call l2 (snd (call l1 db))).
Proof.
  cbv zeta. destruct confirm.
  - rewrite !upload_confirm_tables. apply settle_app.
  - rewrite !upload_tables. apply settle_app.
Qed.

(** ** The cap on the confirm path, and paging *)

(** X19. Calls of [/admin/upload-confirm] that are served one after the
    other do not take the ledger over the cap: from at most
    [SEASON_1_LIMIT] claims, any sequence of them, each with or without a
    failed statement, ends with at most [SEASON_1_LIMIT] claims.  (The
    count is read once per batch, so two calls that overlap can: see the
    two confirm calls below the cap among the examples.) *)
Theorem confirm_calls_respect_cap (P : Picker) (calls : list Call) (db : DB) :
  Forall (fun c => call_confirm c = true) calls ->
  claim_count db <= SEASON_1_LIMIT ->
  claim_count (serve_calls calls db) <= SEASON_1_LIMIT.
Proof.
  intros Hc. revert db. induction Hc as [|c calls Hcc _ IH]; intros db Hle; [exact Hle|].
  cbn. apply IH. unfold serve_call. rewrite Hcc. cbn [handler].
  now apply upload_confirm_respects_cap.
Qed.

(** X20. Once the ledger holds [SEASON_1_LIMIT] claims or more,
    [/admin/upload-confirm] answers a non-empty list with 200 and
    [added: 0, skipped: 0] and changes nothing, whatever the list holds:
    the season check comes before the element is looked at, so even an
    element that is not a string raises nothing. *)
Theorem confirm_at_cap_changes_nothing (P : Picker) (x : Js.value) (l : list Js.value)
  (db : DB) :
  SEASON_1_LIMIT <= claim_count db ->
  serve (upload_confirm_handler (allocating_request (x :: l))) None db
  = (Returned (Allocated 0 0), db).
Proof.
  intros Hcap. unfold serve, upload_confirm_handler, allocating_request.
  cbn [body_usernames].
  rewrite run_try_catch, run_bind, run_query.
  cbn [fault database session exec option_map idle writes locks].
  unfold processUsernamesUpload. rewrite !run_bind, run_query.
  cbn [fault database session exec option_map].
  change (view db (mkSession true [] [])) with db.
  cbn [for_of]. unfold processUsernamesUpload_body at 1.
  cbn [currentCount]. unfold claim_count in Hcap.
  apply Z.leb_le in Hcap. rewrite Hcap.
  cbn [bind run fst snd added skipped]. rewrite run_bind, run_query.
  cbn [fault database session exec option_map run fst snd added skipped].
  reflexivity.
Qed.

Lemma pages_tile {A : Type} (n m : nat) (l : list A) :
  firstn n l ++ firstn m (skipn n l) = firstn (n + m) l.
Proof.
  revert l. induction n as [|n IH]; intros l; [reflexivity|].
  destruct l as [|x l]; cbn [firstn skipn Nat.add app].
  - now rewrite firstn_nil.
  - now rewrite IH.
Qed.

Lemma short_page_is_last {A : Type} (n m : nat) (l : list A) :
  (length (firstn n l) < n)%nat -> firstn m (skipn n l) = [].
Proof.
  intros H. rewrite length_firstn in H.
  rewrite skipn_all2 by lia. apply firstn_nil.
Qed.

Lemma grid_page_answer (q_offset q_limit : option string) (o n : Z) (db : DB) :
  JsNumber.parseInt (JsNumber.or_default q_offset "0") = Some o ->
  JsNumber.parseInt (JsNumber.or_default q_limit "5000") = Some n ->
  0 <= o <= max_bigint -> 0 <= n <= max_bigint ->
  grid_handler q_offset q_limit true db
  = Returned (Grid (firstn (Z.to_nat n) (skipn (Z.to_nat o) (grid_rows db)))).
Proof.
  intros Eo En Ho Hn. unfold grid_handler. rewrite Eo, En.
  unfold pool_query, select, page_bound.
  destruct (Z.leb_spec 0 n), (Z.leb_spec n max_bigint); try lia.
  destruct (Z.leb_spec 0 o), (Z.leb_spec o max_bigint); try lia.
  reflexivity.
Qed.

Lemma grid_ids_sorted (db : DB) :
  NoDup (map cell_id (cells db)) -> NoDup (map row_cell_id (usernames db)) ->
  StronglySorted Z.lt (map g_cell_id (grid_rows db)).
Proof.
  intros Hc Hr.
  assert (Eids : map g_cell_id (grid_rows db) = map cell_id (order_by_id (cells db))).
  { rewrite (grid_rows_consistent db Hr), map_map. reflexivity. }
  rewrite Eids. apply sorted_strict; [apply order_by_id_sorted|].
  eapply Permutation_NoDup; [|exact Hc].
  symmetry. apply Permutation_map, order_by_id_perm.
Qed.

Lemma sorted_firstn {A : Type} (R : A -> A -> Prop) (n : nat) (l : list A) :
  StronglySorted R l -> StronglySorted R (firstn n l).
Proof.
  intros H. revert n. induction H as [|x l Hs IH Hall]; intros n.
  - rewrite firstn_nil. constructor.
  - destruct n as [|n]; cbn [firstn]; constructor; [apply IH|].
    apply Forall_forall. intros y Hy. rewrite Forall_forall in Hall.
    apply Hall. revert Hy. clear. revert n. induction l as [|z l IH]; intros n Hy.
    + now rewrite firstn_nil in Hy.
    + destruct n as [|n]; [destruct Hy|]. cbn in Hy. destruct Hy as [->|Hy]; [now left|].
      right. eapply IH, Hy.
Qed.

Lemma sorted_skipn {A : Type} (R : A -> A -> Prop) (n : nat) (l : list A) :
  StronglySorted R l -> StronglySorted R (skipn n l).
Proof.
  intros H. revert n. induction H as [|x l Hs IH Hall]; intros n.
  - rewrite skipn_nil. constructor.
  - destruct n as [|n]; cbn [skipn]; [now constructor|apply IH].
Qed.

(** X21. Paging through [/grid], on tables that do not change between the
    requests and in which no two cells share a [cell_id] and no two
    claims share a cell (so that [ORDER BY c.cell_id] determines the order
    of the rows): with parameters that [parseInt] reads as non-negative
    integers (in the range where JavaScript numbers are exact), the page
    at [offset = o] of [limit = n] rows followed by the page at [o + n] of
    [m] rows is the page at [o] of [n + m] rows; a page has at most
    [limit] rows, after a page that is shorter the next one is empty, and
    no cell comes twice: the ids of the two pages increase strictly. *)
Theorem grid_pages_tile (qo1 ql1 qo2 ql2 ql3 : option string) (o n m : Z) (db : DB) :
  NoDup (map cell_id (cells db)) -> NoDup (map row_cell_id (usernames db)) ->
  JsNumber.parseInt (JsNumber.or_default qo1 "0") = Some o ->
  JsNumber.parseInt (JsNumber.or_default ql1 "5000") = Some n ->
  JsNumber.parseInt (JsNumber.or_default qo2 "0") = Some (o + n) ->
  JsNumber.parseInt (JsNumber.or_default ql2 "5000") = Some m ->
  JsNumber.parseInt (JsNumber.or_default ql3 "5000") = Some (n + m) ->
  0 <= o -> 0 <= n -> 0 <= m -> o + n + m <= JsNumber.max_safe_integer ->
  exists d1 d2,
    grid_handler qo1 ql1 true db = Returned (Grid d1)
    /\ grid_handler qo2 ql2 true db = Returned (Grid d2)
    /\ grid_handler qo1 ql3 true db = Returned (Grid (d1 ++ d2))
    /\ Z.of_nat (length d1) <= n
    /\ (Z.of_nat (length d1) < n -> d2 = [])
    /\ StronglySorted Z.lt (map g_cell_id (d1 ++ d2)).
Proof.
  intros Hc Hr E1 E2 E3 E4 E5 Ho Hn Hm Hmax.
  assert (Hbig : JsNumber.max_safe_integer <= max_bigint) by discriminate.
  exists (firstn (Z.to_nat n) (skipn (Z.to_nat o) (grid_rows db))),
         (firstn (Z.to_nat m) (skipn (Z.to_nat (o + n)) (grid_rows db))).
  rewrite (grid_page_answer qo1 ql1 o n db E1 E2) by lia.
  rewrite (grid_page_answer qo2 ql2 (o + n) m db E3 E4) by lia.
  rewrite (grid_page_answer qo1 ql3 o (n + m) db E1 E5) by lia.
  assert (Es : skipn (Z.to_nat (o + n)) (grid_rows db)
               = skipn (Z.to_nat n) (skipn (Z.to_nat o) (grid_rows db))).
  { rewrite skipn_skipn. f_equal. lia. }
  rewrite Es, pages_tile, <- Z2Nat.inj_add by lia.
  split; [reflexivity|]. split; [reflexivity|]. split; [reflexivity|]. split; [|split].
  - pose proof (firstn_le_length (Z.to_nat n) (skipn (Z.to_nat o) (grid_rows db))). lia.
  - intros Hlt. apply short_page_is_last. lia.
  - rewrite <- firstn_map, <- skipn_map. apply sorted_firstn, sorted_skipn.
    now apply grid_ids_sorted.
Qed.

(** ** The mask in the listing *)

Lemma mask_where_id (hit : Z -> Z -> bool) (c : Cell) :
  cell_id (mask_where hit c) = cell_id c.
Proof. unfold mask_where. now destruct (hit (col_x c) (col_y c)). Qed.

Lemma grid_row_mask (hit : Z -> Z -> bool) (c : Cell) (u : option string) :
  grid_row (mask_where hit c) u = mask_row hit (grid_row c u).
Proof.
  unfold mask_where, mask_row, grid_row. cbn [g_cell_id g_x g_y g_is_mask g_username].
  destruct (hit (col_x c) (col_y c)); cbn [cell_id col_x col_y is_mask].
  - now rewrite orb_true_r.
  - now rewrite orb_false_r.
Qed.

Lemma insert_by_id_mask (hit : Z -> Z -> bool) (c : Cell) (l : list Cell) :
  insert_by_id (mask_where hit c) (map (mask_where hit) l)
  = map (mask_where hit) (insert_by_id c l).
Proof.
  induction l as [|d l IH]; cbn [map insert_by_id]; [reflexivity|].
  rewrite !mask_where_id. destruct (cell_id c <=? cell_id d); cbn [map]; [reflexivity|].
  now rewrite IH.
Qed.

Lemma order_by_id_mask (hit : Z -> Z -> bool) (l : list Cell) :
  order_by_id (map (mask_where hit) l) = map (mask_where hit) (order_by_id l).
Proof.
  unfold order_by_id. induction l as [|c l IH]; cbn [map fold_right]; [reflexivity|].
  now rewrite IH, insert_by_id_mask.
Qed.

Lemma join_cell_mask (hit : Z -> Z -> bool) (us : list UsernameRow) (c : Cell) :
  join_cell us (mask_where hit c) = map (mask_row hit) (join_cell us c).
Proof.
  unfold join_cell. rewrite mask_where_id.
  destruct (filter (fun r => row_cell_id r =? cell_id c) us) as [|r ms].
  - cbn [map]. now rewrite grid_row_mask.
  - rewrite map_map. apply map_ext. intros r'. apply grid_row_mask.
Qed.

Lemma grid_rows_mask (hit : Z -> Z -> bool) (db : DB) :
  grid_rows (mask_db hit db) = map (mask_row hit) (grid_rows db).
Proof.
  unfold grid_rows, mask_db. cbn [cells usernames]. rewrite order_by_id_mask.
  induction (order_by_id (cells db)) as [|c l IH]; cbn [map flat_map]; [reflexivity|].
  now rewrite IH, map_app, join_cell_mask.
Qed.

(** The listing after a complete run, by the script's own test. *)
Lemma grid_rows_after_mask (P : Picker) (data : list Z) (db : DB) :
  grid_rows (database (snd (run (applyMask data) (mkWorld None db idle))))
  = map (mask_row (masked_by data)) (grid_rows db).
Proof.
  destruct (applyMask_run data db) as [count E]. rewrite E. cbn [snd database].
  apply grid_rows_mask.
Qed.

Lemma mask_rows_projected (data : list Z) (rows : list GridRow) :
  Forall2 (row_projected data) rows (map (mask_row (masked_by data)) rows).
Proof.
  induction rows as [|r rows IH]; constructor; trivial.
  unfold row_projected, mask_row. cbn [g_cell_id g_x g_y g_is_mask g_username].
  rewrite <- masked_by_spec, orb_true_iff. repeat split; trivial.
Qed.

Lemma mask_rows_ids (hit : Z -> Z -> bool) (rows : list GridRow) :
  map g_cell_id (map (mask_row hit) rows) = map g_cell_id rows.
Proof. rewrite map_map. reflexivity. Qed.

(** X22. The mask as [/grid] shows it, on tables in which no two cells
    share a [cell_id] and no two claims share a cell: after a complete run
    of the script the listing has the rows it had before, one for one and
    in the same order, with the same ids, coordinates and usernames;
    [is_mask] is true on a row exactly when it was before or the row's
    cell [(px + 1, GRID_SIZE - py)] is that of a pixel [(px, py)] whose
    value in the buffer is below [THRESHOLD]. *)
Theorem grid_after_mask (P : Picker) (data : list Z) (db : DB) :
  NoDup (map cell_id (cells db)) -> NoDup (map row_cell_id (usernames db)) ->
  let db' := database (snd (run (applyMask data) (mkWorld None db idle))) in
  Forall2 (row_projected data) (grid_rows db) (grid_rows db')
  /\ StronglySorted Z.lt (map g_cell_id (grid_rows db')).
Proof.
  intros Hc Hr. cbv zeta. rewrite grid_rows_after_mask. split.
  - apply mask_rows_projected.
  - rewrite mask_rows_ids. now apply grid_ids_sorted.
Qed.

(** ** The further properties on the sample tables *)

Section FurtherExamples.

Local Open Scope string_scope.

Lemma one_free_normal : ledger_normal one_free.
Proof. intros r [<-|[]]. split; [discriminate|reflexivity]. Qed.

Lemma sample_calls_consistent : Consistent (serve_calls sample_calls sample_grid).
Proof.
  apply (grows_consistent sample_grid); [exact sample_grid_consistent|].
  apply serve_calls_grows.
Qed.

Lemma calls_keep_ledger_normal_witness :
  ledger_normal one_free /\ ledger_normal (serve_calls sample_calls one_free).
Proof.
  split; [exact one_free_normal|].
  exact (calls_keep_ledger_normal first_row sample_calls one_free one_free_normal).
Defined.

Lemma search_finds_uploaded_witness :
  Consistent sample_grid
  /\ exists c,
       search_handler (Js.trim " Ann") true
         (snd (serve (upload_handler (batch [" Ann"; "bob"])) None sample_grid))
       = Returned (Found c (normalize " Ann"))
       /\ In (mkRow (normalize " Ann") c)
             (usernames (snd (serve (upload_handler (batch [" Ann"; "bob"])) None
                                    sample_grid)))
       /\ exists cell,
            In cell (cells (snd (serve (upload_handler (batch [" Ann"; "bob"])) None
                                       sample_grid)))
            /\ cell_id cell = c /\ filled cell = true.
Proof.
  split; [exact sample_grid_consistent|].
  apply (search_finds_uploaded first_row false [Js.Str " Ann"; Js.Str "bob"] " Ann"
           sample_grid _ 2 0).
  - exact sample_grid_consistent.
  - vm_compute. reflexivity.
  - reflexivity.
  - left. reflexivity.
  - vm_compute. discriminate.
Defined.

Lemma search_result_is_permanent_witness :
  search_handler "ZED" true one_free = Returned (Found 1 "zed")
  /\ search_handler "ZED" true (serve_calls sample_calls one_free)
     = Returned (Found 1 "zed").
Proof.
  split; [vm_compute; reflexivity|].
  apply (search_result_is_permanent first_row sample_calls "ZED" one_free 1 "zed").
  vm_compute. reflexivity.
Defined.

Lemma search_does_not_trim_witness :
  ledger_normal one_free /\ Js.trim " zed" <> " zed"
  /\ search_handler "zed" true one_free = Returned (Found 1 "zed")
  /\ search_handler " zed" true one_free = Returned NotFound.
Proof.
  split; [exact one_free_normal|].
  split; [vm_compute; discriminate|].
  split; [vm_compute; reflexivity|].
  apply (search_does_not_trim " zed" one_free); [exact one_free_normal|].
  vm_compute. discriminate.
Defined.

Lemma progress_counts_filled_cells_witness :
  Consistent sample_grid
  /\ progress_handler true sample_grid
     = Returned (Progress (Z.of_nat (length (filter filled (cells sample_grid)))))
  /\ progress_handler true (serve_calls sample_calls sample_grid)
     = Returned (Progress (Z.of_nat (length (filter filled
                             (cells (serve_calls sample_calls sample_grid))))))
  /\ progress_handler false (serve_calls sample_calls sample_grid) = Thrown.
Proof.
  split; [exact sample_grid_consistent|].
  exact (progress_counts_filled_cells first_row sample_calls sample_grid
           sample_grid_consistent).
Defined.

Lemma grid_lists_every_cell_once_witness :
  Consistent (serve_calls sample_calls sample_grid)
  /\ StronglySorted Z.lt (map g_cell_id (grid_rows (serve_calls sample_calls sample_grid)))
  /\ grid_handler None None true (serve_calls sample_calls sample_grid)
     = Returned (Grid (firstn 5000 (grid_rows (serve_calls sample_calls sample_grid)))).
Proof.
  split; [exact sample_calls_consistent|].
  destruct (grid_lists_every_cell_once (serve_calls sample_calls sample_grid)
              sample_calls_consistent) as (_ & Hs & _ & Hd).
  split; [exact Hs|]. apply Hd; now left.
Defined.

Lemma preview_then_confirm_witness :
  NoDup (map cell_id (cells sample_grid))
  /\ fst (serve (upload_preview_handler
                   (mkRequest None None (Some [["  Zed "]; ["   "]; ["bo"]])))
                None sample_grid)
     = Returned (Preview 3 0 3 ["zed"; ""; "bo"])
  /\ exists a s db',
       serve (upload_confirm_handler (allocating_request (map Js.Str ["zed"; ""; "bo"])))
             None sample_grid
       = (Returned (Allocated a s), db')
       /\ a + s = 3
       /\ s = (if in_dec string_dec EmptyString ["zed"; ""; "bo"] then 1 else 0)
       /\ map username (usernames db')
          = (map username (usernames sample_grid) ++ named ["zed"; ""; "bo"])%list.
Proof.
  assert (Hnd : NoDup (map cell_id (cells sample_grid)))
    by exact (cell_ids_unique _ sample_grid_consistent).
  assert (Hp : fst (serve (upload_preview_handler
                             (mkRequest None None (Some [["  Zed "]; ["   "]; ["bo"]])))
                          None sample_grid)
               = Returned (Preview 3 0 3 ["zed"; ""; "bo"]))
    by (vm_compute; reflexivity).
  split; [exact Hnd|]. split; [exact Hp|].
  apply (proj2 (preview_then_confirm first_row None None
                  [["  Zed "]; ["   "]; ["bo"]] sample_grid 3 0 3 ["zed"; ""; "bo"]
                  Hnd Hp)).
  - discriminate.
  - vm_compute. discriminate.
  - vm_compute. discriminate.
Defined.

Lemma paths_agree_below_cap_witness :
  claim_count sample_grid + Z.of_nat (length [" Ann"; "bob"; "ann"; ""])
  <= SEASON_1_LIMIT
  /\ serve (upload_handler (allocating_request (map Js.Str [" Ann"; "bob"; "ann"; ""])))
           None sample_grid
     = serve (upload_confirm_handler
                (allocating_request (map Js.Str [" Ann"; "bob"; "ann"; ""])))
             None sample_grid.
Proof.
  assert (H : claim_count sample_grid + Z.of_nat (length [" Ann"; "bob"; "ann"; ""])
              <= SEASON_1_LIMIT) by (vm_compute; discriminate).
  split; [exact H|].
  exact (paths_agree_below_cap first_row [" Ann"; "bob"; "ann"; ""] sample_grid H).
Defined.

Lemma confirm_calls_respect_cap_witness :
  claim_count one_free <= SEASON_1_LIMIT
  /\ claim_count (serve_calls [mkCall true (Some [Js.Str "cy"; Js.Str "dee"]) None;
                               mkCall true (Some [Js.Str "eve"]) (Some 2%nat)]
                              one_free)
     <= SEASON_1_LIMIT.
Proof.
  assert (H : claim_count one_free <= SEASON_1_LIMIT) by (vm_compute; discriminate).
  split; [exact H|].
  apply (confirm_calls_respect_cap first_row); [|exact H].
  repeat constructor.
Defined.

Lemma confirm_at_cap_changes_nothing_witness :
  SEASON_1_LIMIT <= claim_count season_full
  /\ serve (upload_confirm_handler (allocating_request [Js.NotStr; Js.Str "newcomer"]))
           None season_full
     = (Returned (Allocated 0 0), season_full).
Proof.
  assert (H : SEASON_1_LIMIT <= claim_count season_full).
  { unfold season_full. rewrite season_count, Z2Nat.id; [lia|discriminate]. }
  split; [exact H|].
  exact (confirm_at_cap_changes_nothing first_row Js.NotStr [Js.Str "newcomer"]
           season_full H).
Defined.

Lemma grid_pages_tile_witness :
  NoDup (map cell_id (cells (serve_calls sample_calls sample_grid)))
  /\ NoDup (map row_cell_id (usernames (serve_calls sample_calls sample_grid)))
  /\ exists d1 d2,
       grid_handler None (Some "2") true (serve_calls sample_calls sample_grid)
       = Returned (Grid d1)
       /\ grid_handler (Some "2") (Some "1") true (serve_calls sample_calls sample_grid)
          = Returned (Grid d2)
       /\ grid_handler None (Some "3") true (serve_calls sample_calls sample_grid)
          = Returned (Grid (d1 ++ d2))
       /\ Z.of_nat (length d1) <= 2
       /\ (Z.of_nat (length d1) < 2 -> d2 = [])
       /\ StronglySorted Z.lt (map g_cell_id (d1 ++ d2)).
Proof.
  pose proof (cell_ids_unique _ sample_calls_consistent) as Hc.
  pose proof (claimed_cells_unique _ sample_calls_consistent) as Hr.
  split; [exact Hc|]. split; [exact Hr|].
  apply (grid_pages_tile None (Some "2") (Some "2") (Some "1") (Some "3") 0 2 1
           (serve_calls sample_calls sample_grid) Hc Hr);
    try (vm_compute; reflexivity); try lia.
  vm_compute. discriminate.
Defined.

(** The buffer [127; 128; 0]: two values are below the threshold. *)
Lemma applyMask_count_witness :
  fst (run (applyMask three_pixels) (mkWorld None top_cells idle)) = Returned 2.
Proof.
  destruct (proj1 (applyMask_count first_row three_pixels top_cells))
    as (l & Hnd & Hin & E).
  rewrite E. f_equal.
  assert (Hp : Permutation l [0; 2]).
  { apply NoDup_Permutation; [exact Hnd| |].
    - repeat constructor; simpl; intuition discriminate.
    - intros idx. rewrite Hin. split.
      + intros (Hidx & b & Eb & Hb).
        assert (Hc : idx = 0 \/ idx = 1 \/ idx = 2 \/ 3 <= idx) by lia.
        destruct Hc as [->|[->|[->|Hc]]].
        * now left.
        * vm_compute in Eb. injection Eb as <-. unfold THRESHOLD in Hb. lia.
        * right. now left.
        * assert (En : nth_error three_pixels (Z.to_nat idx) = None)
            by (apply nth_error_None; unfold three_pixels; cbn [length]; lia).
          rewrite En in Eb. discriminate.
      + intros [<-|[<-|[]]].
        * split; [unfold GRID_SIZE; lia|]. exists 127.
          split; [reflexivity|unfold THRESHOLD; lia].
        * split; [unfold GRID_SIZE; lia|]. exists 0.
          split; [reflexivity|unfold THRESHOLD; lia]. }
  apply Permutation_length in Hp. rewrite Hp. reflexivity.
Defined.

Lemma top_cells_consistent : Consistent top_cells.
Proof.
  apply fresh_grid_consistent; [|reflexivity].
  repeat constructor; simpl; intuition discriminate.
Qed.

Lemma grid_after_mask_witness :
  NoDup (map cell_id (cells top_cells))
  /\ NoDup (map row_cell_id (usernames top_cells))
  /\ Forall2 (row_projected three_pixels) (grid_rows top_cells)
       (grid_rows (database (snd (run (applyMask three_pixels)
                                      (mkWorld None top_cells idle)))))
  /\ StronglySorted Z.lt
       (map g_cell_id
            (grid_rows (database (snd (run (applyMask three_pixels)
                                           (mkWorld None top_cells idle)))))).
Proof.
  pose proof (cell_ids_unique _ top_cells_consistent) as Hc.
  pose proof (claimed_cells_unique _ top_cells_consistent) as Hr.
  split; [exact Hc|]. split; [exact Hr|].
  exact (grid_after_mask first_row three_pixels top_cells Hc Hr).
Defined.

End FurtherExamples.
